(** * Marketing asset manager: model and verified properties

    A shallow embedding of the validation and budget engine of the
    marketing-asset-manager repository:

    - [src/models/asset.py]              the [Asset] record and its derived properties;
    - [src/utils/asset_parser.py]        filename parsing and asset construction;
    - [src/services/asset_validator.py]  the validation pipeline;
    - [src/services/budget_manager.py]   the performance based budget adjustment;
    - [src/models/hierarchy_settings.py] the ordering of the folder levels;
    - [src/services/google_sheets.py]    the tables made of the rows of a sheet.

    Conventions of the model.

    - A Python [str] is a [string]; text algorithms run on its [list ascii].
    - A Python [int] is a [Z].  A Python [float] is the rational number it
      denotes ([Q]).  The performance rates and scores are computed with
      exact arithmetic on those rationals; the budget scaling, which turns
      a float back into an integer, is computed in binary64 with its
      rounding and its [OverflowError] ([Float64]).
    - [Optional[T]] is [option T]; Python truthiness is written out.
    - Objects that are mutated in place live in a heap (a map from references
      to assets); the external services and the wall clock are oracles
      indexed by the number of calls made so far. *)

From Stdlib Require Import ZArith QArith String Ascii List Bool Lia.
From Stdlib Require DecimalString.
From Stdlib Require Import Sorted.
From stdpp Require Import base option list gmap strings.

Local Open Scope Z_scope.


(** ** Dates ([datetime.datetime], naive) *)

Record datetime := mkDatetime {
  dt_year : Z;
  dt_month : Z;
  dt_day : Z;
  dt_hour : Z;
  dt_minute : Z;
  dt_second : Z;
  dt_microsecond : Z
}.

Definition dt_fields (d : datetime) : list Z :=
  [dt_year d; dt_month d; dt_day d; dt_hour d; dt_minute d; dt_second d;
   dt_microsecond d].

(** Lexicographic order on the field tuples, as [datetime.__gt__] computes. *)
Fixpoint lex_gtb (xs ys : list Z) : bool :=
  match xs, ys with
  | x :: xs', y :: ys' =>
      if Z.ltb y x then true
      else if Z.ltb x y then false
      else lex_gtb xs' ys'
  | _, _ => false
  end.

Definition datetime_gtb (a b : datetime) : bool :=
  lex_gtb (dt_fields a) (dt_fields b).

(** ** src/models/asset.py *)

Module Asset.

Record t := mk {
  filename : string;
  country : string;
  language : string;
  buyout_code : string;
  concept : string;
  audience : string;
  transaction_side : string;
  asset_format : string;
  duration : string;
  file_format : string;
  file_id : option string;
  mime_type : option string;
  size_bytes : option Z;
  production_date : option datetime;
  year : option Z;
  month : option Z;
  budget : Z;
  ad_id : option string;
  clicks : option Z;
  impressions : option Z;
  conversions : option Z;
  is_valid_name : bool;
  is_buyout_valid : bool;
  quality_score : option Q;
  is_privacy_compliant : option bool;
  previous_budget : option Z;
  budget_updated_at : option datetime;
  budget_update_reason : option string
}.

(** The dataclass constructor with its defaults. *)
Definition make (filename country language buyout_code concept audience
    transaction_side asset_format duration file_format : string) : t :=
  {| filename := filename; country := country; language := language;
     buyout_code := buyout_code; concept := concept; audience := audience;
     transaction_side := transaction_side; asset_format := asset_format;
     duration := duration; file_format := file_format;
     file_id := None; mime_type := None; size_bytes := None;
     production_date := None; year := None; month := None;
     budget := 0; ad_id := None; clicks := None; impressions := None;
     conversions := None;
     is_valid_name := false; is_buyout_valid := false;
     quality_score := None; is_privacy_compliant := None;
     previous_budget := None; budget_updated_at := None;
     budget_update_reason := None |}.

(** Attribute assignments used by the services. *)
Definition set_is_valid_name (v : bool) (a : t) : t :=
  mk (filename a) (country a) (language a) (buyout_code a) (concept a)
     (audience a) (transaction_side a) (asset_format a) (duration a)
     (file_format a) (file_id a) (mime_type a) (size_bytes a)
     (production_date a) (year a) (month a) (budget a) (ad_id a) (clicks a)
     (impressions a) (conversions a) v (is_buyout_valid a)
     (quality_score a) (is_privacy_compliant a) (previous_budget a)
     (budget_updated_at a) (budget_update_reason a).

Definition set_is_buyout_valid (v : bool) (a : t) : t :=
  mk (filename a) (country a) (language a) (buyout_code a) (concept a)
     (audience a) (transaction_side a) (asset_format a) (duration a)
     (file_format a) (file_id a) (mime_type a) (size_bytes a)
     (production_date a) (year a) (month a) (budget a) (ad_id a) (clicks a)
     (impressions a) (conversions a) (is_valid_name a) v
     (quality_score a) (is_privacy_compliant a) (previous_budget a)
     (budget_updated_at a) (budget_update_reason a).

Definition set_quality_score (v : option Q) (a : t) : t :=
  mk (filename a) (country a) (language a) (buyout_code a) (concept a)
     (audience a) (transaction_side a) (asset_format a) (duration a)
     (file_format a) (file_id a) (mime_type a) (size_bytes a)
     (production_date a) (year a) (month a) (budget a) (ad_id a) (clicks a)
     (impressions a) (conversions a) (is_valid_name a) (is_buyout_valid a)
     v (is_privacy_compliant a) (previous_budget a)
     (budget_updated_at a) (budget_update_reason a).

Definition set_is_privacy_compliant (v : option bool) (a : t) : t :=
  mk (filename a) (country a) (language a) (buyout_code a) (concept a)
     (audience a) (transaction_side a) (asset_format a) (duration a)
     (file_format a) (file_id a) (mime_type a) (size_bytes a)
     (production_date a) (year a) (month a) (budget a) (ad_id a) (clicks a)
     (impressions a) (conversions a) (is_valid_name a) (is_buyout_valid a)
     (quality_score a) v (previous_budget a)
     (budget_updated_at a) (budget_update_reason a).

Definition set_budget (v : Z) (a : t) : t :=
  mk (filename a) (country a) (language a) (buyout_code a) (concept a)
     (audience a) (transaction_side a) (asset_format a) (duration a)
     (file_format a) (file_id a) (mime_type a) (size_bytes a)
     (production_date a) (year a) (month a) v (ad_id a) (clicks a)
     (impressions a) (conversions a) (is_valid_name a) (is_buyout_valid a)
     (quality_score a) (is_privacy_compliant a) (previous_budget a)
     (budget_updated_at a) (budget_update_reason a).

Definition set_metrics (c i v : option Z) (a : t) : t :=
  mk (filename a) (country a) (language a) (buyout_code a) (concept a)
     (audience a) (transaction_side a) (asset_format a) (duration a)
     (file_format a) (file_id a) (mime_type a) (size_bytes a)
     (production_date a) (year a) (month a) (budget a) (ad_id a) c
     i v (is_valid_name a) (is_buyout_valid a)
     (quality_score a) (is_privacy_compliant a) (previous_budget a)
     (budget_updated_at a) (budget_update_reason a).

Definition set_ids (ad file : option string) (a : t) : t :=
  mk (filename a) (country a) (language a) (buyout_code a) (concept a)
     (audience a) (transaction_side a) (asset_format a) (duration a)
     (file_format a) file (mime_type a) (size_bytes a)
     (production_date a) (year a) (month a) (budget a) ad (clicks a)
     (impressions a) (conversions a) (is_valid_name a) (is_buyout_valid a)
     (quality_score a) (is_privacy_compliant a) (previous_budget a)
     (budget_updated_at a) (budget_update_reason a).

(** [quality_score > 5] on an optional score. *)
Definition score_above_5 (q : option Q) : bool :=
  match q with
  | Some x => if Qlt_le_dec 5 x then true else false
  | None => false
  end.

(** [Asset.is_valid] *)
Definition is_valid (a : t) : bool :=
  is_valid_name a
  && (is_buyout_valid a || score_above_5 (quality_score a))
  && match is_privacy_compliant a with
     | Some b => b
     | None => false
     end.

(** Truthiness of an [Optional[int]]. *)
Definition truthy_int (x : option Z) : bool :=
  match x with
  | Some v => negb (Z.eqb v 0)
  | None => false
  end.

(** [x and x > 0] on an [Optional[int]]: [None] and [0] are falsy, and a
    truthy value must also be positive. *)
Definition truthy_and_positive (x : option Z) : bool :=
  truthy_int x && match x with Some v => Z.ltb 0 v | None => false end.

(** True division of two integers. *)
Definition true_div (x y : Z) : Q := (inject_Z x / inject_Z y)%Q.

(** [Asset.click_through_rate] *)
Definition click_through_rate (a : t) : option Q :=
  if truthy_and_positive (impressions a) then
    match clicks a, impressions a with
    | Some c, Some i => Some (true_div c i)
    | _, _ => None
    end
  else None.

(** [Asset.conversion_rate] *)
Definition conversion_rate (a : t) : option Q :=
  if truthy_and_positive (clicks a) then
    match conversions a, clicks a with
    | Some v, Some c => Some (true_div v c)
    | _, _ => None
    end
  else None.

(** [x or 0] on an optional rate: [None] and [0.0] are both falsy. *)
Definition or_zero (x : option Q) : Q :=
  match x with
  | Some r => if Qeq_bool r 0 then 0%Q else r
  | None => 0%Q
  end.

(** [Asset.performance_score]; the annotation says Optional, the body always
    returns a number. *)
Definition performance_score (a : t) : option Q :=
  let ctr := or_zero (click_through_rate a) in
  let cvr := or_zero (conversion_rate a) in
  Some ((ctr * (4 # 10)) + (cvr * (6 # 10)))%Q.

(** [Asset.update_budget], with the clock reading passed in. *)
Definition update_budget (new_budget : Z) (reason : string) (now : datetime)
    (a : t) : t :=
  mk (filename a) (country a) (language a) (buyout_code a) (concept a)
     (audience a) (transaction_side a) (asset_format a) (duration a)
     (file_format a) (file_id a) (mime_type a) (size_bytes a)
     (production_date a) (year a) (month a) new_budget (ad_id a) (clicks a)
     (impressions a) (conversions a) (is_valid_name a) (is_buyout_valid a)
     (quality_score a) (is_privacy_compliant a) (Some (budget a))
     (Some now) (Some reason).

End Asset.

(** ** Text primitives of the Python runtime *)

Module Text.

Definition code (c : ascii) : nat := nat_of_ascii c.

(** [str.isspace] on one character, which is also the class [\s] of [re]. *)
Definition is_space (c : ascii) : bool :=
  let n := code c in
  ((9 <=? n) && (n <=? 13) || (28 <=? n) && (n <=? 32)
   || (n =? 133) || (n =? 160))%nat.

Definition is_upper (c : ascii) : bool :=
  let n := code c in ((65 <=? n) && (n <=? 90))%nat.

Definition is_lower (c : ascii) : bool :=
  let n := code c in ((97 <=? n) && (n <=? 122))%nat.

Definition is_digit (c : ascii) : bool :=
  let n := code c in ((48 <=? n) && (n <=? 57))%nat.

Definition is_alnum (c : ascii) : bool :=
  is_upper c || is_lower c || is_digit c.

Definition is_char (x c : ascii) : bool := Ascii.eqb c x.

(** The class of the regular expression dot: anything but a line feed. *)
Definition is_dot (c : ascii) : bool := negb (is_char "010" c).

Definition is_pipe (c : ascii) : bool := is_char "|" c.

Fixpoint lstrip (s : list ascii) : list ascii :=
  match s with
  | c :: s' => if is_space c then lstrip s' else s
  | [] => []
  end.

Definition rstrip (s : list ascii) : list ascii := rev (lstrip (rev s)).

(** [str.strip()] *)
Definition strip (s : list ascii) : list ascii := rstrip (lstrip s).

(** [sep in s] for a one character separator. *)
Definition contains (sep : ascii) (s : list ascii) : bool :=
  existsb (is_char sep) s.

(** [str.split(sep)] for a one character separator; never empty. *)
Fixpoint split (sep : ascii) (s : list ascii) : list (list ascii) :=
  match s with
  | [] => [[]]
  | c :: s' =>
      if is_char sep c then [] :: split sep s'
      else match split sep s' with
           | piece :: pieces => (c :: piece) :: pieces
           | [] => [[c]]
           end
  end.

(** [os.path.basename] (posixpath): the text after the last slash. *)
Fixpoint basename (s : list ascii) : list ascii :=
  match s with
  | [] => []
  | c :: s' => if contains "/" s then basename s' else s
  end.

Definition of_string (s : string) : list ascii := list_ascii_of_string s.
Definition to_string (s : list ascii) : string := string_of_list_ascii s.

End Text.

(** ** The backtracking matcher of [re]

    Only the constructs the repository and [datetime.strptime] use: single
    character classes, greedy and lazy repetition of a class, alternation of
    class sequences, capture groups and the end anchor.  The matcher tries
    the alternatives in the priority order of CPython's engine and returns
    the first complete match. *)

Module Re.

Definition cls := ascii -> bool.

Inductive atom :=
| Chr (p : cls)                          (* one character of a class *)
| Rep (p : cls) (lo : nat) (greedy : bool) (* p{lo,} or p{lo,}? *)
| Alt (branches : list (list cls))       (* b1|b2|... of class sequences *)
| GroupOpen
| GroupClose
| EndAnchor.                             (* $ *)

Definition pattern := list atom.

(** Result of a match: the captured groups and the unmatched suffix. *)
Definition found := (list (list ascii) * list ascii)%type.

(** Repetition followed by the continuation [k].  Greedy repetition takes
    as much as it can and gives back one character at a time; lazy
    repetition takes as little as it can and extends on failure. *)
Fixpoint rep (p : cls) (lo : nat) (greedy : bool)
    (k : list ascii -> option found) (s : list ascii) : option found :=
  match lo with
  | S lo' =>
      match s with
      | c :: s' => if p c then rep p lo' greedy k s' else None
      | [] => None
      end
  | O =>
      if greedy then
        match s with
        | c :: s' =>
            if p c then
              match rep p O greedy k s' with
              | Some r => Some r
              | None => k s
              end
            else k s
        | [] => k s
        end
      else
        match k s with
        | Some r => Some r
        | None =>
            match s with
            | c :: s' => if p c then rep p O greedy k s' else None
            | [] => None
            end
        end
  end.

(** A fixed sequence of classes. *)
Fixpoint eat (ps : list cls) (s : list ascii) : option (list ascii) :=
  match ps, s with
  | [], _ => Some s
  | p :: ps', c :: s' => if p c then eat ps' s' else None
  | _ :: _, [] => None
  end.

(** Alternation: the first branch whose continuation succeeds. *)
Fixpoint alt (branches : list (list cls))
    (k : list ascii -> option found) (s : list ascii) : option found :=
  match branches with
  | [] => None
  | b :: rest =>
      match
        match eat b s with
        | Some s' => k s'
        | None => None
        end
      with
      | Some r => Some r
      | None => alt rest k s
      end
  end.

(** [$] holds at the end and just before a final line feed. *)
Definition at_end (s : list ascii) : bool :=
  match s with
  | [] => true
  | [c] => Text.is_char "010" c
  | _ => false
  end.

(** [run pat s opened acc]: match [pat] against [s]; [opened] is the input
    at the last group opening and [acc] the groups closed so far, latest
    first. *)
Fixpoint run (pat : pattern) (s opened : list ascii)
    (acc : list (list ascii)) : option found :=
  match pat with
  | [] => Some (rev acc, s)
  | Chr p :: pat' =>
      match s with
      | c :: s' => if p c then run pat' s' opened acc else None
      | [] => None
      end
  | Rep p lo greedy :: pat' =>
      rep p lo greedy (fun s' => run pat' s' opened acc) s
  | Alt branches :: pat' =>
      alt branches (fun s' => run pat' s' opened acc) s
  | GroupOpen :: pat' => run pat' s s acc
  | GroupClose :: pat' =>
      run pat' s opened
        (take (length opened - length s)%nat opened :: acc)
  | EndAnchor :: pat' =>
      if at_end s then run pat' s opened acc else None
  end.

(** [re.match(pattern, s)]: anchored at the start only. *)
Definition re_match (pat : pattern) (s : list ascii) : option found :=
  run pat s s [].

(** [match.groups()] entry [i], counted from 0. *)
Definition group (i : nat) (m : found) : list ascii := nth i (fst m) [].

(** [match.end()] as the unmatched suffix. *)
Definition rest (m : found) : list ascii := snd m.

End Re.

(** ** src/utils/asset_parser.py *)

Module AssetParser.

Import Re.

Definition ws : atom := Rep Text.is_space 0 true.            (* \s* *)
Definition pipe : atom := Chr Text.is_pipe.                   (* \| *)
Definition lazy_field : list atom :=                          (* (.+?) *)
  [GroupOpen; Rep Text.is_dot 1 false; GroupClose].
Definition sep : list atom := [ws; pipe; ws].                 (* \s*\|\s* *)

(** [self.pattern]; the leading [^] is implied by [re.match]. *)
Definition pattern : Re.pattern :=
  [GroupOpen; Chr Text.is_upper; Chr Text.is_upper; Chr (Text.is_char "-");
   Chr Text.is_upper; Chr Text.is_upper; GroupClose]
  ++ sep ++ [GroupOpen; Rep Text.is_alnum 1 true; GroupClose]
  ++ sep ++ lazy_field
  ++ sep ++ lazy_field
  ++ sep ++ lazy_field
  ++ sep ++ lazy_field
  ++ sep ++ lazy_field
  ++ sep ++ [GroupOpen; Rep Text.is_dot 1 true; GroupClose; EndAnchor].

Definition stripped (i : nat) (m : found) : string :=
  Text.to_string (Text.strip (group i m)).

(** [AssetParser.parse_filename] *)
Definition parse_filename (filename : string)
    : option (gmap string string) :=
  let base_name := Text.basename (Text.of_string filename) in
  match re_match pattern base_name with
  | None => None
  | Some m =>
      Some (<["country_language" := stripped 0 m]>
            (<["buyout_code" := stripped 1 m]>
            (<["concept" := stripped 2 m]>
            (<["audience" := stripped 3 m]>
            (<["transaction_side" := stripped 4 m]>
            (<["asset_format" := stripped 5 m]>
            (<["duration" := stripped 6 m]>
            (<["file_format" := stripped 7 m]>
            (<["original_filename" := Text.to_string base_name]> ∅)))))))))
  end.

(** [parsed_data.get(key, "")] *)
Definition get (parsed_data : gmap string string) (key : string) : string :=
  default "" (parsed_data !! key).

(** [s.split("-")[i] if "-" in s else ""] *)
Definition hyphen_part (i : nat) (s : string) : string :=
  let l := Text.of_string s in
  if Text.contains "-" l
  then Text.to_string (nth i (Text.split "-" l) [])
  else "".

(** [AssetParser.create_asset_from_parsed_data] *)
Definition create_asset_from_parsed_data (filename : string)
    (parsed_data : gmap string string) : Asset.t :=
  let country_language := get parsed_data "country_language" in
  let country := hyphen_part 0 country_language in
  let language := hyphen_part 1 country_language in
  Asset.set_is_valid_name true
    (Asset.make filename country language
       (get parsed_data "buyout_code") (get parsed_data "concept")
       (get parsed_data "audience") (get parsed_data "transaction_side")
       (get parsed_data "asset_format") (get parsed_data "duration")
       (get parsed_data "file_format")).

End AssetParser.

(** ** [datetime.strptime] for the directives [%d], [%m], [%Y]

    CPython turns a format into a regular expression (one named group per
    directive, literal characters escaped), matches it at the start of the
    text, rejects unconverted trailing text, and builds the date, which
    rejects year 0 and days beyond the end of the month.  All rejections are
    [ValueError]; here they are [None]. *)

Module Strptime.

Import Re.

Inductive directive := Dir_d | Dir_m | Dir_Y.

Inductive item :=
| Directive (d : directive)
| Literal (c : ascii).

Definition format := list item.

Definition between (lo hi : ascii) (c : ascii) : bool :=
  ((Text.code lo <=? Text.code c) && (Text.code c <=? Text.code hi))%nat.

(** The regular expression of one directive, as in [_strptime.TimeRE]. *)
Definition directive_regex (d : directive) : list atom :=
  match d with
  | Dir_d =>          (* 3[0-1]|[1-2]\d|0[1-9]|[1-9]| [1-9] *)
      [GroupOpen;
       Alt [[Text.is_char "3"; between "0" "1"];
            [between "1" "2"; Text.is_digit];
            [Text.is_char "0"; between "1" "9"];
            [between "1" "9"];
            [Text.is_char " "; between "1" "9"]];
       GroupClose]
  | Dir_m =>          (* 1[0-2]|0[1-9]|[1-9] *)
      [GroupOpen;
       Alt [[Text.is_char "1"; between "0" "2"];
            [Text.is_char "0"; between "1" "9"];
            [between "1" "9"]];
       GroupClose]
  | Dir_Y =>          (* \d\d\d\d *)
      [GroupOpen; Chr Text.is_digit; Chr Text.is_digit; Chr Text.is_digit;
       Chr Text.is_digit; GroupClose]
  end.

Definition format_regex (fmt : format) : pattern :=
  flat_map (fun it => match it with
                      | Directive d => directive_regex d
                      | Literal c => [Chr (Text.is_char c)]
                      end) fmt.

(** [int(text)] on a captured group: decimal digits after optional blanks. *)
Definition int_of (s : list ascii) : Z :=
  fold_left (fun acc c =>
               if Text.is_digit c
               then 10 * acc + (Z.of_nat (Text.code c) - 48)
               else acc) s 0.

(** Year, month and day read off the groups in format order; the defaults
    are those of [_strptime]. *)
Fixpoint read_fields (fmt : format) (groups : list (list ascii))
    (ymd : Z * Z * Z) : Z * Z * Z :=
  match fmt, groups with
  | Directive d :: fmt', g :: groups' =>
      let '(y, m, dd) := ymd in
      read_fields fmt' groups'
        match d with
        | Dir_d => (y, m, int_of g)
        | Dir_m => (y, int_of g, dd)
        | Dir_Y => (int_of g, m, dd)
        end
  | Literal _ :: fmt', _ => read_fields fmt' groups ymd
  | _, _ => ymd
  end.

Definition is_leap (y : Z) : bool :=
  (y mod 4 =? 0) && (negb (y mod 100 =? 0) || (y mod 400 =? 0)).

Definition days_in_month (y m : Z) : Z :=
  if m =? 2 then (if is_leap y then 29 else 28)
  else if (m =? 4) || (m =? 6) || (m =? 9) || (m =? 11) then 30
  else 31.

(** The [datetime] constructor at midnight. *)
Definition make_date (ymd : Z * Z * Z) : option datetime :=
  let '(y, m, d) := ymd in
  if (1 <=? y) && (y <=? 9999) && (1 <=? m) && (m <=? 12)
     && (1 <=? d) && (d <=? days_in_month y m)
  then Some (mkDatetime y m d 0 0 0 0)
  else None.

Definition strptime (s : string) (fmt : format) : option datetime :=
  match re_match (format_regex fmt) (Text.of_string s) with
  | None => None
  | Some m =>
      match rest m with
      | [] => make_date (read_fields fmt (fst m) (1900, 1, 1))
      | _ :: _ => None
      end
  end.

Definition dmy_slash : format :=   (* "%d/%m/%Y" *)
  [Directive Dir_d; Literal "/"; Directive Dir_m; Literal "/"; Directive Dir_Y].
Definition mdy_slash : format :=   (* "%m/%d/%Y" *)
  [Directive Dir_m; Literal "/"; Directive Dir_d; Literal "/"; Directive Dir_Y].
Definition ymd_dash : format :=    (* "%Y-%m-%d" *)
  [Directive Dir_Y; Literal "-"; Directive Dir_m; Literal "-"; Directive Dir_d].
Definition ymd_slash : format :=   (* "%Y/%m/%d" *)
  [Directive Dir_Y; Literal "/"; Directive Dir_m; Literal "/"; Directive Dir_d].

End Strptime.

(** ** The outside world

    The ads endpoint, the image analyzer, the file system and the clock are
    oracles; the n-th call of a service gets the n-th answer. *)

(** Answer of the ads endpoint: a mapping, or an exception. *)
Inductive AdsResponse :=
| AdsReply (payload : gmap string string)
| AdsRaises.

(** ["error" in response] *)
Definition has_error (payload : gmap string string) : bool :=
  bool_decide (is_Some (payload !! "error")).

(** What [json.loads] makes of the analyzer's text. *)
Inductive Json :=
| JsonObject (quality : option Q) (privacy : option (option bool))
| JsonOther.

(** Answer of the image analyzer. *)
Inductive AnalyzerResult :=
| AnalyzerEmpty                    (* a falsy result *)
| AnalyzerText (parsed : option Json) (* text; [None] when it is not JSON *)
| AnalyzerOpenAiError              (* raises OpenAiError *)
| AnalyzerException.               (* raises something else *)

Record Env := mkEnv {
  ads_api : nat -> option string -> option string -> Z -> AdsResponse;
  clock : nat -> datetime;
  analyze_image : nat -> list ascii -> AnalyzerResult;
  path_exists : string -> bool;
  read_file : string -> option (list ascii)
}.

(** References to assets and the mutable part of the world. *)
Definition ref := nat.

Record World := mkWorld {
  heap : ref -> Asset.t;
  ads_calls : nat;
  clock_reads : nat;
  analyzer_calls : nat
}.

(** ** State passing *)

Definition M (S A : Type) : Type := S -> A * S.

Definition ret {S A} (x : A) : M S A := fun s => (x, s).

Definition bind {S A B} (c : M S A) (k : A -> M S B) : M S B :=
  fun s => let '(x, s') := c s in k x s'.

Notation "'let*' x := c 'in' k" := (bind c (fun x => k))
  (at level 10, x pattern, c at level 100, k at level 200).

Notation "c ;; k" := (bind c (fun _ => k))
  (at level 100, k at level 200, right associativity).

Section WorldOps.
Context {Self : Type}.
Variable env : Env.

Definition load (r : ref) : M (World * Self) Asset.t :=
  fun '(w, s) => (heap w r, (w, s)).

Definition store (r : ref) (a : Asset.t) : M (World * Self) unit :=
  fun '(w, s) =>
    (tt, (mkWorld (fun r' => if Nat.eqb r' r then a else heap w r')
                  (ads_calls w) (clock_reads w) (analyzer_calls w), s)).

(** [asset.field = value] through a reference. *)
Definition assign (r : ref) (f : Asset.t -> Asset.t) : M (World * Self) unit :=
  let* a := load r in store r (f a).

(** [datetime.now()] *)
Definition now : M (World * Self) datetime :=
  fun '(w, s) =>
    (clock env (clock_reads w),
     (mkWorld (heap w) (ads_calls w) (S (clock_reads w))
              (analyzer_calls w), s)).

(** [google_ads_api.update_asset_budget(ad_id, asset_id, new_budget)] *)
Definition call_ads (ad asset : option string) (new_budget : Z)
    : M (World * Self) AdsResponse :=
  fun '(w, s) =>
    (ads_api env (ads_calls w) ad asset new_budget,
     (mkWorld (heap w) (S (ads_calls w)) (clock_reads w)
              (analyzer_calls w), s)).

(** [openai_api.analyze_image(image_bytes)] *)
Definition call_analyzer (bytes : list ascii)
    : M (World * Self) AnalyzerResult :=
  fun '(w, s) =>
    (analyze_image env (analyzer_calls w) bytes,
     (mkWorld (heap w) (ads_calls w) (clock_reads w)
              (S (analyzer_calls w)), s)).

Definition get_self : M (World * Self) Self := fun '(w, s) => (s, (w, s)).

Definition set_self (s' : Self) : M (World * Self) unit :=
  fun '(w, _) => (tt, (w, s')).
End WorldOps.

(** Truthiness of an [Optional[str]]. *)
Definition truthy_str (x : option string) : bool :=
  match x with
  | Some s => negb (String.eqb s "")
  | None => false
  end.

(** ** src/services/asset_validator.py *)

Module AssetValidator.

(** Reasons listed by [_get_validation_failure_reasons]. *)
Inductive Reason :=
| InvalidFilenameFormat         (* "Invalid filename format" *)
| ExpiredOrInvalidBuyoutCode    (* "Expired or invalid buyout code" *)
| QualityCheckFailed            (* "Quality check failed" *)
| LowQualityScore (score : Q)   (* "Low quality score: {score}" *)
| PrivacyCheckFailed            (* "Privacy compliance check failed" *)
| NotPrivacyCompliant.          (* "Not privacy compliant" *)

(** [self.validation_results] *)
Record t := mk {
  valid : list string;
  invalid : list (string * list Reason);
  errors : list string
}.

Definition init : t := mk [] [] [].

Definition St : Type := (World * t)%type.

(** [AssetValidator.validate_asset_name] *)
Definition validate_asset_name (a : Asset.t) : bool :=
  forallb (fun field => negb (String.eqb field ""))
    [Asset.country a; Asset.language a; Asset.buyout_code a;
     Asset.concept a; Asset.audience a; Asset.transaction_side a;
     Asset.asset_format a; Asset.duration a].

(** [date_formats] *)
Definition date_formats : list Strptime.format :=
  [Strptime.dmy_slash; Strptime.mdy_slash; Strptime.ymd_dash;
   Strptime.ymd_slash].

(** The loop over [date_formats]: the first format that parses wins. *)
Fixpoint parse_expiration (formats : list Strptime.format) (s : string)
    : option datetime :=
  match formats with
  | [] => None
  | fmt :: formats' =>
      match Strptime.strptime s fmt with
      | Some d => Some d
      | None => parse_expiration formats' s
      end
  end.

Section Services.
Variable env : Env.

(** [AssetValidator.validate_buyout_code] *)
Definition validate_buyout_code (a : Asset.t)
    (buyout_data : gmap string string) : M St bool :=
  let buyout_code := Asset.buyout_code a in
  if String.eqb buyout_code "" then ret false
  else
    match buyout_data !! buyout_code with
    | None => ret false
    | Some expiration_date_str =>
        if String.eqb expiration_date_str "" then ret false
        else
          match parse_expiration date_formats expiration_date_str with
          | None => ret false
          | Some expiration_date =>
              let* current_date := now env in
              if datetime_gtb current_date expiration_date
              then ret false
              else ret true
          end
    end.

(** The retry loop of [validate_image_quality]; [attempt] counts from 0. *)
Fixpoint analyze_loop (max_retries remaining attempt : nat)
    (image_bytes : list ascii) : M St (option Q * option bool) :=
  match remaining with
  | O => ret (None, None)
  | S remaining' =>
      let* analysis_result := call_analyzer env image_bytes in
      match analysis_result with
      | AnalyzerEmpty =>
          analyze_loop max_retries remaining' (S attempt) image_bytes
      | AnalyzerText None =>
          analyze_loop max_retries remaining' (S attempt) image_bytes
      | AnalyzerText (Some (JsonObject quality privacy)) =>
          ret (quality, default (Some false) privacy)
      | AnalyzerText (Some JsonOther) => ret (None, None)
      | AnalyzerOpenAiError =>
          if Nat.eqb attempt (max_retries - 1) then ret (None, None)
          else analyze_loop max_retries remaining' (S attempt) image_bytes
      | AnalyzerException => ret (None, None)
      end
  end.

(** [AssetValidator.validate_image_quality] *)
Definition validate_image_quality (image_path : string)
    (max_retries : nat) : M St (option Q * option bool) :=
  if negb (path_exists env image_path) then ret (None, None)
  else
    match read_file env image_path with
    | None => ret (None, None)
    | Some image_bytes =>
        analyze_loop max_retries max_retries 0 image_bytes
    end.

(** The retry loop of [update_asset_budget]. *)
Fixpoint push_loop (max_retries remaining attempt : nat) (r : ref)
    (new_budget : Z) : M St bool :=
  match remaining with
  | O => ret false
  | S remaining' =>
      let* a := load r in
      let* response :=
        call_ads env (Asset.ad_id a) (Asset.file_id a) new_budget in
      match response with
      | AdsReply payload =>
          if has_error payload then
            if Nat.eqb attempt (max_retries - 1) then ret false
            else push_loop max_retries remaining' (S attempt) r new_budget
          else ret true
      | AdsRaises =>
          if Nat.eqb attempt (max_retries - 1) then ret false
          else push_loop max_retries remaining' (S attempt) r new_budget
      end
  end.

(** [AssetValidator.update_asset_budget] *)
Definition update_asset_budget (r : ref) (set_to_zero : bool)
    : M St bool :=
  let* a := load r in
  if negb (truthy_str (Asset.ad_id a)) then ret false
  else if negb (truthy_str (Asset.file_id a)) then ret false
  else
    let new_budget := if set_to_zero then 0 else Asset.budget a in
    let max_retries := 3%nat in
    push_loop max_retries max_retries 0 r new_budget.

(** [AssetValidator._get_validation_failure_reasons] *)
Definition get_validation_failure_reasons (a : Asset.t) : list Reason :=
  (if negb (Asset.is_valid_name a) then [InvalidFilenameFormat] else [])
  ++ (if negb (Asset.is_buyout_valid a)
      then [ExpiredOrInvalidBuyoutCode] else [])
  ++ match Asset.quality_score a with
     | None => [QualityCheckFailed]
     | Some q => if Qle_bool q 5 then [LowQualityScore q] else []
     end
  ++ match Asset.is_privacy_compliant a with
     | None => [PrivacyCheckFailed]
     | Some b => if negb b then [NotPrivacyCompliant] else []
     end.

(** [AssetValidator.validate_asset] *)
Definition validate_asset (r : ref) (image_path : string)
    (buyout_data : gmap string string) : M St ref :=
  (* Step 1: validate asset name *)
  let* a := load r in
  assign r (Asset.set_is_valid_name (validate_asset_name a));;
  (* Step 2: validate buyout code *)
  let* a := load r in
  let* buyout_ok := validate_buyout_code a buyout_data in
  assign r (Asset.set_is_buyout_valid buyout_ok);;
  (* Step 3: validate image quality *)
  let* qp := validate_image_quality image_path 3 in
  assign r (Asset.set_quality_score (fst qp));;
  assign r (Asset.set_is_privacy_compliant (snd qp));;
  (* Step 4: update budget if buyout is expired *)
  let* a := load r in
  (if negb (Asset.is_buyout_valid a) then
     update_asset_budget r true;;
     assign r (Asset.set_budget 0)
   else ret tt);;
  (* Report validation results *)
  let* a := load r in
  let* self := get_self in
  (if Asset.is_valid a then
     set_self (mk (valid self ++ [Asset.filename a]) (invalid self)
                  (errors self))
   else
     set_self (mk (valid self)
                  (invalid self
                   ++ [(Asset.filename a, get_validation_failure_reasons a)])
                  (errors self)));;
  ret r.

End Services.

End AssetValidator.

(** ** Equality of assets (the dataclass [__eq__]) *)

Definition opt_eqb {A} (eqb : A -> A -> bool) (x y : option A) : bool :=
  match x, y with
  | Some a, Some b => eqb a b
  | None, None => true
  | _, _ => false
  end.

Definition datetime_eqb (a b : datetime) : bool :=
  bool_decide (dt_fields a = dt_fields b).

Definition asset_eqb (a b : Asset.t) : bool :=
  String.eqb (Asset.filename a) (Asset.filename b)
  && String.eqb (Asset.country a) (Asset.country b)
  && String.eqb (Asset.language a) (Asset.language b)
  && String.eqb (Asset.buyout_code a) (Asset.buyout_code b)
  && String.eqb (Asset.concept a) (Asset.concept b)
  && String.eqb (Asset.audience a) (Asset.audience b)
  && String.eqb (Asset.transaction_side a) (Asset.transaction_side b)
  && String.eqb (Asset.asset_format a) (Asset.asset_format b)
  && String.eqb (Asset.duration a) (Asset.duration b)
  && String.eqb (Asset.file_format a) (Asset.file_format b)
  && opt_eqb String.eqb (Asset.file_id a) (Asset.file_id b)
  && opt_eqb String.eqb (Asset.mime_type a) (Asset.mime_type b)
  && opt_eqb Z.eqb (Asset.size_bytes a) (Asset.size_bytes b)
  && opt_eqb datetime_eqb (Asset.production_date a) (Asset.production_date b)
  && opt_eqb Z.eqb (Asset.year a) (Asset.year b)
  && opt_eqb Z.eqb (Asset.month a) (Asset.month b)
  && Z.eqb (Asset.budget a) (Asset.budget b)
  && opt_eqb String.eqb (Asset.ad_id a) (Asset.ad_id b)
  && opt_eqb Z.eqb (Asset.clicks a) (Asset.clicks b)
  && opt_eqb Z.eqb (Asset.impressions a) (Asset.impressions b)
  && opt_eqb Z.eqb (Asset.conversions a) (Asset.conversions b)
  && Bool.eqb (Asset.is_valid_name a) (Asset.is_valid_name b)
  && Bool.eqb (Asset.is_buyout_valid a) (Asset.is_buyout_valid b)
  && opt_eqb Qeq_bool (Asset.quality_score a) (Asset.quality_score b)
  && opt_eqb Bool.eqb (Asset.is_privacy_compliant a)
       (Asset.is_privacy_compliant b)
  && opt_eqb Z.eqb (Asset.previous_budget a) (Asset.previous_budget b)
  && opt_eqb datetime_eqb (Asset.budget_updated_at a)
       (Asset.budget_updated_at b)
  && opt_eqb String.eqb (Asset.budget_update_reason a)
       (Asset.budget_update_reason b).

(** [asset in assets] on a list of references: identity, else equality. *)
Definition asset_in (h : ref -> Asset.t) (r : ref) (l : list ref) : bool :=
  existsb (fun r' => Nat.eqb r r' || asset_eqb (h r) (h r')) l.

(** [int(x)] of a float: truncation towards zero. *)
Definition py_int (q : Q) : Z := Z.quot (Qnum q) (Zpos (Qden q)).

(** ** Binary64 floats

    A finite float is the rational it denotes.  An operation computes the
    exact result and rounds it to the nearest binary64 value, halves going
    to the even mantissa (53 bits, exponents from -1074); a result of
    magnitude [2^1024] or more after rounding is an infinity, here
    [None]. *)

Module Float64.

(** [floor(log2(n / d))] for positive [n] and [d]. *)
Definition floor_log2 (n d : Z) : Z :=
  let c := Z.log2 n - Z.log2 d in
  let below :=
    if 0 <=? c then n <? d * 2 ^ c else n * 2 ^ (- c) <? d in
  if below then c - 1 else c.

(** The integer nearest to [n / d], halves going to the even neighbour. *)
Definition round_half_even (n d : Z) : Z :=
  let m := n / d in
  match 2 * (n mod d) ?= d with
  | Lt => m
  | Gt => m + 1
  | Eq => if Z.even m then m else m + 1
  end.

(** Mantissa and exponent of the binary64 value nearest to [n / d], the
    exponent not yet bounded from above. *)
Definition nearest (n d : Z) : Z * Z :=
  let e := Z.max (-1074) (floor_log2 n d - 52) in
  let m :=
    if 0 <=? e then round_half_even n (d * 2 ^ e)
    else round_half_even (n * 2 ^ (- e)) d in
  (m, e).

(** [m * 2^e] *)
Definition value (m e : Z) : Q :=
  if 0 <=? e then inject_Z (m * 2 ^ e)
  else Qmake m (Z.to_pos (2 ^ (- e))).

(** Rounding of an exact result. *)
Definition round (q : Q) : option Q :=
  let n := Qnum (Qred q) in
  let d := Zpos (Qden (Qred q)) in
  if n =? 0 then Some 0%Q
  else
    let '(m, e) := nearest (Z.abs n) d in
    if (0 <=? e) && (2 ^ 1024 <=? m * 2 ^ e) then None
    else Some (if n <? 0 then Qopp (value m e) else value m e).

(** [float(n)] of an integer; [None] is [OverflowError]. *)
Definition of_int (n : Z) : option Q := round (inject_Z n).

(** [x * y] of two finite floats; [None] is an infinity. *)
Definition mul (x y : Q) : option Q := round (x * y).

(** The float a decimal literal denotes. *)
Definition literal (q : Q) : Q := default q (round q).

(** [int(n * y)] for an integer [n] and a finite float [y]: the integer
    is converted, the product rounded, the result truncated towards
    zero.  The conversion of too large an integer and [int] of an infinite
    product both raise [OverflowError], here [None]. *)
Definition scale (n : Z) (y : Q) : option Z :=
  match of_int n with
  | Some x =>
      match mul x y with
      | Some product => Some (py_int product)
      | None => None
      end
  | None => None
  end.

End Float64.

(** ** Calls that can raise *)

Inductive Exception := OverflowError.

Inductive Outcome (A : Type) :=
| Returned (a : A)
| Raised (e : Exception).

Arguments Returned {A} a.
Arguments Raised {A} e.

(** Sequencing of calls that can raise: an exception ends the computation
    and leaves the state as it is at that point. *)
Definition bind_raise {S A B} (c : M S (Outcome A))
    (k : A -> M S (Outcome B)) : M S (Outcome B) :=
  fun s =>
    let '(x, s') := c s in
    match x with
    | Returned a => k a s'
    | Raised e => (Raised e, s')
    end.

Notation "'let?' x := c 'in' k" := (bind_raise c (fun x => k))
  (at level 10, x pattern, c at level 100, k at level 200).

(** ** src/services/budget_manager.py *)

Module BudgetManager.

Record Change := mkChange {
  ch_filename : string;
  ch_ad_id : option string;
  ch_previous_budget : option Z;
  ch_new_budget : Z;
  ch_adjustment_factor : Q;
  ch_reason : string;
  ch_timestamp : datetime
}.

Record Skipped := mkSkipped {
  sk_filename : string;
  sk_reason : string;
  sk_asset_id : option string;
  sk_ad_id : option (option string)   (* the key is absent in one case *)
}.

Record Unchanged := mkUnchanged {
  un_filename : string;
  un_reason : string;
  un_asset_id : option string;
  un_ad_id : option string;
  un_budget : Z;
  un_performance_score : option Q
}.

Record t := mk {
  max_retries : nat;
  budget_changes : list Change;
  skipped_assets : list Skipped;
  unchanged_assets : list Unchanged
}.

(** [BudgetManager(key)] with the default [max_retries]. *)
Definition init : t := mk 3 [] [] [].

Definition St : Type := (World * t)%type.

Record Summary := mkSummary {
  total_assets : nat;
  valid_assets : nat;
  total_ads : nat;
  budgets_increased : nat;
  budgets_decreased : nat;
  budgets_unchanged : nat;
  sum_budget_changes : list Change;
  sum_skipped_assets : list Skipped;
  sum_unchanged_assets : list Unchanged
}.

(** [ad_assets[key].append(r)], creating the entry at the end of the
    insertion ordered dict when the key is new. *)
Fixpoint group_insert (key : string) (r : ref)
    (groups : list (string * list ref)) : list (string * list ref) :=
  match groups with
  | [] => [(key, [r])]
  | (k, members) :: groups' =>
      if String.eqb k key then (k, members ++ [r]) :: groups'
      else (k, members) :: group_insert key r groups'
  end.

(** [BudgetManager.group_assets_by_ad] *)
Definition group_assets_by_ad (h : ref -> Asset.t) (assets : list ref)
    : list (string * list ref) :=
  fold_left
    (fun ad_assets r =>
       match Asset.ad_id (h r) with
       | Some key =>
           if truthy_str (Some key) then group_insert key r ad_assets
           else ad_assets
       | None => ad_assets
       end)
    assets [].

(** Stable sort by score, highest first ([sort(key=..., reverse=True)]). *)
Fixpoint insert_desc (x : ref * Q) (l : list (ref * Q)) : list (ref * Q) :=
  match l with
  | [] => [x]
  | y :: l' =>
      if Qlt_le_dec (snd x) (snd y) then y :: insert_desc x l'
      else x :: l
  end.

Definition sort_desc (l : list (ref * Q)) : list (ref * Q) :=
  foldr insert_desc [] l.

(** [l[-n:]] for [n >= 1]. *)
Definition last_n {A} (n : nat) (l : list A) : list A :=
  drop (length l - n)%nat l.

(** [BudgetManager.identify_performance_outliers] *)
Definition identify_performance_outliers (h : ref -> Asset.t)
    (assets : list ref) : list ref * list ref :=
  match assets with
  | [] => ([], [])
  | _ :: _ =>
      let assets_with_scores :=
        omap (fun r => match Asset.performance_score (h r) with
                       | Some score => Some (r, score)
                       | None => None
                       end) assets in
      match assets_with_scores with
      | [] => ([], [])
      | _ :: _ =>
          let sorted := sort_desc assets_with_scores in
          let total := length sorted in
          let top_count := Nat.max 1 (total / 4) in
          let low_count := Nat.max 1 (total / 4) in
          (fst <$> take top_count sorted,
           fst <$> last_n low_count sorted)
      end
  end.

Section Services.
Variable env : Env.

(** The retry loop of [update_asset_budget]. *)
Fixpoint update_loop (remaining attempt : nat) (r : ref) (new_budget : Z)
    (adjustment_factor : Q) (reason : string) : M St bool :=
  match remaining with
  | O => ret false
  | S remaining' =>
      let* a := load r in
      let* response :=
        call_ads env (Asset.ad_id a) (Asset.file_id a) new_budget in
      let* self := get_self in
      match response with
      | AdsReply payload =>
          if has_error payload then
            if Nat.eqb attempt (max_retries self - 1) then ret false
            else update_loop remaining' (S attempt) r new_budget
                   adjustment_factor reason
          else
            let* t := now env in
            assign r (Asset.update_budget new_budget reason t);;
            let* a := load r in
            let* stamp := now env in
            let* self := get_self in
            set_self
              (mk (max_retries self)
                  (budget_changes self
                   ++ [mkChange (Asset.filename a) (Asset.ad_id a)
                         (Asset.previous_budget a) new_budget
                         adjustment_factor reason stamp])
                  (skipped_assets self) (unchanged_assets self));;
            ret true
      | AdsRaises =>
          if Nat.eqb attempt (max_retries self - 1) then ret false
          else update_loop remaining' (S attempt) r new_budget
                 adjustment_factor reason
      end
  end.

(** [BudgetManager.update_asset_budget]; [int(asset.budget *
    adjustment_factor)] is computed before the loop and outside its
    [try]. *)
Definition update_asset_budget (r : ref) (adjustment_factor : Q)
    (reason : string) : M St (Outcome bool) :=
  let* a := load r in
  if negb (truthy_str (Asset.ad_id a)) || negb (truthy_str (Asset.file_id a))
  then ret (Returned false)
  else
    match Float64.scale (Asset.budget a) adjustment_factor with
    | None => ret (Raised OverflowError)
    | Some new_budget =>
        let* self := get_self in
        let* ok :=
          update_loop (max_retries self) 0 r new_budget adjustment_factor
            reason in
        ret (Returned ok)
    end.

(** The filter loop of [adjust_budgets_by_performance]. *)
Fixpoint filter_assets (assets valid_assets : list ref)
    : M St (list ref) :=
  match assets with
  | [] => ret valid_assets
  | r :: assets' =>
      let* a := load r in
      let* self := get_self in
      if negb (truthy_str (Asset.ad_id a)) then
        set_self
          (mk (max_retries self) (budget_changes self)
              (skipped_assets self
               ++ [mkSkipped (Asset.filename a) "Missing ad_id"
                     (Asset.file_id a) None])
              (unchanged_assets self));;
        filter_assets assets' valid_assets
      else
        match Asset.performance_score a with
        | None =>
            set_self
              (mk (max_retries self) (budget_changes self)
                  (skipped_assets self
                   ++ [mkSkipped (Asset.filename a)
                         "Missing performance metrics" (Asset.file_id a)
                         (Some (Asset.ad_id a))])
                  (unchanged_assets self));;
            filter_assets assets' valid_assets
        | Some _ => filter_assets assets' (valid_assets ++ [r])
        end
  end.

(** [for asset in performers: if self.update_asset_budget(...): count += 1] *)
Fixpoint update_each (performers : list ref) (factor : Q)
    (reason : string) (count : nat) : M St (Outcome nat) :=
  match performers with
  | [] => ret (Returned count)
  | r :: performers' =>
      let? ok := update_asset_budget r factor reason in
      update_each performers' factor reason
        (if ok then S count else count)
  end.

(** [self.unchanged_assets.append({...})] *)
Definition record_unchanged (r : ref) (reason : string) : M St unit :=
  let* a := load r in
  let* self := get_self in
  set_self
    (mk (max_retries self) (budget_changes self) (skipped_assets self)
        (unchanged_assets self
         ++ [mkUnchanged (Asset.filename a) reason (Asset.file_id a)
               (Asset.ad_id a) (Asset.budget a)
               (Asset.performance_score a)])).

Fixpoint record_middle (middle : list ref) : M St unit :=
  match middle with
  | [] => ret tt
  | r :: middle' =>
      record_unchanged r "Average performer - budget unchanged";;
      record_middle middle'
  end.

Definition Counts : Type := (nat * nat * nat)%type.

(** An ad with a single asset: absolute thresholds. *)
Definition process_single (r : ref) (counts : Counts)
    : M St (Outcome Counts) :=
  let '(total_increased, total_decreased, total_unchanged) := counts in
  let high_performance_threshold := (7 # 10)%Q in
  let low_performance_threshold := (3 # 10)%Q in
  let* a := load r in
  match Asset.performance_score a with
  | None => ret (Returned counts)  (* no such case: the score is never None *)
  | Some score =>
      if Qlt_le_dec high_performance_threshold score then
        let? ok :=
          update_asset_budget r (Float64.literal (12 # 10))
            "Single high-performing asset - budget increased by 20%" in
        ret (Returned
               (if ok
                then (S total_increased, total_decreased, total_unchanged)
                else counts))
      else if Qlt_le_dec score low_performance_threshold then
        let? ok :=
          update_asset_budget r (Float64.literal (8 # 10))
            "Single low-performing asset - budget decreased by 20%" in
        ret (Returned
               (if ok
                then (total_increased, S total_decreased, total_unchanged)
                else counts))
      else
        record_unchanged r
          "Single asset with average performance - budget unchanged";;
        ret (Returned (total_increased, total_decreased, S total_unchanged))
  end.

(** An ad with several assets: relative ranking. *)
Definition process_multi (ad_assets_list : list ref) (counts : Counts)
    : M St (Outcome Counts) :=
  let '(total_increased, total_decreased, total_unchanged) := counts in
  fun st =>
    let h := heap (fst st) in
    let '(top_performers, low_performers) :=
      identify_performance_outliers h ad_assets_list in
    let middle_performers :=
      filter (fun r => negb (asset_in h r top_performers)
                       && negb (asset_in h r low_performers))
             ad_assets_list in
    (let? total_increased :=
       update_each top_performers (Float64.literal (12 # 10))
         "Top performer - budget increased by 20%" total_increased in
     let? total_decreased :=
       update_each low_performers (Float64.literal (8 # 10))
         "Low performer - budget decreased by 20%" total_decreased in
     record_middle middle_performers;;
     ret (Returned
            (total_increased, total_decreased,
             (total_unchanged + length middle_performers)%nat))) st.

(** The loop over [ad_assets.items()]. *)
Fixpoint process_ads (ad_assets : list (string * list ref))
    (counts : Counts) : M St (Outcome Counts) :=
  match ad_assets with
  | [] => ret (Returned counts)
  | (ad_id, ad_assets_list) :: ad_assets' =>
      let? counts :=
        match ad_assets_list with
        | [asset] => process_single asset counts
        | _ => process_multi ad_assets_list counts
        end in
      process_ads ad_assets' counts
  end.

(** [BudgetManager.adjust_budgets_by_performance] *)
Definition adjust_budgets_by_performance (assets : list ref)
    : M St (Outcome Summary) :=
  let* self := get_self in
  set_self (mk (max_retries self) [] [] []);;
  let* valid_assets := filter_assets assets [] in
  let* ad_assets :=
    (fun st => (group_assets_by_ad (heap (fst st)) valid_assets, st)) in
  let? counts := process_ads ad_assets (0, 0, 0)%nat in
  let '(total_increased, total_decreased, total_unchanged) := counts in
  let* self := get_self in
  ret (Returned
         (mkSummary (length assets) (length valid_assets) (length ad_assets)
            total_increased total_decreased total_unchanged
            (budget_changes self) (skipped_assets self)
            (unchanged_assets self))).

End Services.

End BudgetManager.

(** ** src/models/hierarchy_settings.py *)

Module HierarchySettings.

Record HierarchyLevel := mkLevel {
  field : string;
  position : Z
}.

(** [HierarchyLevel.__lt__] *)
Definition lt (a b : HierarchyLevel) : bool := Z.ltb (position a) (position b).

(** [sorted(levels)]: stable, ascending, comparing with [__lt__] only. *)
Fixpoint insert_level (x : HierarchyLevel) (l : list HierarchyLevel)
    : list HierarchyLevel :=
  match l with
  | [] => [x]
  | y :: l' => if lt y x then y :: insert_level x l' else x :: l
  end.

(** [HierarchySettings.get_sorted_levels] *)
Definition get_sorted_levels (levels : list HierarchyLevel)
    : list HierarchyLevel :=
  foldr insert_level [] levels.

End HierarchySettings.

(** ** src/utils/asset_parser.py, folder placement *)

Module AssetPaths.

Import HierarchySettings.

(** [str(n)] for an integer. *)
Definition str_of_int (n : Z) : string := DecimalString.NilZero.string_of_int (Z.to_int n).

(** [AssetParser.extract_country] *)
Definition extract_country (country_language : string) : string :=
  let l := Text.of_string country_language in
  if Text.contains "-" l
  then Text.to_string (nth 0 (Text.split "-" l) [])
  else country_language.

(** The [field_mapping] dictionary of [get_field_value]. *)
Definition field_mapping : gmap string (Asset.t -> string) :=
  <["country" := Asset.country]>
  (<["language" := Asset.language]>
  (<["buyout_code" := Asset.buyout_code]>
  (<["concept" := Asset.concept]>
  (<["audience" := Asset.audience]>
  (<["transaction_side" := Asset.transaction_side]>
  (<["asset_format" := Asset.asset_format]>
  (<["duration" := Asset.duration]>
  (<["year" := fun a => match Asset.production_date a with
                       | Some d => str_of_int (dt_year d)
                       | None => ""
                       end]>
  (<["month" := fun a => match Asset.production_date a with
                        | Some d => str_of_int (dt_month d)
                        | None => ""
                        end]> ∅))))))))).

(** [AssetParser.get_field_value] *)
Definition get_field_value (asset : Asset.t) (field_name : string) : string :=
  match field_mapping !! field_name with
  | Some accessor =>
      let value := accessor asset in
      if String.eqb value "" then "Unset" else value
  | None => "Unset"
  end.

(** [AssetParser.get_hierarchy_path] *)
Definition get_hierarchy_path (asset : Asset.t)
    (hierarchy_settings : list HierarchyLevel) : list string :=
  foldl (fun path level => path ++ [get_field_value asset (field level)])
    [] (get_sorted_levels hierarchy_settings).

End AssetPaths.

(** ** src/services/asset_validator.py, the report *)

Module ValidationReport.

Record t := mk {
  total_assets : nat;
  valid_assets : nat;
  invalid_assets : nat;
  errors : nat;
  invalid_details : list (string * list AssetValidator.Reason);
  error_details : list string
}.

(** [AssetValidator.get_validation_report] *)
Definition get_validation_report (self : AssetValidator.t) : t :=
  mk (length (AssetValidator.valid self)
      + length (AssetValidator.invalid self))%nat
     (length (AssetValidator.valid self))
     (length (AssetValidator.invalid self))
     (length (AssetValidator.errors self))
     (AssetValidator.invalid self)
     (AssetValidator.errors self).

End ValidationReport.

(** ** src/services/google_sheets.py, the tables read from a sheet

    A sheet is a list of rows of text cells; fetching it is outside the
    model, the functions below are what the service makes of the rows. *)

Module GoogleSheets.

Definition sheet := list (list string).

(** [not data or len(data) < 2] *)
Definition too_short (data : sheet) : bool := (length data <? 2)%nat.

(** The loop of [get_buyout_data] over the rows after the header. *)
Definition add_buyout_row (result : gmap string string) (row : list string)
    : gmap string string :=
  match row with
  | buyout_code :: expiration_date :: _ =>
      <[buyout_code := expiration_date]> result
  | _ => result
  end.

(** [GoogleSheetsService.get_buyout_data], given the sheet. *)
Definition get_buyout_data (buyout_data : sheet) : gmap string string :=
  if too_short buyout_data then ∅
  else foldl add_buyout_row ∅ (drop 1 buyout_data).

(** [row.extend([""] * (len(headers) - len(row)))] when the row is short. *)
Definition pad_row (headers row : list string) : list string :=
  if (length row <? length headers)%nat
  then row ++ replicate (length headers - length row) ""
  else row.

(** [{headers[j]: row[j] for j in range(len(headers))}]: later columns
    overwrite earlier ones of the same name. *)
Definition row_dict (headers row : list string) : gmap string string :=
  foldl (fun d '(header, cell) => <[header := cell]> d) ∅
    (zip headers (pad_row headers row)).

(** [GoogleSheetsService.get_asset_data] and [get_ads_data], given the
    sheet. *)
Definition get_asset_data (asset_data : sheet) : list (gmap string string) :=
  if too_short asset_data then []
  else
    match asset_data with
    | headers :: rows => (fun row => row_dict headers row) <$> rows
    | [] => []
    end.

Definition get_ads_data (ads_data : sheet) : list (gmap string string) :=
  get_asset_data ads_data.

(** [s.startswith(p)] *)
Fixpoint starts_with (p s : list ascii) : bool :=
  match p, s with
  | [], _ => true
  | c :: p', d :: s' => Ascii.eqb c d && starts_with p' s'
  | _ :: _, [] => false
  end.

(** [p in s] for two texts. *)
Fixpoint occurs_in (p s : list ascii) : bool :=
  starts_with p s
  || match s with
     | [] => false
     | _ :: s' => occurs_in p s'
     end.

(** [asset.get("asset_name") == filename] *)
Definition is_exact_match (filename : string) (asset : gmap string string)
    : bool :=
  match asset !! "asset_name" with
  | Some asset_name => String.eqb asset_name filename
  | None => false
  end.

(** [country_lang in asset_name and concept in asset_name
     and audience in asset_name] *)
Definition is_partial_match (country_lang concept audience : list ascii)
    (asset : gmap string string) : bool :=
  let asset_name := Text.of_string (default "" (asset !! "asset_name")) in
  occurs_in country_lang asset_name
  && occurs_in concept asset_name
  && occurs_in audience asset_name.

(** [GoogleSheetsService.find_matching_asset_in_sheets], given the rows of
    [get_asset_data]; each loop returns the first row that passes. *)
Definition find_matching_asset_in_sheets
    (all_assets : list (gmap string string)) (filename : string)
    : gmap string string :=
  match List.find (is_exact_match filename) all_assets with
  | Some asset => asset
  | None =>
      let parts := Text.split "|" (Text.of_string filename) in
      if (3 <=? length parts)%nat then
        let country_lang := Text.strip (nth 0 parts []) in
        let concept := Text.strip (nth 2 parts []) in
        let audience :=
          if (3 <? length parts)%nat then Text.strip (nth 3 parts [])
          else [] in
        match List.find (is_partial_match country_lang concept audience)
                all_assets with
        | Some asset => asset
        | None => ∅
        end
      else ∅
  end.

End GoogleSheets.

(** * Vocabulary of the statements *)

(** An answer of the ads endpoint that counts as a failure. *)
Definition ads_failed (resp : AdsResponse) : Prop :=
  match resp with
  | AdsReply payload => has_error payload = true
  | AdsRaises => True
  end.

(** An answer that counts as a success. *)
Definition ads_succeeded (resp : AdsResponse) : Prop :=
  match resp with
  | AdsReply payload => has_error payload = false
  | AdsRaises => False
  end.

(** The answer to the [k]-th call counted from world [w], for a budget push
    of asset [r]. *)
Definition answer (env : Env) (r : ref) (new_budget : Z) (w : World)
    (k : nat) : AdsResponse :=
  ads_api env (ads_calls w + k) (Asset.ad_id (heap w r))
    (Asset.file_id (heap w r)) new_budget.

(** The heap after a successful update of [r]. *)
Definition updated_heap (env : Env) (r : ref) (new_budget : Z)
    (reason : string) (w : World) : ref -> Asset.t :=
  fun r' =>
    if Nat.eqb r' r
    then Asset.update_budget new_budget reason (clock env (clock_reads w))
           (heap w r)
    else heap w r'.

(** The change record of a successful update of [r]. *)
Definition change_record (env : Env) (r : ref) (new_budget : Z) (factor : Q)
    (reason : string) (w : World) : BudgetManager.Change :=
  BudgetManager.mkChange (Asset.filename (heap w r))
    (Asset.ad_id (heap w r)) (Some (Asset.budget (heap w r))) new_budget
    factor reason (clock env (S (clock_reads w))).

(** One more clock reading, everything else untouched. *)
Definition tick (w : World) : World :=
  mkWorld (heap w) (ads_calls w) (S (clock_reads w)) (analyzer_calls w).

(** The world after [asset.field = value] on reference [r]. *)
Definition poke (r : ref) (f : Asset.t -> Asset.t) (w : World) : World :=
  mkWorld (fun r' => if Nat.eqb r' r then f (heap w r) else heap w r')
    (ads_calls w) (clock_reads w) (analyzer_calls w).

(** Number of change records accumulated by the manager. *)
Definition n_changes (st : BudgetManager.St) : nat :=
  length (BudgetManager.budget_changes (snd st)).

(** Increase and decrease counters of the adjustment loop. *)
Definition n_adjusted (counts : nat * nat * nat) : nat :=
  let '(increased, decreased, _) := counts in (increased + decreased)%nat.

(** Number of pipe characters in a text. *)
Fixpoint pipes (s : list ascii) : nat :=
  match s with
  | [] => 0
  | c :: s' => ((if Text.is_pipe c then 1 else 0) + pipes s')%nat
  end.

(** All characters of a text are in a class. *)
Definition all_in (p : ascii -> bool) (s : list ascii) : Prop :=
  forallb p s = true.

(** Segments joined by a separator character. *)
Fixpoint join (sep : ascii) (segments : list (list ascii)) : list ascii :=
  match segments with
  | [] => []
  | [t] => t
  | t :: rest => t ++ sep :: join sep rest
  end.

(** A character allowed in a free text field of a filename: no pipe, no
    slash, no line feed. *)
Definition plain_char (c : ascii) : bool :=
  negb (Text.is_pipe c) && negb (Text.is_char "/" c) && Text.is_dot c.

(** A free text field: non-empty, made of plain characters. *)
Definition plain_field (seg : list ascii) : Prop :=
  seg <> [] /\ all_in plain_char seg.

(** The field names [get_field_value] knows. *)
Definition known_fields : list string :=
  ["country"; "language"; "buyout_code"; "concept"; "audience";
   "transaction_side"; "asset_format"; "duration"; "year"; "month"].

(** Levels in ascending order of position. *)
Definition ascending (levels : list HierarchySettings.HierarchyLevel) : Prop :=
  StronglySorted
    (fun a b => HierarchySettings.position a <= HierarchySettings.position b)
    levels.

(** The levels placed at position [p], in list order. *)
Definition at_position (p : Z)
    (levels : list HierarchySettings.HierarchyLevel)
    : list HierarchySettings.HierarchyLevel :=
  List.filter (fun lv => Z.eqb (HierarchySettings.position lv) p) levels.

(** What validation and budget updates never change about an asset: its
    name, parsed attributes, identifiers and metrics. *)
Definition descriptive (a : Asset.t) :=
  (Asset.filename a, Asset.country a, Asset.language a, Asset.buyout_code a,
   Asset.concept a, Asset.audience a, Asset.transaction_side a,
   Asset.asset_format a, Asset.duration a, Asset.file_format a,
   Asset.file_id a, Asset.mime_type a, Asset.size_bytes a,
   Asset.production_date a, Asset.year a, Asset.month a, Asset.ad_id a,
   Asset.clicks a, Asset.impressions a, Asset.conversions a).

(** The validator after reporting on asset [a]. *)
Definition reported (a : Asset.t) (v : AssetValidator.t) : AssetValidator.t :=
  if Asset.is_valid a then
    AssetValidator.mk (AssetValidator.valid v ++ [Asset.filename a])
      (AssetValidator.invalid v) (AssetValidator.errors v)
  else
    AssetValidator.mk (AssetValidator.valid v)
      (AssetValidator.invalid v
       ++ [(Asset.filename a,
            AssetValidator.get_validation_failure_reasons a)])
      (AssetValidator.errors v).

(** An analyzer answer after which [validate_image_quality] tries again
    (when attempts are left): nothing usable, or a transient error. *)
Definition retryable (res : AnalyzerResult) : Prop :=
  match res with
  | AnalyzerEmpty | AnalyzerText None | AnalyzerOpenAiError => True
  | _ => False
  end.

(** A small world for the examples. *)
Definition example_asset : Asset.t :=
  Asset.set_budget 100
    (Asset.set_metrics (Some 50) (Some 1000) (Some 1)
       (Asset.set_ids (Some "ad123") (Some "file123")
          (Asset.make "US-EN | BUY123 | Summer | Youth | Seller | Image | 30s | jpg"
             "US" "EN" "BUY123" "Summer" "Youth" "Seller" "Image" "30s"
             "jpg"))).

Definition example_env (ads : AdsResponse) (analysis : AnalyzerResult)
    : Env :=
  mkEnv (fun _ _ _ _ => ads) (fun _ => mkDatetime 2026 11 4 9 30 0 0)
    (fun _ _ => analysis) (fun _ => true) (fun _ => Some []).

Definition example_world : World := mkWorld (fun _ => example_asset) 0 0 0.

(** Attempt [k] of a budget push is the first that succeeds. *)
Definition first_success (env : Env) (r : ref) (new_budget : Z) (w : World)
    (k : nat) : Prop :=
  (forall j, (j < k)%nat -> ads_failed (answer env r new_budget w j))
  /\ ads_succeeded (answer env r new_budget w k).

(** Asset [r] carries the non-empty ad id [key]. *)
Definition has_ad (h : ref -> Asset.t) (key : string) (r : ref) : bool :=
  match Asset.ad_id (h r) with
  | Some k => String.eqb k key && negb (String.eqb key "")
  | None => false
  end.

(** The assets of an ad, in the order of the input list. *)
Definition members_of (h : ref -> Asset.t) (key : string)
    (assets : list ref) : list ref :=
  List.filter (has_ad h key) assets.

(** [ad_assets.get(key)] on the insertion ordered dict. *)
Fixpoint find_group (key : string) (groups : list (string * list ref))
    : option (list ref) :=
  match groups with
  | [] => None
  | (k, members) :: groups' =>
      if String.eqb k key then Some members else find_group key groups'
  end.

(** [Some l] for a non-empty list. *)
Definition nonempty {A} (l : list A) : option (list A) :=
  match l with
  | [] => None
  | _ :: _ => Some l
  end.

(** Scored assets ranked from the highest score down. *)
Definition ranked (l : list (ref * Q)) : Prop :=
  StronglySorted (fun x y => (snd y <= snd x)%Q) l.

(** Both identifiers needed for a budget update are set and non-empty. *)
Definition ids_present (a : Asset.t) : Prop :=
  truthy_str (Asset.ad_id a) = true /\ truthy_str (Asset.file_id a) = true.

(** The budget [update_asset_budget] computes for asset [r], when the
    computation does not overflow. *)
Definition scaled_budget (factor : Q) (w : World) (r : ref) : option Z :=
  Float64.scale (Asset.budget (heap w r)) factor.

(** The state after an update of [r] to [new_budget] whose attempt [k] is
    the first to succeed. *)
Definition updated (env : Env) (r : ref) (new_budget : Z) (factor : Q)
    (reason : string) (k : nat) (st : BudgetManager.St)
    : BudgetManager.St :=
  let w := fst st in
  let self := snd st in
  (mkWorld (updated_heap env r new_budget reason w) (ads_calls w + S k)
     (S (S (clock_reads w))) (analyzer_calls w),
   BudgetManager.mk (BudgetManager.max_retries self)
     (BudgetManager.budget_changes self
      ++ [change_record env r new_budget factor reason w])
     (BudgetManager.skipped_assets self)
     (BudgetManager.unchanged_assets self)).

(** The state after an update that failed after [calls] calls in all. *)
Definition called (calls : nat) (st : BudgetManager.St) : BudgetManager.St :=
  (mkWorld (heap (fst st)) calls (clock_reads (fst st))
     (analyzer_calls (fst st)), snd st).

(** The two factors the adjustment applies: the floats 1.2 and 0.8. *)
Definition adjustment_factor (factor : Q) : Prop :=
  factor = Float64.literal (12 # 10) \/ factor = Float64.literal (8 # 10).

(** The manager after one more entry in its list of unchanged assets. *)
Definition with_unchanged (u : BudgetManager.Unchanged)
    (st : BudgetManager.St) : BudgetManager.St :=
  (fst st,
   BudgetManager.mk (BudgetManager.max_retries (snd st))
     (BudgetManager.budget_changes (snd st))
     (BudgetManager.skipped_assets (snd st))
     (BudgetManager.unchanged_assets (snd st) ++ [u])).

(** The manager after one more entry in its list of skipped assets. *)
Definition with_skipped (s : BudgetManager.Skipped)
    (st : BudgetManager.St) : BudgetManager.St :=
  (fst st,
   BudgetManager.mk (BudgetManager.max_retries (snd st))
     (BudgetManager.budget_changes (snd st))
     (BudgetManager.skipped_assets (snd st) ++ [s])
     (BudgetManager.unchanged_assets (snd st))).

(** The manager with its three lists emptied, as at the start of a run. *)
Definition cleared (st : BudgetManager.St) : BudgetManager.St :=
  (fst st, BudgetManager.mk (BudgetManager.max_retries (snd st)) [] [] []).

(** The validation results stored on an asset. *)
Definition validation (a : Asset.t) :=
  (Asset.is_valid_name a, Asset.is_buyout_valid a, Asset.quality_score a,
   Asset.is_privacy_compliant a).


(** Number of entries in the manager's list of unchanged assets. *)
Definition n_unchanged (st : BudgetManager.St) : nat :=
  length (BudgetManager.unchanged_assets (snd st)).

(** The unchanged counter of the adjustment loop. *)
Definition n_kept (counts : nat * nat * nat) : nat :=
  let '(_, _, unchanged) := counts in unchanged.

(** The assets [adjust_budgets_by_performance] works on: those with a
    non-empty ad id. *)
Definition with_ad (h : ref -> Asset.t) (assets : list ref) : list ref :=
  List.filter (fun r => truthy_str (Asset.ad_id (h r))) assets.

(** The three counters of the adjustment loop together. *)
Definition n_counted (counts : nat * nat * nat) : nat :=
  let '(increased, decreased, unchanged) := counts in
  (increased + decreased + unchanged)%nat.

(** Number of assets in all the groups. *)
Definition group_sizes (groups : list (string * list ref)) : nat :=
  sum_list_with (fun g => length (snd g)) groups.

(** The expiry a row of the buyout sheet gives for [code]: the row needs
    two cells at least, the first being the code. *)
Definition buyout_entry (code : string) (row : list string)
    : option string :=
  match row with
  | c :: d :: _ => if String.eqb c code then Some d else None
  | _ => None
  end.

(** Column [j] is the last one headed [key]. *)
Definition last_column (headers : list string) (key : string) (j : nat)
    : Prop :=
  headers !! j = Some key
  /\ forall j', (j < j')%nat -> headers !! j' <> Some key.

(** One step of the dictionary comprehension of a sheet row. *)
Definition put (d : gmap string string) (p : string * string)
    : gmap string string :=
  let '(header, cell) := p in <[header := cell]> d.

(** The keys of the dictionary [parse_filename] returns. *)
Definition parsed_keys : list string :=
  ["country_language"; "buyout_code"; "concept"; "audience";
   "transaction_side"; "asset_format"; "duration"; "file_format";
   "original_filename"].

(** A two letter code in upper case. *)
Definition upper_code (s : list ascii) : Prop :=
  exists c1 c2,
    s = [c1; c2] /\ Text.is_upper c1 = true /\ Text.is_upper c2 = true.


Definition below (k : Z) (x : Q) : Prop :=
  Z.abs (Qnum x) < 2 ^ k * Zpos (Qden x).


(** Text [p] occurs somewhere in text [s]. *)
Definition contains_text (p s : list ascii) : Prop :=
  exists a b, s = a ++ p ++ b.

(** The name a sheet row gives its asset, empty when it has none. *)
Definition name_of (asset : gmap string string) : list ascii :=
  Text.of_string (default "" (asset !! "asset_name")).

(** Segment [i] of a filename cut at its pipes, trimmed; empty when the
    filename has no such segment. *)
Definition part (i : nat) (filename : string) : list ascii :=
  Text.strip (nth i (Text.split "|" (Text.of_string filename)) []).

(** The row is named exactly as the file. *)
Definition named (filename : string) (asset : gmap string string) : Prop :=
  asset !! "asset_name" = Some filename.

(** The row's name contains the first, third and fourth segment of the
    filename. *)
Definition resembles (filename : string) (asset : gmap string string)
    : Prop :=
  contains_text (part 0 filename) (name_of asset)
  /\ contains_text (part 2 filename) (name_of asset)
  /\ contains_text (part 3 filename) (name_of asset).

(** * Verified properties *)

(** ** The asset record *)

Section AssetFacts.
Import Asset.

Lemma score_above_5_spec (q : option Q) :
  score_above_5 q = true <-> exists x, q = Some x /\ (5 < x)%Q.
Proof.
  unfold score_above_5. destruct q as [x|].
  - destruct (Qlt_le_dec 5 x) as [Hlt|Hle]; split.
    + intros _. exists x. auto.
    + auto.
    + discriminate.
    + intros (y & Hy & Hlt). injection Hy as ->.
      exfalso. apply (Qlt_not_le _ _ Hlt Hle).
  - split; [discriminate|]. intros (y & Hy & _). discriminate.
Qed.

Lemma privacy_flag_spec (p : option bool) :
  match p with Some b => b | None => false end = true <-> p = Some true.
Proof.
  destruct p as [[]|]; split; intros H; try reflexivity; discriminate.
Qed.





End AssetFacts.

(** C1. [is_valid] holds exactly when the name is valid, the buyout is valid
    or the quality score is known and strictly above 5, and privacy
    compliance is known and true.  With an invalid buyout a score of exactly
    5 gives an invalid asset, and a score of 5.0001 satisfies the quality
    disjunct, so that validity is then decided by the name and the privacy
    flag alone. *)
Theorem C1_is_valid_iff (a : Asset.t) :
  (Asset.is_valid a = true <->
     Asset.is_valid_name a = true
     /\ (Asset.is_buyout_valid a = true
         \/ exists q, Asset.quality_score a = Some q /\ (5 < q)%Q)
     /\ Asset.is_privacy_compliant a = Some true)
  /\ Asset.is_valid
       (Asset.set_quality_score (Some 5%Q)
          (Asset.set_is_buyout_valid false a)) = false
  /\ Asset.is_valid
       (Asset.set_quality_score (Some (50001 # 10000)%Q)
          (Asset.set_is_buyout_valid false a))
     = Asset.is_valid_name a
       && match Asset.is_privacy_compliant a with
          | Some b => b
          | None => false
          end.
Proof.
  split; [|split].
  - unfold Asset.is_valid.
    rewrite !andb_true_iff, orb_true_iff, score_above_5_spec,
      privacy_flag_spec.
    tauto.
  - unfold Asset.is_valid; simpl. rewrite andb_false_r. reflexivity.
  - unfold Asset.is_valid; simpl. rewrite andb_true_r. reflexivity.
Qed.



(** ** Text primitives *)

Section TextFacts.
Import Text.

Lemma of_to_string (l : list ascii) : of_string (to_string l) = l.
Proof. apply list_ascii_of_string_of_list_ascii. Qed.

Lemma contains_app (sep : ascii) (x y : list ascii) :
  contains sep (x ++ y) = contains sep x || contains sep y.
Proof. unfold contains. apply existsb_app. Qed.

Lemma is_char_refl (c : ascii) : is_char c c = true.
Proof. unfold is_char. apply Ascii.eqb_refl. Qed.

Lemma contains_at (sep : ascii) (x rest : list ascii) :
  contains sep (x ++ sep :: rest) = true.
Proof.
  rewrite contains_app.
  replace (contains sep (sep :: rest)) with true; [apply orb_true_r|].
  unfold contains. cbn [existsb]. rewrite is_char_refl. reflexivity.
Qed.

(** Without the separator there is one piece. *)
Lemma split_without (sep : ascii) (s : list ascii) :
  contains sep s = false -> split sep s = [s].
Proof.
  induction s as [|c s IH]; simpl; [reflexivity|].
  unfold contains; simpl. intros H. apply orb_false_iff in H as [Hc Hs].
  rewrite Hc, (IH Hs). reflexivity.
Qed.

(** The first piece ends at the first separator. *)
Lemma split_at_first (sep : ascii) (x rest : list ascii) :
  contains sep x = false ->
  split sep (x ++ sep :: rest) = x :: split sep rest.
Proof.
  induction x as [|c x IH]; simpl; intros H.
  - rewrite is_char_refl. reflexivity.
  - unfold contains in H; simpl in H.
    apply orb_false_iff in H as [Hc Hx].
    rewrite Hc, (IH Hx). reflexivity.
Qed.
End TextFacts.

(** ** Construction of an asset from parsed data *)

(** C7 as stated fails: with a second hyphen the language is only the text
    between the first and the second hyphen, not all the text after the
    first. *)
Lemma C7_second_hyphen_counterexample :
  let a := AssetParser.create_asset_from_parsed_data "f"
             {[ "country_language" := "zh-Hans-CN" ]} in
  Asset.country a = "zh" /\ Asset.language a = "Hans"
  /\ Asset.language a <> "Hans-CN".
Proof. vm_compute. repeat split. discriminate. Qed.

(** C7, amended.  The country is the text before the first hyphen of
    [country_language] and the language is the text between the first
    hyphen and the second one (all the text after the first hyphen when
    there is no second); without a hyphen, and when the key is missing,
    both are empty. *)
Theorem C7_country_language_split (filename : string)
    (parsed_data : gmap string string) :
  let cl := Text.of_string (AssetParser.get parsed_data "country_language") in
  let a := AssetParser.create_asset_from_parsed_data filename parsed_data in
  (Text.contains "-" cl = false ->
     Asset.country a = "" /\ Asset.language a = "")
  /\ (forall x y tail,
        Text.contains "-" x = false -> Text.contains "-" y = false ->
        tail = [] \/ (exists z, tail = "-"%char :: z) ->
        cl = x ++ "-"%char :: y ++ tail ->
        Asset.country a = Text.to_string x
        /\ Asset.language a = Text.to_string y).
Proof.
  intros cl a. subst a. unfold AssetParser.create_asset_from_parsed_data.
  simpl. unfold AssetParser.hyphen_part. fold cl. split.
  - intros ->. auto.
  - intros x y tail Hx Hy Ht ->.
    rewrite contains_at, (split_at_first _ _ _ Hx). simpl.
    split; [reflexivity|].
    f_equal. destruct Ht as [->|(z & ->)].
    + rewrite app_nil_r, (split_without _ _ Hy). reflexivity.
    + rewrite (split_at_first _ _ _ Hy). reflexivity.
Qed.

Lemma C7_country_language_split_witness :
  Asset.country
    (AssetParser.create_asset_from_parsed_data "f"
       {[ "country_language" := "US-EN" ]}) = "US"
  /\ Asset.language
       (AssetParser.create_asset_from_parsed_data "f"
          {[ "country_language" := "US-EN" ]}) = "EN".
Proof.
  apply (proj2 (C7_country_language_split "f"
                  {[ "country_language" := "US-EN" ]})
           (Text.of_string "US") (Text.of_string "EN") []).
  - reflexivity.
  - reflexivity.
  - left. reflexivity.
  - reflexivity.
Defined.

(** ** Running the primitive operations *)

Lemma load_run {Self : Type} (r : ref) (w : World) (s : Self) :
  load r (w, s) = (heap w r, (w, s)).
Proof. reflexivity. Qed.

Lemma assign_run {Self : Type} (r : ref) (f : Asset.t -> Asset.t)
    (w : World) (s : Self) :
  assign r f (w, s) = (tt, (poke r f w, s)).
Proof. reflexivity. Qed.

Lemma poke_same (r : ref) (f : Asset.t -> Asset.t) (w : World) :
  heap (poke r f w) r = f (heap w r).
Proof. unfold poke. simpl. rewrite Nat.eqb_refl. reflexivity. Qed.

(** ** Budget updates *)

Section UpdateLoop.
Variable env : Env.
Variables (r : ref) (new_budget : Z) (factor : Q) (reason : string).

Local Abbreviation ans := (answer env r new_budget).
Local Abbreviation heap_after := (updated_heap env r new_budget reason).
Local Abbreviation record_of :=
  (change_record env r new_budget factor reason).


Lemma answer_shift (w : World) (n k : nat) :
  ans (mkWorld (heap w) (S (ads_calls w)) (clock_reads w) n) k
  = ans w (S k).
Proof. unfold answer. simpl. f_equal. lia. Qed.

(** When every remaining attempt fails the loop returns [False] and
    touches neither the heap, the clock nor the manager. *)
Lemma update_loop_all_fail (self : BudgetManager.t) :
  forall remaining attempt w,
    (forall k, (k < remaining)%nat -> ads_failed (ans w k)) ->
    exists calls,
      BudgetManager.update_loop env remaining attempt r new_budget factor
        reason (w, self)
      = (false, (mkWorld (heap w) calls (clock_reads w) (analyzer_calls w),
                 self)).
Proof.
  induction remaining as [|n IH]; intros attempt w Hfail.
  - exists (ads_calls w). destruct w. reflexivity.
  - assert (H0 : ads_failed (ans w 0)) by (apply Hfail; lia).
    unfold answer in H0. rewrite Nat.add_0_r in H0.
    set (w1 := mkWorld (heap w) (S (ads_calls w)) (clock_reads w)
                 (analyzer_calls w)).
    destruct (IH (S attempt) w1) as [calls Hcalls].
    { intros k Hk. unfold w1. rewrite answer_shift. apply Hfail. lia. }
    cbn [BudgetManager.update_loop]. unfold bind at 1. cbn [load].
    unfold bind at 1. cbn [call_ads]. unfold bind at 1. cbn [get_self].
    fold w1.
    destruct (ads_api env (ads_calls w) (Asset.ad_id (heap w r))
                (Asset.file_id (heap w r)) new_budget) as [payload|].
    + simpl in H0. rewrite H0.
      destruct (Nat.eqb attempt (BudgetManager.max_retries self - 1)).
      * exists (S (ads_calls w)). reflexivity.
      * exists calls. exact Hcalls.
    + destruct (Nat.eqb attempt (BudgetManager.max_retries self - 1)).
      * exists (S (ads_calls w)). reflexivity.
      * exists calls. exact Hcalls.
Qed.



(** When attempt [k] is the first to succeed, the loop returns [True],
    updates the asset once and appends one change record. *)
Lemma update_loop_first_success (self : BudgetManager.t) :
  forall k remaining attempt w,
    (k < remaining)%nat ->
    (attempt + remaining <= BudgetManager.max_retries self)%nat ->
    (forall j, (j < k)%nat -> ads_failed (ans w j)) ->
    ads_succeeded (ans w k) ->
    BudgetManager.update_loop env remaining attempt r new_budget factor
      reason (w, self)
    = (true,
       (mkWorld (heap_after w) (ads_calls w + S k)
          (S (S (clock_reads w))) (analyzer_calls w),
        BudgetManager.mk (BudgetManager.max_retries self)
          (BudgetManager.budget_changes self ++ [record_of w])
          (BudgetManager.skipped_assets self)
          (BudgetManager.unchanged_assets self))).
Proof.
  induction k as [|k IH]; intros remaining attempt w Hk Hmax Hfail Hok;
    (destruct remaining as [|n]; [lia|]).
  - unfold answer in Hok. rewrite Nat.add_0_r in Hok.
    cbn [BudgetManager.update_loop]. unfold bind at 1. cbn [load].
    unfold bind at 1. cbn [call_ads]. unfold bind at 1. cbn [get_self].
    destruct (ads_api env (ads_calls w) (Asset.ad_id (heap w r))
                (Asset.file_id (heap w r)) new_budget) as [payload|];
      [|contradiction].
    simpl in Hok. rewrite Hok.
    unfold bind, now, assign, load, store, get_self, set_self, ret.
    cbn. rewrite Nat.eqb_refl, Nat.add_1_r. reflexivity.
  - assert (H0 : ads_failed (ans w 0)) by (apply Hfail; lia).
    unfold answer in H0. rewrite Nat.add_0_r in H0.
    set (w1 := mkWorld (heap w) (S (ads_calls w)) (clock_reads w)
                 (analyzer_calls w)).
    assert (Hrec := IH n (S attempt) w1).
    unfold w1 in Hrec at 1 2. rewrite !answer_shift in Hrec.
    assert (Hstep : (attempt =? BudgetManager.max_retries self - 1)%nat
                    = false) by (apply Nat.eqb_neq; lia).
    cbn [BudgetManager.update_loop]. unfold bind at 1. cbn [load].
    unfold bind at 1. cbn [call_ads]. unfold bind at 1. cbn [get_self].
    fold w1. rewrite Hstep.
    replace (ads_calls w + S (S k))%nat with (ads_calls w1 + S k)%nat
      by (simpl; lia).
    destruct (ads_api env (ads_calls w) (Asset.ad_id (heap w r))
                (Asset.file_id (heap w r)) new_budget) as [payload|].
    + simpl in H0. rewrite H0. apply Hrec; try lia.
      * intros j Hj. rewrite answer_shift. apply Hfail. lia.
      * exact Hok.
    + apply Hrec; try lia.
      * intros j Hj. rewrite answer_shift. apply Hfail. lia.
      * exact Hok.
Qed.
End UpdateLoop.

(** ** Binary64 rounding *)

Section Rounding.
Import Float64.

Lemma Qred_inject_Z (b : Z) : Qred (inject_Z b) = inject_Z b.
Proof.
  unfold Qred, inject_Z.
  pose proof (Z.ggcd_gcd b 1) as Hg.
  pose proof (Z.ggcd_correct_divisors b 1) as Hd.
  destruct (Z.ggcd b 1) as [g [aa bb]]. cbn [fst snd] in *.
  rewrite Z.gcd_1_r in Hg. subst g. destruct Hd as [Ha Hb].
  rewrite Z.mul_1_l in Ha, Hb. subst aa bb. reflexivity.
Qed.

Lemma py_int_of_int (x : Q) (b : Z) : (x == inject_Z b)%Q -> py_int x = b.
Proof.
  destruct x as [n d]. unfold Qeq, py_int. cbn [Qnum Qden inject_Z].
  intros H. rewrite Z.mul_1_r in H. subst n.
  apply Z.quot_mul. discriminate.
Qed.

Lemma round_half_even_unit (n : Z) : round_half_even n 1 = n.
Proof.
  unfold round_half_even. rewrite Z.mod_1_r, Z.div_1_r. reflexivity.
Qed.

Lemma round_half_even_nonneg (n d : Z) :
  0 <= n -> 0 < d -> 0 <= round_half_even n d.
Proof.
  intros Hn Hd. unfold round_half_even.
  assert (0 <= n / d) by (apply Z.div_pos; assumption).
  destruct (2 * (n mod d) ?= d); [destruct (Z.even (n / d))|..]; lia.
Qed.

Lemma value_nonneg (m e : Z) : 0 <= m -> (0 <= value m e)%Q.
Proof.
  intros Hm. unfold value. destruct (0 <=? e) eqn:He.
  - apply Z.leb_le in He. unfold Qle. cbn [Qnum Qden inject_Z].
    assert (0 < 2 ^ e) by (apply Z.pow_pos_nonneg; lia). nia.
  - unfold Qle. cbn [Qnum Qden]. lia.
Qed.

(** A positive integer below [2^53] is its own nearest float. *)
Lemma nearest_int (a : Z) :
  0 < a < 2 ^ 53 ->
  exists m e,
    nearest a 1 = (m, e) /\ e <= 0 /\ m = a * 2 ^ (- e).
Proof.
  intros [Hpos Hlt].
  pose proof (Z.log2_spec a Hpos) as [Hlow Hhigh].
  pose proof (Z.log2_nonneg a) as Hnn.
  assert (Hlog : Z.log2 a < 53).
  { apply Z.log2_lt_pow2; [exact Hpos|exact Hlt]. }
  unfold nearest, floor_log2.
  change (Z.log2 1) with 0. rewrite Z.sub_0_r, Z.mul_1_l.
  replace (0 <=? Z.log2 a) with true by (symmetry; apply Z.leb_le; lia).
  replace (a <? 2 ^ Z.log2 a) with false by (symmetry; apply Z.ltb_ge; lia).
  rewrite Z.max_r by lia.
  set (e := Z.log2 a - 52).
  exists (a * 2 ^ (- e)), e.
  split; [|split; [unfold e; lia|reflexivity]].
  f_equal.
  destruct (0 <=? e) eqn:He.
  - apply Z.leb_le in He. assert (e = 0) as -> by (unfold e in *; lia).
    change (2 ^ (- 0)) with 1. change (2 ^ 0) with 1.
    rewrite Z.mul_1_l, Z.mul_1_r. apply round_half_even_unit.
  - apply round_half_even_unit.
Qed.

Lemma value_int (a e : Z) :
  e <= 0 -> (value (a * 2 ^ (- e)) e == inject_Z a)%Q.
Proof.
  intros He. unfold value. destruct (0 <=? e) eqn:E.
  - apply Z.leb_le in E. assert (e = 0) as -> by lia.
    change (2 ^ (- 0)) with 1. change (2 ^ 0) with 1.
    rewrite !Z.mul_1_r. reflexivity.
  - unfold Qeq. cbn [Qnum Qden inject_Z].
    assert (0 < 2 ^ (- e)) by (apply Z.pow_pos_nonneg; lia).
    rewrite Z2Pos.id by assumption. lia.
Qed.

(** Rounding leaves an integer of magnitude up to [2^53] as it is. *)
Lemma round_int (q : Q) (b : Z) :
  (q == inject_Z b)%Q -> Z.abs b <= 2 ^ 53 ->
  exists x, round q = Some x /\ (x == inject_Z b)%Q.
Proof.
  intros Hq Hb. unfold round.
  rewrite (Qred_complete _ _ Hq), Qred_inject_Z. cbn [Qnum Qden inject_Z].
  destruct (Z.eqb_spec b 0) as [->|Hne].
  { exists 0%Q. split; reflexivity. }
  destruct (Z.eq_dec (Z.abs b) (2 ^ 53)) as [Hmax|Hless].
  { assert (Hcases : b = 2 ^ 53 \/ b = - 2 ^ 53) by lia.
    destruct Hcases as [-> | ->]; vm_compute; eexists;
      (split; [reflexivity|reflexivity]). }
  destruct (nearest_int (Z.abs b)) as (m & e & Hnear & He & Hm); [lia|].
  rewrite Hnear.
  replace ((0 <=? e) && (2 ^ 1024 <=? m * 2 ^ e)) with false.
  2:{ symmetry. apply andb_false_iff.
      destruct (Z.eq_dec e 0) as [->|Hneg].
      - right. apply Z.leb_gt. subst m.
        change (2 ^ (- 0)) with 1. change (2 ^ 0) with 1.
        rewrite !Z.mul_1_r.
        apply Z.le_lt_trans with (2 ^ 53); [exact Hb|].
        apply Z.pow_lt_mono_r; lia.
      - left. apply Z.leb_gt. lia. }
  subst m. pose proof (value_int (Z.abs b) e He) as Hv.
  eexists. split; [reflexivity|].
  destruct (Z.ltb_spec b 0) as [Hlt|Hge].
  - rewrite Hv. unfold Qeq. cbn [Qnum Qden inject_Z Qopp]. lia.
  - rewrite Hv. unfold Qeq. cbn [Qnum Qden inject_Z]. lia.
Qed.

(** Scaling by 1.0 leaves a budget of magnitude up to [2^53] as it is. *)
Lemma scale_unit (b : Z) (factor : Q) :
  Z.abs b <= 2 ^ 53 -> (factor == 1)%Q -> scale b factor = Some b.
Proof.
  intros Hb Hone. unfold scale, of_int, mul.
  destruct (round_int (inject_Z b) b (Qeq_refl _) Hb) as (x & -> & Hx).
  assert (Hprod : (x * factor == inject_Z b)%Q).
  { rewrite Hx, Hone. apply Qmult_1_r. }
  destruct (round_int (x * factor) b Hprod Hb) as (y & -> & Hy).
  f_equal. apply py_int_of_int, Hy.
Qed.

Lemma Qred_num_sign (q : Q) : (0 <= q)%Q -> 0 <= Qnum (Qred q).
Proof.
  intros Hq. pose proof (Qred_correct q) as Hred.
  assert (H0 : (0 <= Qred q)%Q) by (rewrite Hred; exact Hq).
  unfold Qle in H0. cbn [Qnum Qden] in H0. lia.
Qed.

(** Rounding keeps the sign. *)
Lemma round_nonneg (q x : Q) :
  (0 <= q)%Q -> round q = Some x -> (0 <= x)%Q.
Proof.
  intros Hq. unfold round.
  pose proof (Qred_num_sign q Hq) as Hn.
  destruct (Z.eqb_spec (Qnum (Qred q)) 0) as [_|Hne].
  { intros H. injection H as <-. apply Qle_refl. }
  destruct (nearest _ _) as [m e] eqn:Hnear.
  destruct ((0 <=? e) && (2 ^ 1024 <=? m * 2 ^ e)); [discriminate|].
  replace (Qnum (Qred q) <? 0) with false by (symmetry; apply Z.ltb_ge; lia).
  intros H. injection H as <-. apply value_nonneg.
  unfold nearest in Hnear. injection Hnear as <- <-.
  rewrite Z.abs_eq by lia.
  set (e := Z.max (-1074) _).
  destruct (0 <=? e) eqn:He.
  - apply Z.leb_le in He. apply round_half_even_nonneg; [lia|].
    assert (0 < 2 ^ e) by (apply Z.pow_pos_nonneg; lia). nia.
  - apply Z.leb_gt in He. apply round_half_even_nonneg; [|reflexivity].
    assert (0 < 2 ^ (- e)) by (apply Z.pow_pos_nonneg; lia). nia.
Qed.

Lemma py_int_nonneg (x : Q) : (0 <= x)%Q -> 0 <= py_int x.
Proof.
  unfold Qle, py_int. cbn [Qnum Qden]. intros H.
  apply Z.quot_pos; lia.
Qed.

(** Scaling a non-negative budget by a non-negative factor gives a
    non-negative budget. *)
Lemma scale_nonneg (b n : Z) (factor : Q) :
  0 <= b -> (0 <= factor)%Q -> scale b factor = Some n -> 0 <= n.
Proof.
  intros Hb Hf. unfold scale, of_int, mul.
  destruct (round (inject_Z b)) as [x|] eqn:Hx; [|discriminate].
  destruct (round (x * factor)) as [y|] eqn:Hy; [|discriminate].
  intros H. injection H as <-.
  apply py_int_nonneg. apply (round_nonneg (x * factor) y); [|exact Hy].
  apply Qmult_le_0_compat; [|exact Hf].
  apply (round_nonneg (inject_Z b) x); [|exact Hx].
  unfold Qle. cbn [Qnum Qden inject_Z]. lia.
Qed.

Lemma literal_factors_nonneg (factor : Q) :
  adjustment_factor factor -> (0 <= factor)%Q.
Proof. intros [-> | ->]; vm_compute; discriminate. Qed.
End Rounding.
Lemma missing_ids_spec (a : Asset.t) :
  negb (truthy_str (Asset.ad_id a)) || negb (truthy_str (Asset.file_id a))
  = true
  <-> truthy_str (Asset.ad_id a) = false
      \/ truthy_str (Asset.file_id a) = false.
Proof. rewrite orb_true_iff, !negb_true_iff. reflexivity. Qed.

(** The three ways through [update_asset_budget]: no identifiers, an
    overflow of the scaled budget, the retry loop. *)
Lemma manager_update_unfold (env : Env) (r : ref) (factor : Q)
    (reason : string) (w : World) (self : BudgetManager.t) :
  BudgetManager.update_asset_budget env r factor reason (w, self)
  = if negb (truthy_str (Asset.ad_id (heap w r)))
       || negb (truthy_str (Asset.file_id (heap w r)))
    then (Returned false, (w, self))
    else
      match Float64.scale (Asset.budget (heap w r)) factor with
      | None => (Raised OverflowError, (w, self))
      | Some new_budget =>
          (Returned
             (fst (BudgetManager.update_loop env
                     (BudgetManager.max_retries self) 0 r new_budget factor
                     reason (w, self))),
           snd (BudgetManager.update_loop env
                  (BudgetManager.max_retries self) 0 r new_budget factor
                  reason (w, self)))
      end.
Proof.
  unfold BudgetManager.update_asset_budget, bind at 1. rewrite load_run.
  destruct (negb _ || negb _); [reflexivity|].
  destruct (Float64.scale _ factor) as [new_budget|]; [|reflexivity].
  unfold bind at 1. cbn [get_self]. unfold bind at 1.
  destruct (BudgetManager.update_loop env _ 0 r new_budget factor reason
              (w, self)) as [ok st']. reflexivity.
Qed.

(** C4. When the asset lacks [ad_id] or [file_id] (no external call is
    made then), or when every one of the [max_retries] attempts (3 by
    default) answers with an error or raises, [update_asset_budget] returns
    [False], leaves the asset's [budget], [previous_budget],
    [budget_updated_at] and [budget_update_reason] (indeed the whole heap)
    as they were, and appends no change record.  The attempts are made
    with the new budget [int(budget * factor)], computed before the first
    of them; a budget too large for a float makes that computation raise
    [OverflowError], and then there is no attempt at all. *)
Theorem C4_failed_update_changes_nothing (env : Env) (r : ref) (factor : Q)
    (reason : string) (w : World) (self : BudgetManager.t) :
  let a := heap w r in
  let missing :=
    truthy_str (Asset.ad_id a) = false
    \/ truthy_str (Asset.file_id a) = false in
  missing
  \/ (exists new_budget,
        Float64.scale (Asset.budget a) factor = Some new_budget
        /\ forall k, (k < BudgetManager.max_retries self)%nat ->
                     ads_failed (answer env r new_budget w k)) ->
  exists w',
    BudgetManager.update_asset_budget env r factor reason (w, self)
    = (Returned false, (w', self))
    /\ heap w' = heap w
    /\ Asset.budget (heap w' r) = Asset.budget a
    /\ Asset.previous_budget (heap w' r) = Asset.previous_budget a
    /\ Asset.budget_updated_at (heap w' r) = Asset.budget_updated_at a
    /\ Asset.budget_update_reason (heap w' r) = Asset.budget_update_reason a
    /\ (missing -> ads_calls w' = ads_calls w).
Proof.
  intros a missing H. rewrite manager_update_unfold. fold a.
  destruct (negb (truthy_str (Asset.ad_id a))
            || negb (truthy_str (Asset.file_id a))) eqn:Eids.
  - exists w. repeat split; reflexivity.
  - assert (Hpresent : ~ missing).
    { intros Hm. apply missing_ids_spec in Hm. fold a in Hm. congruence. }
    destruct H as [Hm|(new_budget & Hscale & Hfail)]; [contradiction|].
    rewrite Hscale.
    destruct (update_loop_all_fail env r new_budget factor reason self
                (BudgetManager.max_retries self) 0%nat w Hfail)
      as [calls ->].
    eexists. split; [reflexivity|]. cbn [heap].
    repeat split; try reflexivity. intros Hm. contradiction.
Qed.

Lemma C4_failed_update_changes_nothing_witness :
  let env := mkEnv (fun _ _ _ _ => AdsReply {[ "error" := "API Error" ]})
               (fun _ => mkDatetime 2025 1 1 0 0 0 0)
               (fun _ _ => AnalyzerEmpty) (fun _ => true)
               (fun _ => Some []) in
  let a := Asset.set_budget 100
             (Asset.set_ids (Some "ad123") (Some "file123")
                (Asset.make "f" "US" "EN" "BUY123" "c" "a" "t" "f" "d" "jpg")) in
  let w := mkWorld (fun _ => a) 0 0 0 in
  exists w',
    BudgetManager.update_asset_budget env 0%nat (Float64.literal (12 # 10))
      "Test increase" (w, BudgetManager.init)
    = (Returned false, (w', BudgetManager.init))
    /\ Asset.budget (heap w' 0%nat) = 100.
Proof.
  intros env a w.
  destruct (C4_failed_update_changes_nothing env 0%nat
              (Float64.literal (12 # 10)) "Test increase" w
              BudgetManager.init) as (w' & H1 & _ & H2 & _).
  - right. exists 120. split; [vm_compute; reflexivity|].
    intros k _. reflexivity.
  - exists w'. split; [exact H1 | exact H2].
Defined.

(** C9 as stated fails for a large budget: [int(budget * 1.0)] goes
    through a binary64 float, and [2^53 + 1] is not one.  The update
    succeeds, and the new budget is [2^53], not the previous budget. *)
Lemma C9_large_budget_counterexample :
  let env := mkEnv (fun _ _ _ _ => AdsReply {[ "status" := "SUCCESS" ]})
               (fun _ => mkDatetime 2025 1 1 0 0 0 0)
               (fun _ _ => AnalyzerEmpty) (fun _ => true)
               (fun _ => Some []) in
  let a := Asset.set_budget 9007199254740993
             (Asset.set_ids (Some "ad123") (Some "file123")
                (Asset.make "f" "US" "EN" "BUY123" "c" "a" "t" "f" "d" "jpg")) in
  let w := mkWorld (fun _ => a) 0 0 0 in
  let run :=
    BudgetManager.update_asset_budget env 0%nat 1 "No change"
      (w, BudgetManager.init) in
  fst run = Returned true
  /\ Asset.previous_budget (heap (fst (snd run)) 0%nat)
     = Some 9007199254740993
  /\ Asset.budget (heap (fst (snd run)) 0%nat) = 9007199254740992
  /\ Some (Asset.budget (heap (fst (snd run)) 0%nat))
     <> Asset.previous_budget (heap (fst (snd run)) 0%nat).
Proof.
  intros env a w run.
  assert (Hrun : run
    = (Returned true,
       snd (BudgetManager.update_loop env 3 0 0%nat 9007199254740992 1
              "No change" (w, BudgetManager.init)))).
  { unfold run. rewrite manager_update_unfold.
    change (negb (truthy_str (Asset.ad_id (heap w 0%nat)))
            || negb (truthy_str (Asset.file_id (heap w 0%nat))))
      with false. cbv iota.
    replace (Float64.scale (Asset.budget (heap w 0%nat)) 1)
      with (Some 9007199254740992) by (vm_compute; reflexivity).
    reflexivity. }
  rewrite Hrun. cbn [fst snd].
  rewrite (update_loop_first_success env 0%nat 9007199254740992 1
             "No change" BudgetManager.init 0 3 0 w);
    [|lia|simpl; lia|intros j Hj; lia|reflexivity].
  cbn [fst snd heap]. unfold updated_heap. rewrite Nat.eqb_refl.
  cbn [Asset.update_budget Asset.budget Asset.previous_budget].
  repeat split. discriminate.
Qed.

(** C9, amended.  With non-empty [ad_id] and [file_id] and a budget of
    magnitude at most [2^53], an update by factor 1.0 whose external call
    succeeds (at the first attempt or after failed ones, within
    [max_retries]) returns [True], leaves the budget equal to the previous
    budget, and appends one change record whose previous and new budget
    are both that value; a factor without effect is not treated
    specially. *)
Theorem C9_unit_factor_still_recorded (env : Env) (r : ref) (factor : Q)
    (reason : string) (w : World) (self : BudgetManager.t) (k : nat) :
  let a := heap w r in
  truthy_str (Asset.ad_id a) = true ->
  truthy_str (Asset.file_id a) = true ->
  Z.abs (Asset.budget a) <= 2 ^ 53 ->
  (factor == 1)%Q ->
  (k < BudgetManager.max_retries self)%nat ->
  (forall j, (j < k)%nat -> ads_failed (answer env r (Asset.budget a) w j)) ->
  ads_succeeded (answer env r (Asset.budget a) w k) ->
  exists w' self' c,
    BudgetManager.update_asset_budget env r factor reason (w, self)
    = (Returned true, (w', self'))
    /\ Asset.budget (heap w' r) = Asset.budget a
    /\ Asset.previous_budget (heap w' r) = Some (Asset.budget a)
    /\ Asset.budget_update_reason (heap w' r) = Some reason
    /\ BudgetManager.budget_changes self'
       = BudgetManager.budget_changes self ++ [c]
    /\ BudgetManager.ch_filename c = Asset.filename a
    /\ BudgetManager.ch_previous_budget c = Some (Asset.budget a)
    /\ BudgetManager.ch_new_budget c = Asset.budget a
    /\ BudgetManager.ch_adjustment_factor c = factor
    /\ BudgetManager.ch_reason c = reason.
Proof.
  intros a Had Hfile Hbound Hone Hk Hfail Hok.
  rewrite manager_update_unfold. fold a. rewrite Had, Hfile. cbn [negb orb].
  rewrite (scale_unit _ _ Hbound Hone).
  rewrite (update_loop_first_success env r (Asset.budget a) factor reason
             self k (BudgetManager.max_retries self) 0%nat w Hk
             (Nat.le_refl _) Hfail Hok).
  do 3 eexists. split; [reflexivity|].
  cbn [fst snd heap BudgetManager.budget_changes]. unfold updated_heap.
  rewrite Nat.eqb_refl.
  repeat split; reflexivity.
Qed.

Lemma C9_unit_factor_still_recorded_witness :
  let env := mkEnv (fun _ _ _ _ => AdsReply {[ "status" := "SUCCESS" ]})
               (fun _ => mkDatetime 2025 1 1 0 0 0 0)
               (fun _ _ => AnalyzerEmpty) (fun _ => true)
               (fun _ => Some []) in
  let a := Asset.set_budget 100
             (Asset.set_ids (Some "ad123") (Some "file123")
                (Asset.make "f" "US" "EN" "BUY123" "c" "a" "t" "f" "d" "jpg")) in
  let w := mkWorld (fun _ => a) 0 0 0 in
  exists w' self' c,
    BudgetManager.update_asset_budget env 0%nat 1 "No change"
      (w, BudgetManager.init)
    = (Returned true, (w', self'))
    /\ Asset.budget (heap w' 0%nat) = 100
    /\ BudgetManager.budget_changes self' = [c]
    /\ BudgetManager.ch_new_budget c = 100.
Proof.
  intros env a w.
  destruct (C9_unit_factor_still_recorded env 0%nat 1 "No change" w
              BudgetManager.init 0%nat)
    as (w' & self' & c & H1 & H2 & _ & _ & H3 & _ & _ & H4 & _).
  - reflexivity.
  - reflexivity.
  - vm_compute. discriminate.
  - reflexivity.
  - simpl. lia.
  - intros j Hj. lia.
  - reflexivity.
  - exists w', self', c. repeat split; assumption.
Defined.

(** ** The validation pipeline *)

Section ValidatorFacts.
Variable env : Env.

(** Buyout validation returns a verdict that depends on the asset only
    through its buyout code and on the world only through the clock; it
    leaves the heap alone. *)
Lemma validate_buyout_code_run (a : Asset.t)
    (buyout_data : gmap string string) (w : World)
    (v : AssetValidator.t) :
  exists w',
    AssetValidator.validate_buyout_code env a buyout_data (w, v)
    = (fst (AssetValidator.validate_buyout_code env a buyout_data (w, v)),
       (w', v))
    /\ heap w' = heap w.
Proof.
  unfold AssetValidator.validate_buyout_code.
  destruct (String.eqb (Asset.buyout_code a) "");
    [exists w; split; reflexivity|].
  destruct (buyout_data !! Asset.buyout_code a) as [s|];
    [|exists w; split; reflexivity].
  destruct (String.eqb s ""); [exists w; split; reflexivity|].
  destruct (AssetValidator.parse_expiration _ s) as [d|];
    [|exists w; split; reflexivity].
  unfold bind. cbn [now].
  destruct (datetime_gtb _ d); exists (tick w); split; reflexivity.
Qed.

Lemma validate_buyout_code_verdict (a a' : Asset.t)
    (buyout_data : gmap string string) (w w' : World)
    (v v' : AssetValidator.t) :
  Asset.buyout_code a = Asset.buyout_code a' ->
  clock_reads w = clock_reads w' ->
  fst (AssetValidator.validate_buyout_code env a buyout_data (w, v))
  = fst (AssetValidator.validate_buyout_code env a' buyout_data (w', v')).
Proof.
  intros Hcode Hclock. unfold AssetValidator.validate_buyout_code.
  rewrite <- Hcode.
  destruct (String.eqb (Asset.buyout_code a) ""); [reflexivity|].
  destruct (buyout_data !! Asset.buyout_code a) as [s|]; [|reflexivity].
  destruct (String.eqb s ""); [reflexivity|].
  destruct (AssetValidator.parse_expiration _ s) as [d|]; [|reflexivity].
  unfold bind. cbn [now]. rewrite Hclock.
  destruct (datetime_gtb _ d); reflexivity.
Qed.

(** The analyzer loop always returns and leaves the heap alone. *)
Lemma analyze_loop_run (max_retries : nat) (bytes : list ascii)
    (v : AssetValidator.t) :
  forall remaining attempt w,
  exists qp w',
    AssetValidator.analyze_loop env max_retries remaining attempt bytes
      (w, v) = (qp, (w', v))
    /\ heap w' = heap w /\ ads_calls w' = ads_calls w
    /\ clock_reads w' = clock_reads w.
Proof.
  induction remaining as [|n IH]; intros attempt w.
  - exists (None, None), w. repeat split; reflexivity.
  - set (w1 := mkWorld (heap w) (ads_calls w) (clock_reads w)
                 (S (analyzer_calls w))).
    destruct (IH (S attempt) w1) as (qp & w' & Hrun & Hheap).
    cbn [AssetValidator.analyze_loop]. unfold bind at 1.
    cbn [call_analyzer]. fold w1.
    destruct (analyze_image env (analyzer_calls w) bytes)
      as [|[[q p|]|]| |].
    + exists qp, w'. auto.
    + exists (q, default (Some false) p), w1. repeat split; reflexivity.
    + exists (None, None), w1. repeat split; reflexivity.
    + exists qp, w'. auto.
    + destruct (Nat.eqb attempt (max_retries - 1)).
      * exists (None, None), w1. repeat split; reflexivity.
      * exists qp, w'. auto.
    + exists (None, None), w1. repeat split; reflexivity.
Qed.

Lemma validate_image_quality_run (image_path : string)
    (max_retries : nat) (w : World) (v : AssetValidator.t) :
  exists qp w',
    AssetValidator.validate_image_quality env image_path max_retries (w, v)
    = (qp, (w', v))
    /\ heap w' = heap w /\ ads_calls w' = ads_calls w
    /\ clock_reads w' = clock_reads w.
Proof.
  unfold AssetValidator.validate_image_quality.
  destruct (negb (path_exists env image_path)).
  - exists (None, None), w. repeat split; reflexivity.
  - destruct (read_file env image_path) as [bytes|].
    + apply analyze_loop_run.
    + exists (None, None), w. repeat split; reflexivity.
Qed.

(** The budget push always returns, whatever the endpoint answers, and
    leaves the heap alone. *)
Lemma push_loop_run (max_retries : nat) (r : ref) (new_budget : Z)
    (v : AssetValidator.t) :
  forall remaining attempt w,
  exists ok w',
    AssetValidator.push_loop env max_retries remaining attempt r
      new_budget (w, v) = (ok, (w', v))
    /\ heap w' = heap w.
Proof.
  induction remaining as [|n IH]; intros attempt w.
  - exists false, w. split; reflexivity.
  - set (w1 := mkWorld (heap w) (S (ads_calls w)) (clock_reads w)
                 (analyzer_calls w)).
    destruct (IH (S attempt) w1) as (ok & w' & Hrun & Hheap).
    cbn [AssetValidator.push_loop]. unfold bind at 1. cbn [load].
    unfold bind at 1. cbn [call_ads]. fold w1.
    destruct (ads_api env (ads_calls w) _ _ new_budget) as [payload|].
    + destruct (has_error payload).
      * destruct (Nat.eqb attempt (max_retries - 1)).
        -- exists false, w1. split; reflexivity.
        -- exists ok, w'. auto.
      * exists true, w1. split; reflexivity.
    + destruct (Nat.eqb attempt (max_retries - 1)).
      * exists false, w1. split; reflexivity.
      * exists ok, w'. auto.
Qed.

Lemma update_asset_budget_run (r : ref) (set_to_zero : bool)
    (w : World) (v : AssetValidator.t) :
  exists ok w',
    AssetValidator.update_asset_budget env r set_to_zero (w, v)
    = (ok, (w', v))
    /\ heap w' = heap w.
Proof.
  unfold AssetValidator.update_asset_budget, bind at 1. cbn [load].
  destruct (negb (truthy_str (Asset.ad_id (heap w r)))).
  - exists false, w. split; reflexivity.
  - destruct (negb (truthy_str (Asset.file_id (heap w r)))).
    + exists false, w. split; reflexivity.
    + apply push_loop_run.
Qed.
End ValidatorFacts.

(** C3. Whenever buyout validation fails, [validate_asset] returns with the
    asset's budget set to 0, for every behaviour of the ads endpoint: the
    push may succeed, fail on all attempts, raise, or not be attempted for
    want of [ad_id] or [file_id]. *)
Theorem C3_failed_buyout_zeroes_budget (env : Env) (r : ref)
    (image_path : string) (buyout_data : gmap string string) (w : World)
    (v : AssetValidator.t) :
  fst (AssetValidator.validate_buyout_code env (heap w r) buyout_data (w, v))
  = false ->
  exists w' v',
    AssetValidator.validate_asset env r image_path buyout_data (w, v)
    = (r, (w', v'))
    /\ Asset.is_buyout_valid (heap w' r) = false
    /\ Asset.budget (heap w' r) = 0.
Proof.
  intros Hfail. unfold AssetValidator.validate_asset.
  (* step 1 *)
  unfold bind at 1. rewrite load_run.
  unfold bind at 1. rewrite assign_run.
  set (w1 := poke r _ w).
  (* step 2 *)
  unfold bind at 1. rewrite load_run.
  destruct (validate_buyout_code_run env (heap w1 r) buyout_data w1 v)
    as (w2 & Hrun2 & Hheap2).
  rewrite (validate_buyout_code_verdict env (heap w1 r) (heap w r)
             buyout_data w1 w v v) in Hrun2;
    [|unfold w1; rewrite poke_same; reflexivity | reflexivity].
  rewrite Hfail in Hrun2.
  unfold bind at 1. rewrite Hrun2.
  unfold bind at 1. rewrite assign_run.
  set (w3 := poke r _ w2).
  assert (Hr3 : Asset.is_buyout_valid (heap w3 r) = false)
    by (unfold w3; rewrite poke_same; reflexivity).
  (* step 3 *)
  destruct (validate_image_quality_run env image_path 3 w3 v)
    as (qp & w4 & Hrun4 & Hheap4 & _).
  unfold bind at 1. rewrite Hrun4.
  unfold bind at 1. rewrite assign_run.
  unfold bind at 1. rewrite assign_run.
  set (w6 := poke r _ (poke r _ w4)).
  assert (Hr6 : Asset.is_buyout_valid (heap w6 r) = false).
  { unfold w6. rewrite !poke_same. simpl. rewrite Hheap4. exact Hr3. }
  (* step 4 *)
  unfold bind at 1. rewrite load_run, Hr6. cbn [negb].
  destruct (update_asset_budget_run env r true w6 v)
    as (ok & w7 & Hrun7 & Hheap7).
  unfold bind at 1. unfold bind at 1. rewrite Hrun7, assign_run.
  set (w8 := poke r _ w7).
  assert (Hr8 : Asset.is_buyout_valid (heap w8 r) = false
                /\ Asset.budget (heap w8 r) = 0).
  { unfold w8. rewrite poke_same. simpl. rewrite Hheap7.
    split; [exact Hr6 | reflexivity]. }
  (* report *)
  unfold bind at 1. rewrite load_run.
  unfold bind at 1. cbn [get_self].
  unfold bind at 1.
  destruct (Asset.is_valid (heap w8 r)); cbn [set_self ret];
    eexists; eexists; (split; [reflexivity | exact Hr8]).
Qed.

Lemma C3_failed_buyout_zeroes_budget_witness :
  let env := mkEnv (fun _ _ _ _ => AdsReply {[ "error" := "API Error" ]})
               (fun _ => mkDatetime 2025 1 1 0 0 0 0)
               (fun _ _ => AnalyzerEmpty) (fun _ => true)
               (fun _ => Some []) in
  let a := Asset.set_budget 100
             (Asset.set_ids (Some "ad123") (Some "file123")
                (Asset.make "f" "US" "EN" "BUY123" "c" "a" "t" "f" "d" "jpg")) in
  let w := mkWorld (fun _ => a) 0 0 0 in
  exists w' v',
    AssetValidator.validate_asset env 0%nat "image.jpg"
      {[ "BUY123" := "01/01/2020" ]} (w, AssetValidator.init)
    = (0%nat, (w', v'))
    /\ Asset.is_buyout_valid (heap w' 0%nat) = false
    /\ Asset.budget (heap w' 0%nat) = 0.
Proof.
  intros env a w.
  apply (C3_failed_buyout_zeroes_budget env 0%nat "image.jpg"
           {[ "BUY123" := "01/01/2020" ]} w AssetValidator.init).
  vm_compute. reflexivity.
Defined.

(** ** Counting budget changes *)

Section Counting.
Variable env : Env.

Local Abbreviation bump ok := (if ok : bool then 1%nat else 0%nat).

(** One update appends one record exactly when it returns [True]. *)
Lemma update_loop_count (r : ref) (new_budget : Z) (factor : Q)
    (reason : string) :
  forall remaining attempt st ok st',
    BudgetManager.update_loop env remaining attempt r new_budget factor
      reason st = (ok, st') ->
    n_changes st' = (n_changes st + bump ok)%nat.
Proof.
  induction remaining as [|n IH]; intros attempt [w self] ok st' H.
  - injection H as <- <-. unfold n_changes. simpl. lia.
  - cbn [BudgetManager.update_loop] in H. unfold bind at 1 in H.
    rewrite load_run in H. unfold bind at 1 in H. cbn [call_ads] in H.
    unfold bind at 1 in H. cbn [get_self] in H.
    destruct (ads_api env (ads_calls w) _ _ new_budget) as [payload|].
    + destruct (has_error payload).
      * destruct (Nat.eqb attempt _).
        -- injection H as <- <-. unfold n_changes. simpl. lia.
        -- apply IH in H. exact H.
      * cbn in H. injection H as <- <-. unfold n_changes. simpl.
        rewrite length_app. simpl. lia.
    + destruct (Nat.eqb attempt _).
      * injection H as <- <-. unfold n_changes. simpl. lia.
      * apply IH in H. exact H.
Qed.

Lemma update_asset_budget_count (r : ref) (factor : Q) (reason : string)
    (st : BudgetManager.St) (ok : bool) (st' : BudgetManager.St) :
  BudgetManager.update_asset_budget env r factor reason st
  = (Returned ok, st') ->
  n_changes st' = (n_changes st + bump ok)%nat.
Proof.
  destruct st as [w self]. rewrite manager_update_unfold.
  destruct (negb _ || negb _).
  - intros H. injection H as <- <-. unfold n_changes. simpl. lia.
  - destruct (Float64.scale _ factor) as [new_budget|]; [|discriminate].
    destruct (BudgetManager.update_loop env _ 0 r new_budget factor reason
                (w, self)) as [ok' st1] eqn:Hloop.
    cbn [fst snd]. intros H. injection H as <- <-.
    apply (update_loop_count _ _ _ _ _ _ _ _ _ Hloop).
Qed.

(** A loop of updates counts exactly the records it appends. *)
Lemma update_each_count (factor : Q) (reason : string) :
  forall performers count st count' st',
    BudgetManager.update_each env performers factor reason count st
    = (Returned count', st') ->
    (count' + n_changes st = count + n_changes st')%nat.
Proof.
  induction performers as [|r l IH]; intros count st count' st' H.
  - injection H as <- <-. reflexivity.
  - cbn [BudgetManager.update_each] in H. unfold bind_raise at 1 in H.
    destruct (BudgetManager.update_asset_budget env r factor reason st)
      as [[ok|e] st1] eqn:Hupd; [|discriminate].
    apply update_asset_budget_count in Hupd. apply IH in H.
    destruct ok; simpl in *; lia.
Qed.

(** Recording unchanged assets appends no change record. *)
Lemma record_unchanged_count (r : ref) (reason : string)
    (st : BudgetManager.St) (u : unit) (st' : BudgetManager.St) :
  BudgetManager.record_unchanged r reason st = (u, st') ->
  n_changes st' = n_changes st.
Proof.
  destruct st as [w self]. intros H. injection H as _ <-. reflexivity.
Qed.

Lemma record_middle_count :
  forall middle st u st',
    BudgetManager.record_middle middle st = (u, st') ->
    n_changes st' = n_changes st.
Proof.
  induction middle as [|r l IH]; intros st u st' H.
  - injection H as _ <-. reflexivity.
  - cbn [BudgetManager.record_middle] in H. unfold bind at 1 in H.
    destruct (BudgetManager.record_unchanged r _ st) as [u1 st1] eqn:H1.
    apply record_unchanged_count in H1. apply IH in H. congruence.
Qed.

(** Filtering records skipped assets only. *)
Lemma filter_assets_count :
  forall assets valid_assets st valid st',
    BudgetManager.filter_assets assets valid_assets st = (valid, st') ->
    n_changes st' = n_changes st.
Proof.
  induction assets as [|r l IH]; intros valid_assets [w self] valid st' H.
  - injection H as <- <-. reflexivity.
  - cbn [BudgetManager.filter_assets] in H. unfold bind at 1 in H.
    rewrite load_run in H. unfold bind at 1 in H. cbn [get_self] in H.
    destruct (negb (truthy_str (Asset.ad_id (heap w r)))).
    + unfold bind at 1 in H. cbn [set_self] in H. apply IH in H.
      exact H.
    + destruct (Asset.performance_score (heap w r)).
      * apply IH in H. exact H.
      * unfold bind at 1 in H. cbn [set_self] in H. apply IH in H.
        exact H.
Qed.

Lemma process_single_count (r : ref) (counts : BudgetManager.Counts)
    (st : BudgetManager.St) (counts' : BudgetManager.Counts)
    (st' : BudgetManager.St) :
  BudgetManager.process_single env r counts st = (Returned counts', st') ->
  (n_adjusted counts' + n_changes st
   = n_adjusted counts + n_changes st')%nat.
Proof.
  destruct counts as [[inc dec] unch].
  unfold BudgetManager.process_single. unfold bind at 1.
  destruct st as [w self]. rewrite load_run.
  destruct (Asset.performance_score (heap w r)) as [score|].
  - destruct (Qlt_le_dec (7 # 10) score).
    + unfold bind_raise at 1.
      destruct (BudgetManager.update_asset_budget env r _ _ _)
        as [[ok|e] st1] eqn:Hupd; [|discriminate].
      apply update_asset_budget_count in Hupd.
      intros H. injection H as <- <-. destruct ok; simpl in *; lia.
    + destruct (Qlt_le_dec score (3 # 10)).
      * unfold bind_raise at 1.
        destruct (BudgetManager.update_asset_budget env r _ _ _)
          as [[ok|e] st1] eqn:Hupd; [|discriminate].
        apply update_asset_budget_count in Hupd.
        intros H. injection H as <- <-. destruct ok; simpl in *; lia.
      * unfold bind at 1.
        destruct (BudgetManager.record_unchanged r _ (w, self))
          as [u st1] eqn:Hrec.
        apply record_unchanged_count in Hrec.
        intros H. injection H as <- <-. simpl. lia.
  - intros H. injection H as <- <-. reflexivity.
Qed.

Lemma process_multi_count (group : list ref)
    (counts : BudgetManager.Counts) (st : BudgetManager.St)
    (counts' : BudgetManager.Counts) (st' : BudgetManager.St) :
  BudgetManager.process_multi env group counts st = (Returned counts', st') ->
  (n_adjusted counts' + n_changes st
   = n_adjusted counts + n_changes st')%nat.
Proof.
  destruct counts as [[inc dec] unch].
  unfold BudgetManager.process_multi.
  destruct (BudgetManager.identify_performance_outliers _ group)
    as [top low].
  unfold bind_raise at 1.
  destruct (BudgetManager.update_each env top _ _ inc st)
    as [[inc'|e] st1] eqn:Htop; [|discriminate].
  apply update_each_count in Htop.
  unfold bind_raise at 1.
  destruct (BudgetManager.update_each env low _ _ dec st1)
    as [[dec'|e] st2] eqn:Hlow; [|discriminate].
  apply update_each_count in Hlow.
  unfold bind at 1.
  destruct (BudgetManager.record_middle _ st2) as [u st3] eqn:Hmid.
  apply record_middle_count in Hmid.
  intros H. injection H as <- <-. simpl. lia.
Qed.

Lemma process_ads_count :
  forall ad_assets counts st counts' st',
    BudgetManager.process_ads env ad_assets counts st
    = (Returned counts', st') ->
    (n_adjusted counts' + n_changes st
     = n_adjusted counts + n_changes st')%nat.
Proof.
  induction ad_assets as [|[ad_id group] l IH];
    intros counts st counts' st' H.
  - injection H as <- <-. reflexivity.
  - cbn [BudgetManager.process_ads] in H. unfold bind_raise at 1 in H.
    destruct (match group with
              | [asset] => BudgetManager.process_single env asset counts
              | _ => BudgetManager.process_multi env group counts
              end st) as [[counts1|e] st1] eqn:Hgroup; [|discriminate].
    apply IH in H.
    assert (n_adjusted counts1 + n_changes st
            = n_adjusted counts + n_changes st1)%nat; [|lia].
    destruct group as [|r [|r' g]].
    + apply (process_multi_count _ _ _ _ _ Hgroup).
    + apply (process_single_count _ _ _ _ _ Hgroup).
    + apply (process_multi_count _ _ _ _ _ Hgroup).
Qed.
End Counting.

(** C10. In the summary of [adjust_budgets_by_performance], the increase
    and decrease counters add up to the number of change records: the run
    starts from an empty list, every update that returns [True] appends one
    record and raises one counter, and nothing else touches either. *)
Theorem C10_counters_match_changes (env : Env) (assets : list ref)
    (st : BudgetManager.St) (summary : BudgetManager.Summary) :
  fst (BudgetManager.adjust_budgets_by_performance env assets st)
  = Returned summary ->
  (BudgetManager.budgets_increased summary
   + BudgetManager.budgets_decreased summary
   = length (BudgetManager.sum_budget_changes summary))%nat.
Proof.
  destruct (BudgetManager.adjust_budgets_by_performance env assets st)
    as [out st'] eqn:H.
  cbn [fst]. intros ->.
  destruct st as [w self].
  unfold BudgetManager.adjust_budgets_by_performance in H.
  unfold bind at 1 in H. cbn [get_self] in H.
  unfold bind at 1 in H. cbn [set_self] in H.
  unfold bind at 1 in H.
  destruct (BudgetManager.filter_assets assets [] _)
    as [valid st1] eqn:Hfilter.
  apply filter_assets_count in Hfilter.
  unfold bind at 1 in H. unfold bind_raise at 1 in H.
  destruct (BudgetManager.process_ads env _ (0, 0, 0)%nat st1)
    as [[[[inc dec] unch]|e] [w2 self2]] eqn:Hads; [|discriminate].
  apply process_ads_count in Hads.
  unfold bind at 1 in H. cbn [get_self ret] in H.
  injection H as <- _.
  unfold n_changes in *. simpl in *. lia.
Qed.

Lemma C10_counters_match_changes_witness :
  let env := mkEnv (fun _ _ _ _ => AdsReply {[ "status" := "SUCCESS" ]})
               (fun _ => mkDatetime 2025 1 1 0 0 0 0)
               (fun _ _ => AnalyzerEmpty) (fun _ => true)
               (fun _ => Some []) in
  let a := fun r : ref =>
             Asset.set_budget 100
               (Asset.set_metrics (Some (Z.of_nat (10 + r))) (Some 1000)
                  (Some 1)
                  (Asset.set_ids (Some "ad123") (Some "file123")
                     (Asset.make "f" "US" "EN" "BUY123" "c" "a" "t" "f" "d"
                        "jpg"))) in
  let w := mkWorld a 0 0 0 in
  exists summary,
    fst (BudgetManager.adjust_budgets_by_performance env [0; 1; 2]%nat
           (w, BudgetManager.init)) = Returned summary
    /\ (BudgetManager.budgets_increased summary
        + BudgetManager.budgets_decreased summary
        = length (BudgetManager.sum_budget_changes summary))%nat
    /\ length (BudgetManager.sum_budget_changes summary) = 2%nat.
Proof.
  intros env a w.
  destruct (fst (BudgetManager.adjust_budgets_by_performance env
                   [0; 1; 2]%nat (w, BudgetManager.init)))
    as [summary|e] eqn:Hrun; [|vm_compute in Hrun; discriminate].
  exists summary. split; [reflexivity|]. split.
  - apply (C10_counters_match_changes env [0; 1; 2]%nat
             (w, BudgetManager.init) summary Hrun).
  - vm_compute in Hrun. injection Hrun as <-. reflexivity.
Defined.

(** ** Ranking inside an ad group *)

Section Ranking.
Import BudgetManager.

Lemma insert_desc_perm (x : ref * Q) (l : list (ref * Q)) :
  insert_desc x l ≡ₚ x :: l.
Proof.
  induction l as [|y l IH]; simpl; [reflexivity|].
  destruct (Qlt_le_dec (snd x) (snd y)); [|reflexivity].
  rewrite IH. apply Permutation_swap.
Qed.

(** Sorting rearranges the group and loses nothing. *)
Lemma sort_desc_perm (l : list (ref * Q)) : sort_desc l ≡ₚ l.
Proof.
  unfold sort_desc. induction l as [|x l IH]; simpl; [reflexivity|].
  rewrite insert_desc_perm, IH. reflexivity.
Qed.

(** Every asset has a score, so scoring keeps the whole group. *)
Lemma scored_refs (h : ref -> Asset.t) (group : list ref) :
  fst <$> omap (fun r => match Asset.performance_score (h r) with
                         | Some score => Some (r, score)
                         | None => None
                         end) group = group.
Proof.
  set (f := fun r => _).
  induction group as [|r l IH]; [reflexivity|].
  change (omap f (r :: l)) with
    (match f r with Some y => y :: omap f l | None => omap f l end).
  unfold f at 1. unfold Asset.performance_score.
  cbn [fmap list_fmap fst]. rewrite IH. reflexivity.
Qed.

(** The two ends of a duplicate free list share no element when they are
    short enough not to meet. *)
Lemma ends_disjoint {A} (l : list A) (k : nat) (x : A) :
  NoDup l -> (k <= length l - k)%nat ->
  x ∈ take k l -> x ∈ last_n k l -> False.
Proof.
  intros Hnd Hk Htop Hlow. unfold last_n in Hlow.
  rewrite <- (take_drop k l) in Hnd.
  apply NoDup_app in Hnd as (_ & Hdisj & _).
  apply (Hdisj x Htop).
  replace (length l - k)%nat with (k + (length l - k - k))%nat in Hlow
    by lia.
  rewrite <- drop_drop in Hlow.
  apply (subseteq_drop _ _ _ Hlow).
Qed.

Lemma quartile_fits (n : nat) :
  (2 <= n)%nat -> (Nat.max 1 (n / 4) <= n - Nat.max 1 (n / 4))%nat.
Proof.
  intros Hn.
  assert (H4 : (4 * (n / 4) <= n)%nat) by (apply Nat.Div0.mul_div_le).
  lia.
Qed.

(** In a group of two or more distinct assets nobody is both a top and a
    low performer. *)
Lemma outliers_disjoint (h : ref -> Asset.t) (group : list ref) (r : ref) :
  NoDup group -> (2 <= length group)%nat ->
  r ∈ fst (identify_performance_outliers h group) ->
  r ∈ snd (identify_performance_outliers h group) -> False.
Proof.
  intros Hnd Hlen. unfold identify_performance_outliers.
  destruct group as [|r0 group0] eqn:Hgroup; [simpl in Hlen; lia|].
  rewrite <- Hgroup in *. clear Hgroup r0 group0.
  pose proof (scored_refs h group) as Hrefs.
  set (scored := omap _ group) in *.
  destruct scored as [|p scored0] eqn:Hscored.
  { simpl. intros H. inversion H. }
  rewrite <- Hscored in *. clear Hscored p scored0.
  cbn [fst snd].
  assert (Hperm : fst <$> sort_desc scored ≡ₚ group)
    by (rewrite sort_desc_perm; rewrite Hrefs; reflexivity).
  assert (Hnd' : NoDup (fst <$> sort_desc scored))
    by (rewrite Hperm; exact Hnd).
  assert (Hlen' : length (fst <$> sort_desc scored) = length group)
    by (rewrite Hperm; reflexivity).
  unfold last_n. rewrite fmap_take, fmap_drop.
  rewrite <- (length_fmap fst (sort_desc scored)).
  apply ends_disjoint; [exact Hnd'|].
  apply quartile_fits. lia.
Qed.

(** A single asset is both the top and the low performer of its list. *)
Lemma outliers_of_singleton (h : ref -> Asset.t) (r : ref) :
  identify_performance_outliers h [r] = ([r], [r]).
Proof. reflexivity. Qed.

(** Grouping keeps the members of every group distinct. *)
Lemma group_insert_nodup (key : string) (r : ref)
    (groups : list (string * list ref)) (seen : list ref) :
  r ∉ seen ->
  (forall k g, (k, g) ∈ groups -> NoDup g /\ g ⊆ seen) ->
  forall k g, (k, g) ∈ group_insert key r groups ->
              NoDup g /\ g ⊆ r :: seen.
Proof.
  intros Hfresh. induction groups as [|[k0 g0] groups IH]; intros Hinv k g.
  - simpl. intros H. apply list_elem_of_singleton in H.
    injection H as -> ->. split.
    + apply NoDup_singleton.
    + intros x Hx. apply list_elem_of_singleton in Hx as ->. left.
  - simpl. destruct (String.eqb k0 key).
    + intros H. apply elem_of_cons in H as [H|H].
      * injection H as -> ->.
        destruct (Hinv k0 g0 (list_elem_of_here _ _)) as [Hnd Hsub].
        split.
        -- apply NoDup_app. split; [exact Hnd|]. split.
           ++ intros x Hx Hx'. apply list_elem_of_singleton in Hx' as ->.
              apply Hfresh, Hsub, Hx.
           ++ apply NoDup_singleton.
        -- intros x Hx. apply elem_of_app in Hx as [Hx|Hx].
           ++ right. apply Hsub, Hx.
           ++ apply list_elem_of_singleton in Hx as ->. left.
      * destruct (Hinv k g (list_elem_of_further _ _ _ H)) as [Hnd Hsub].
        split; [exact Hnd|]. intros x Hx. right. apply Hsub, Hx.
    + intros H. apply elem_of_cons in H as [H|H].
      * injection H as -> ->.
        destruct (Hinv k0 g0 (list_elem_of_here _ _)) as [Hnd Hsub].
        split; [exact Hnd|]. intros x Hx. right. apply Hsub, Hx.
      * apply (fun Hi => IH Hi k g H).
        intros k' g' H'. apply (Hinv k' g'). right. exact H'.
Qed.

Lemma group_fold_nodup (h : ref -> Asset.t) :
  forall assets groups seen,
    NoDup (assets ++ seen) ->
    (forall k g, (k, g) ∈ groups -> NoDup g /\ g ⊆ seen) ->
    forall k g,
      (k, g) ∈ fold_left
                 (fun ad_assets r =>
                    match Asset.ad_id (h r) with
                    | Some key =>
                        if truthy_str (Some key)
                        then group_insert key r ad_assets
                        else ad_assets
                    | None => ad_assets
                    end) assets groups ->
      NoDup g.
Proof.
  induction assets as [|r assets IH]; intros groups seen Hnd Hinv k g.
  - simpl. intros H. apply (Hinv k g H).
  - cbn [fold_left]. apply (IH _ (r :: seen)).
    + rewrite <- Permutation_middle. exact Hnd.
    + assert (Hfresh : r ∉ seen).
      { apply NoDup_cons in Hnd as [Hr _]. intros Hin. apply Hr.
        apply elem_of_app. right. exact Hin. }
      assert (Hkeep : forall k' g', (k', g') ∈ groups ->
                                    NoDup g' /\ g' ⊆ r :: seen).
      { intros k' g' H'. destruct (Hinv k' g' H') as [H1 H2].
        split; [exact H1|]. intros x Hx. right. apply H2, Hx. }
      destruct (Asset.ad_id (h r)) as [key|]; [|exact Hkeep].
      destruct (truthy_str (Some key)); [|exact Hkeep].
      apply group_insert_nodup; assumption.
Qed.

Lemma groups_nodup (h : ref -> Asset.t) (assets : list ref) (k : string)
    (g : list ref) :
  NoDup assets -> (k, g) ∈ group_assets_by_ad h assets -> NoDup g.
Proof.
  intros Hnd. unfold group_assets_by_ad.
  apply (group_fold_nodup h assets [] []).
  - rewrite app_nil_r. exact Hnd.
  - intros k' g' H. inversion H.
Qed.
End Ranking.

(** C8 as stated fails: no ad group of two or more distinct assets has an
    asset in both selections.  The group is taken from the grouping of any
    duplicate free asset list, and is ranked on any heap. *)
Lemma C8_no_overlap_counterexample :
  ~ exists (h h' : ref -> Asset.t) (assets : list ref) (ad_id : string)
           (group : list ref) (r : ref),
      NoDup assets
      /\ (ad_id, group) ∈ BudgetManager.group_assets_by_ad h assets
      /\ (2 <= length group)%nat
      /\ r ∈ fst (BudgetManager.identify_performance_outliers h' group)
      /\ r ∈ snd (BudgetManager.identify_performance_outliers h' group).
Proof.
  intros (h & h' & assets & ad_id & group & r & Hnd & Hin & Hlen & Htop & Hlow).
  apply (outliers_disjoint h' group r); try assumption.
  apply (groups_nodup h assets ad_id group Hnd Hin).
Qed.

(** C8, amended.  In every ad group of two or more distinct assets that
    [adjust_budgets_by_performance] ranks, the top performers (the
    [max(1, n//4)] highest ranked) and the low performers (the
    [max(1, n//4)] lowest ranked) are disjoint: no asset is selected both for
    the 1.2 increase and for the 0.8 decrease.  The two selections coincide
    only on a list of one asset, which the adjustment handles by its
    threshold branch without ranking. *)
Theorem C8_selections_disjoint (h h' : ref -> Asset.t) (assets : list ref)
    (ad_id : string) (group : list ref) :
  NoDup assets ->
  (ad_id, group) ∈ BudgetManager.group_assets_by_ad h assets ->
  (2 <= length group)%nat ->
  (forall r,
     ~ (r ∈ fst (BudgetManager.identify_performance_outliers h' group)
        /\ r ∈ snd (BudgetManager.identify_performance_outliers h' group)))
  /\ (forall r,
        BudgetManager.identify_performance_outliers h' [r] = ([r], [r]))
  /\ (forall env key r rest counts st,
        BudgetManager.process_ads env ((key, [r]) :: rest) counts st
        = bind_raise (BudgetManager.process_single env r counts)
            (BudgetManager.process_ads env rest) st).
Proof.
  intros Hnd Hin Hlen. split; [|split].
  - intros r [Htop Hlow].
    apply (outliers_disjoint h' group r); try assumption.
    apply (groups_nodup h assets ad_id group Hnd Hin).
  - intros r. apply outliers_of_singleton.
  - reflexivity.
Qed.

Lemma C8_selections_disjoint_witness :
  let a := fun (c : Z) =>
             Asset.set_metrics (Some c) (Some 1000) (Some 1)
               (Asset.set_ids (Some "ad123") (Some "file")
                  (Asset.make "f" "US" "EN" "BUY123" "c" "a" "t" "f" "d"
                     "jpg")) in
  let h := fun r : ref => a (Z.of_nat (10 + r)) in
  BudgetManager.identify_performance_outliers h [0; 1]%nat
  = ([0%nat], [1%nat])
  /\ forall r,
       ~ (r ∈ fst (BudgetManager.identify_performance_outliers h [0; 1]%nat)
          /\ r ∈ snd (BudgetManager.identify_performance_outliers h
                        [0; 1]%nat)).
Proof.
  intros a h. split; [vm_compute; reflexivity|].
  apply (proj1 (C8_selections_disjoint h h [0; 1]%nat "ad123" [0; 1]%nat
                  ltac:(apply NoDup_ListNoDup; repeat constructor; simpl;
                        intuition lia)
                  ltac:(vm_compute; left)
                  ltac:(simpl; lia))).
Defined.


(** ** Buyout validation *)

Section Buyout.
Import AssetValidator.

(** The loop over the formats returns the result of the first format
    that parses. *)
Lemma parse_expiration_none (formats : list Strptime.format) (s : string) :
  parse_expiration formats s = None
  <-> forall fmt, fmt ∈ formats -> Strptime.strptime s fmt = None.
Proof.
  induction formats as [|fmt l IH]; simpl.
  - split; [|reflexivity]. intros _ fmt H. inversion H.
  - destruct (Strptime.strptime s fmt) as [d|] eqn:E.
    + split; [discriminate|]. intros H.
      rewrite (H fmt) in E; [discriminate|left].
    + rewrite IH. split.
      * intros H fmt' Hin. apply elem_of_cons in Hin as [->|Hin]; auto.
      * intros H fmt' Hin. apply H. right. exact Hin.
Qed.

Lemma parse_expiration_first (s : string) (d : datetime) :
  parse_expiration date_formats s = Some d
  <-> Strptime.strptime s Strptime.dmy_slash = Some d
      \/ (Strptime.strptime s Strptime.dmy_slash = None
          /\ Strptime.strptime s Strptime.mdy_slash = Some d)
      \/ (Strptime.strptime s Strptime.dmy_slash = None
          /\ Strptime.strptime s Strptime.mdy_slash = None
          /\ Strptime.strptime s Strptime.ymd_dash = Some d)
      \/ (Strptime.strptime s Strptime.dmy_slash = None
          /\ Strptime.strptime s Strptime.mdy_slash = None
          /\ Strptime.strptime s Strptime.ymd_dash = None
          /\ Strptime.strptime s Strptime.ymd_slash = Some d).
Proof.
  unfold date_formats. cbn [parse_expiration].
  destruct (Strptime.strptime s Strptime.dmy_slash) as [d1|].
  { split; [intros H; left; exact H|].
    intros [H|[[H _]|[[H _]|[H _]]]]; try discriminate. exact H. }
  destruct (Strptime.strptime s Strptime.mdy_slash) as [d2|].
  { split; [intros H; right; left; auto|].
    intros [H|[[_ H]|[(_ & H & _)|(_ & H & _)]]]; try discriminate.
    exact H. }
  destruct (Strptime.strptime s Strptime.ymd_dash) as [d3|].
  { split; [intros H; right; right; left; auto|].
    intros [H|[[_ H]|[(_ & _ & H)|(_ & _ & H & _)]]]; try discriminate.
    exact H. }
  destruct (Strptime.strptime s Strptime.ymd_slash) as [d4|].
  - split; [intros H; right; right; right; auto|].
    intros [H|[[_ H]|[(_ & _ & H)|(_ & _ & _ & H)]]]; try discriminate.
    exact H.
  - split; [discriminate|].
    intros [H|[[_ H]|[(_ & _ & H)|(_ & _ & _ & H)]]]; discriminate.
Qed.

Lemma lex_gtb_irrefl (xs : list Z) : lex_gtb xs xs = false.
Proof.
  induction xs as [|x xs IH]; [reflexivity|].
  simpl. rewrite Z.ltb_irrefl. exact IH.
Qed.

Lemma string_eqb_empty (s : string) : String.eqb s "" = true <-> s = "".
Proof. apply String.eqb_eq. Qed.
End Buyout.

(** C5. Buyout validation tries day/month/year, month/day/year,
    year-month-day and year/month/day in this order and takes the first
    format that parses: 03/04/2024 is read as 3 April 2024, and 31/12/2099
    parses as 31 December 2099 although month/day/year alone rejects it.
    With that table value, a non-empty code and a clock not past that day
    the validation passes.  The validation fails exactly when the buyout code is empty, or absent
    from the expiry table, or the table value parses under none of the four
    formats, or the clock reading is strictly after the parsed expiry
    instant (a reading equal to the instant passes). *)
Theorem C5_buyout_validation (env : Env) (a : Asset.t)
    (buyout_data : gmap string string) (w : World) (v : AssetValidator.t) :
  let verdict :=
    fst (AssetValidator.validate_buyout_code env a buyout_data (w, v)) in
  let code := Asset.buyout_code a in
  let current_date := clock env (clock_reads w) in
  AssetValidator.date_formats
  = [Strptime.dmy_slash; Strptime.mdy_slash; Strptime.ymd_dash;
     Strptime.ymd_slash]
  /\ (forall s d,
        AssetValidator.parse_expiration AssetValidator.date_formats s = Some d
        <-> Strptime.strptime s Strptime.dmy_slash = Some d
            \/ (Strptime.strptime s Strptime.dmy_slash = None
                /\ Strptime.strptime s Strptime.mdy_slash = Some d)
            \/ (Strptime.strptime s Strptime.dmy_slash = None
                /\ Strptime.strptime s Strptime.mdy_slash = None
                /\ Strptime.strptime s Strptime.ymd_dash = Some d)
            \/ (Strptime.strptime s Strptime.dmy_slash = None
                /\ Strptime.strptime s Strptime.mdy_slash = None
                /\ Strptime.strptime s Strptime.ymd_dash = None
                /\ Strptime.strptime s Strptime.ymd_slash = Some d))
  /\ AssetValidator.parse_expiration AssetValidator.date_formats "03/04/2024"
     = Some (mkDatetime 2024 4 3 0 0 0 0)
  /\ AssetValidator.parse_expiration AssetValidator.date_formats "31/12/2099"
     = Some (mkDatetime 2099 12 31 0 0 0 0)
  /\ Strptime.strptime "31/12/2099" Strptime.mdy_slash = None
  /\ (verdict = false <->
        code = ""
        \/ buyout_data !! code = None
        \/ (exists s, buyout_data !! code = Some s
              /\ forall fmt, fmt ∈ AssetValidator.date_formats ->
                             Strptime.strptime s fmt = None)
        \/ (exists s d, buyout_data !! code = Some s
              /\ AssetValidator.parse_expiration AssetValidator.date_formats s
                 = Some d
              /\ datetime_gtb current_date d = true))
  /\ (forall d, datetime_gtb d d = false)
  /\ (code <> "" -> buyout_data !! code = Some "31/12/2099" ->
      datetime_gtb current_date (mkDatetime 2099 12 31 0 0 0 0) = false ->
      verdict = true).
Proof.
  intros verdict code current_date.
  split; [reflexivity|].
  split; [apply parse_expiration_first|].
  split; [vm_compute; reflexivity|].
  split; [vm_compute; reflexivity|].
  split; [vm_compute; reflexivity|].
  split; [|split; [intros d; apply lex_gtb_irrefl|]].
  2:{ intros Hcode Hlook Hgt. subst verdict.
      unfold AssetValidator.validate_buyout_code. fold code.
      destruct (String.eqb code "") eqn:Ecode;
        [apply string_eqb_empty in Ecode; contradiction|].
      rewrite Hlook.
      change (String.eqb "31/12/2099" "") with false. cbv iota.
      replace (AssetValidator.parse_expiration AssetValidator.date_formats
                 "31/12/2099")
        with (Some (mkDatetime 2099 12 31 0 0 0 0))
        by (vm_compute; reflexivity).
      unfold bind. cbn [now]. fold current_date. rewrite Hgt. reflexivity. }
  subst verdict. unfold AssetValidator.validate_buyout_code. fold code.
  destruct (String.eqb code "") eqn:Ecode.
  { apply string_eqb_empty in Ecode. simpl. tauto. }
  assert (Hcode : code <> "").
  { intros H. rewrite <- string_eqb_empty in H. congruence. }
  destruct (buyout_data !! code) as [s|] eqn:Elook.
  2:{ simpl. tauto. }
  destruct (String.eqb s "") eqn:Es.
  { apply string_eqb_empty in Es. subst s. simpl. split; [|reflexivity].
    intros _. right. right. left. exists "". split; [reflexivity|].
    apply parse_expiration_none. vm_compute. reflexivity. }
  destruct (AssetValidator.parse_expiration AssetValidator.date_formats s)
    as [d|] eqn:Eparse.
  - unfold bind. cbn [now]. fold current_date.
    destruct (datetime_gtb current_date d) eqn:Egt; simpl.
    + split; [|reflexivity]. intros _. right. right. right.
      exists s, d. auto.
    + split; [discriminate|].
      intros [H|[H|[(s' & Hs' & Hnone)|(s' & d' & Hs' & Hd' & Hgt)]]].
      * contradiction.
      * discriminate.
      * injection Hs' as <-. apply parse_expiration_none in Hnone.
        congruence.
      * injection Hs' as <-.
        pose proof (eq_trans (eq_sym Eparse) Hd') as Hdd.
        injection Hdd as ->. subst current_date. congruence.
  - simpl. split; [|reflexivity]. intros _. right. right. left.
    exists s. split; [reflexivity|].
    apply parse_expiration_none. exact Eparse.
Qed.

Lemma C5_buyout_validation_witness :
  let env := mkEnv (fun _ _ _ _ => AdsRaises)
               (fun _ => mkDatetime 2026 11 4 9 30 0 0)
               (fun _ _ => AnalyzerEmpty) (fun _ => true)
               (fun _ => Some []) in
  let a := Asset.make "f" "US" "EN" "BUY123" "c" "a" "t" "f" "d" "jpg" in
  fst (AssetValidator.validate_buyout_code env a
         {[ "BUY123" := "31/12/2099" ]}
         (mkWorld (fun _ => a) 0 0 0, AssetValidator.init))
  = true.
Proof.
  intros env a.
  destruct (C5_buyout_validation env a {[ "BUY123" := "31/12/2099" ]}
              (mkWorld (fun _ => a) 0 0 0) AssetValidator.init)
    as (_ & _ & _ & _ & _ & _ & _ & H).
  apply H.
  - discriminate.
  - vm_compute. reflexivity.
  - vm_compute. reflexivity.
Defined.

(** ** The matcher *)

Section Engine.
Import Re.

Lemma all_in_nil (p : cls) : all_in p [].
Proof. reflexivity. Qed.

Lemma all_in_cons (p : cls) (c : ascii) (s : list ascii) :
  all_in p (c :: s) <-> p c = true /\ all_in p s.
Proof. unfold all_in. simpl. apply andb_true_iff. Qed.

(** What a successful repetition has consumed. *)
Lemma rep_sound (p : cls) (greedy : bool)
    (k : list ascii -> option found) (r : found) :
  forall s lo,
    rep p lo greedy k s = Some r ->
    exists pre suf,
      s = pre ++ suf /\ all_in p pre /\ (lo <= length pre)%nat
      /\ k suf = Some r.
Proof.
  induction s as [|c s IH]; intros lo H.
  - destruct lo as [|lo]; [|discriminate].
    exists [], []. simpl in H.
    assert (Hk : k [] = Some r).
    { destruct greedy; [exact H|]. destruct (k []); [exact H|discriminate]. }
    repeat split; auto.
  - destruct lo as [|lo].
    + simpl in H. destruct greedy.
      * destruct (p c) eqn:Hc.
        -- destruct (rep p 0 true k s) as [r'|] eqn:Hrec.
           ++ injection H as ->.
              destruct (IH 0%nat Hrec) as (pre & suf & -> & Hp & _ & Hk).
              exists (c :: pre), suf. repeat split; auto.
              ** apply all_in_cons. auto.
              ** simpl. lia.
           ++ exists [], (c :: s). repeat split; auto.
        -- exists [], (c :: s). repeat split; auto.
      * destruct (k (c :: s)) as [r'|] eqn:Hk.
        -- injection H as ->. exists [], (c :: s). repeat split; auto.
        -- destruct (p c) eqn:Hc; [|discriminate].
           destruct (IH 0%nat H) as (pre & suf & -> & Hp & _ & Hk').
           exists (c :: pre), suf. repeat split; auto.
           ++ apply all_in_cons. auto.
           ++ simpl. lia.
    + simpl in H. destruct (p c) eqn:Hc; [|discriminate].
      destruct (IH lo H) as (pre & suf & -> & Hp & Hlo & Hk).
      exists (c :: pre), suf. repeat split; auto.
      * apply all_in_cons. auto.
      * simpl. lia.
Qed.

(** A repetition succeeds as soon as some split lets the rest succeed. *)
Lemma rep_complete (p : cls) (greedy : bool)
    (k : list ascii -> option found) (suf : list ascii) :
  is_Some (k suf) ->
  forall pre lo,
    all_in p pre -> (lo <= length pre)%nat ->
    is_Some (rep p lo greedy k (pre ++ suf)).
Proof.
  intros Hk. induction pre as [|c pre IH]; intros lo Hp Hlo.
  - simpl in Hlo. assert (lo = 0%nat) as -> by lia. simpl.
    destruct suf as [|c s]; simpl.
    + destruct greedy; [exact Hk|].
      destruct (k []); [eauto|]. destruct Hk; discriminate.
    + destruct greedy.
      * destruct (p c); [|exact Hk].
        destruct (rep p 0 true k s); [eauto|exact Hk].
      * destruct (k (c :: s)); [eauto|]. destruct Hk; discriminate.
  - apply all_in_cons in Hp as [Hc Hp]. simpl in Hlo.
    destruct lo as [|lo]; simpl.
    + specialize (IH 0%nat Hp (Nat.le_0_l _)). destruct greedy.
      * rewrite Hc. destruct (rep p 0 true k (pre ++ suf)); [eauto|].
        destruct IH; discriminate.
      * destruct (k (c :: pre ++ suf)); [eauto|]. rewrite Hc. exact IH.
    + rewrite Hc. apply IH; [exact Hp|lia].
Qed.

(** The text captured when a group closes. *)
Lemma captured (g s : list ascii) :
  take (length (g ++ s) - length s) (g ++ s) = g.
Proof.
  rewrite length_app, Nat.add_sub. apply take_app_length.
Qed.
End Engine.

(** ** The filename pattern *)

Section Pattern.
Import Re.

Local Abbreviation bar := ("|"%char).

Lemma is_pipe_bar : Text.is_pipe bar = true.
Proof. reflexivity. Qed.

Lemma is_pipe_eq (c : ascii) : Text.is_pipe c = true -> c = bar.
Proof. unfold Text.is_pipe, Text.is_char. apply Ascii.eqb_eq. Qed.

(** One separator followed by one captured field: [\s*\|\s*(p{lo,})]. *)
Lemma field_block_sound (p : cls) (lo : nat) (greedy : bool)
    (pat' : pattern) (s opened : list ascii) (acc : list (list ascii))
    (r : found) :
  run (AssetParser.sep ++ [GroupOpen; Rep p lo greedy; GroupClose] ++ pat')
    s opened acc = Some r ->
  exists a b g s',
    s = a ++ bar :: b ++ g ++ s'
    /\ all_in Text.is_space a /\ all_in Text.is_space b
    /\ all_in p g /\ (lo <= length g)%nat
    /\ run pat' s' (g ++ s') (g :: acc) = Some r.
Proof.
  unfold AssetParser.sep, AssetParser.ws, AssetParser.pipe.
  cbn [app run]. intros H.
  apply rep_sound in H as (a & s1 & -> & Ha & _ & H).
  destruct s1 as [|c s1]; [discriminate|].
  destruct (Text.is_pipe c) eqn:Hc; [|discriminate].
  apply is_pipe_eq in Hc as ->.
  apply rep_sound in H as (b & s2 & -> & Hb & _ & H).
  apply rep_sound in H as (g & s' & -> & Hg & Hlo & H).
  rewrite captured in H.
  exists a, b, g, s'. repeat split; auto.
Qed.

Lemma field_block_complete (p : cls) (lo : nat) (greedy : bool)
    (pat' : pattern) (a b g s' opened : list ascii)
    (acc : list (list ascii)) :
  all_in Text.is_space a -> all_in Text.is_space b ->
  all_in p g -> (lo <= length g)%nat ->
  is_Some (run pat' s' (g ++ s') (g :: acc)) ->
  is_Some
    (run (AssetParser.sep ++ [GroupOpen; Rep p lo greedy; GroupClose]
          ++ pat')
       (a ++ bar :: b ++ g ++ s') opened acc).
Proof.
  intros Ha Hb Hg Hlo Hrest.
  unfold AssetParser.sep, AssetParser.ws, AssetParser.pipe.
  cbn [app run].
  apply rep_complete; [|exact Ha|lia].
  rewrite is_pipe_bar.
  apply rep_complete; [|exact Hb|lia].
  apply rep_complete; [|exact Hg|exact Hlo].
  rewrite captured. exact Hrest.
Qed.
End Pattern.

Section Strip.
Import Text.

Lemma lstrip_spaces (b x : list ascii) :
  all_in is_space b -> lstrip (b ++ x) = lstrip x.
Proof.
  induction b as [|c b IH]; intros Hb; [reflexivity|].
  apply all_in_cons in Hb as [Hc Hb]. simpl. rewrite Hc. auto.
Qed.

Lemma lstrip_app (x y : list ascii) :
  lstrip (x ++ y) = if forallb is_space x then lstrip y else lstrip x ++ y.
Proof.
  induction x as [|c x IH]; [reflexivity|].
  simpl. destruct (is_space c); [exact IH|reflexivity].
Qed.

Lemma lstrip_all_space (x : list ascii) :
  all_in is_space x -> lstrip x = [].
Proof.
  intros H. rewrite <- (app_nil_r x). rewrite lstrip_spaces; auto.
Qed.

Lemma all_in_rev (p : ascii -> bool) (x : list ascii) :
  all_in p (rev x) <-> all_in p x.
Proof.
  unfold all_in. induction x as [|c x IH]; [reflexivity|].
  simpl. rewrite forallb_app. simpl.
  rewrite andb_true_r, andb_comm, !andb_true_iff, IH. reflexivity.
Qed.

Lemma rstrip_spaces (x a : list ascii) :
  all_in is_space a -> rstrip (x ++ a) = rstrip x.
Proof.
  intros Ha. unfold rstrip. rewrite rev_app_distr, lstrip_spaces; auto.
  apply all_in_rev. exact Ha.
Qed.

(** Blanks around a field do not survive [strip]. *)
Lemma strip_padded (b g a : list ascii) :
  all_in is_space b -> all_in is_space a ->
  strip (b ++ g ++ a) = strip g.
Proof.
  intros Hb Ha. unfold strip. rewrite (lstrip_spaces b _ Hb), lstrip_app.
  destruct (forallb is_space g) eqn:Hg.
  - rewrite (lstrip_all_space a Ha), (lstrip_all_space g Hg). reflexivity.
  - apply rstrip_spaces. exact Ha.
Qed.

Lemma strip_padded_right (g a : list ascii) :
  all_in is_space a -> strip (g ++ a) = strip g.
Proof. intros Ha. apply (strip_padded [] g a); auto. reflexivity. Qed.
End Strip.

Section Segments.
Local Abbreviation bar := ("|"%char).

Lemma pipes_app (x y : list ascii) :
  pipes (x ++ y) = (pipes x + pipes y)%nat.
Proof. induction x as [|c x IH]; simpl; [reflexivity|]. rewrite IH. lia. Qed.

Lemma pipes_class (p : ascii -> bool) (x : list ascii) :
  p bar = false -> all_in p x -> pipes x = 0%nat.
Proof.
  intros Hp. induction x as [|c x IH]; intros H; [reflexivity|].
  apply all_in_cons in H as [Hc H]. simpl. rewrite (IH H).
  destruct (Text.is_pipe c) eqn:E; [|reflexivity].
  apply is_pipe_eq in E. subst c. congruence.
Qed.

Lemma class_not_pipe (p : ascii -> bool) (c : ascii) :
  p bar = false -> p c = true -> Text.is_pipe c = false.
Proof.
  intros Hp Hc. destruct (Text.is_pipe c) eqn:E; [|reflexivity].
  apply is_pipe_eq in E. subst c. congruence.
Qed.

(** The text before the first pipe is determined. *)
Lemma first_pipe_unique (x x' y y' : list ascii) :
  pipes x = 0%nat -> pipes x' = 0%nat ->
  x ++ bar :: y = x' ++ bar :: y' -> x = x' /\ y = y'.
Proof.
  revert x'. induction x as [|c x IH]; intros [|c' x'] Hx Hx' H;
    simpl in *.
  - injection H as ->. auto.
  - injection H as <- _. simpl in Hx'. discriminate.
  - injection H as -> _. simpl in Hx. discriminate.
  - injection H as -> H.
    destruct (Text.is_pipe c'); [discriminate|].
    destruct (IH x' Hx Hx' H) as [-> ->]. auto.
Qed.
End Segments.

Section FilenamePattern.
Import Re.

Local Abbreviation bar := ("|"%char).
Local Abbreviation same_strip t g := (Text.strip t = Text.strip g).

(** What a match of the filename pattern looks like: eight segments
    between seven pipes, each holding one captured group padded with
    blanks. *)
Lemma pattern_sound (s : list ascii) (m : found) :
  re_match AssetParser.pattern s = Some m ->
  exists t1 t2 t3 t4 t5 t6 t7 t8 g1 g2 g3 g4 g5 g6 g7 g8,
    s = join bar [t1; t2; t3; t4; t5; t6; t7; t8]
    /\ fst m = [g1; g2; g3; g4; g5; g6; g7; g8]
    /\ pipes t1 = 0%nat /\ pipes t2 = 0%nat
    /\ same_strip t1 g1 /\ same_strip t2 g2 /\ same_strip t3 g3
    /\ same_strip t4 g4 /\ same_strip t5 g5 /\ same_strip t6 g6
    /\ same_strip t7 g7 /\ same_strip t8 g8.
Proof.
  unfold re_match, AssetParser.pattern, AssetParser.lazy_field.
  intros H. cbn [app run] in H.
  destruct s as [|c1 [|c2 [|c3 [|c4 [|c5 s0]]]]];
    cbn [app run] in H; try discriminate;
    repeat match type of H with
           | (if ?b then _ else _) = _ =>
               let E := fresh "Hc" in
               destruct b eqn:E; [|discriminate]
           end; try discriminate.
  change (c1 :: c2 :: c3 :: c4 :: c5 :: s0)
    with ([c1; c2; c3; c4; c5] ++ s0) in H.
  rewrite captured in H.
  apply field_block_sound in H
    as (a1 & b1 & g2 & s2 & -> & Ha1 & Hb1 & Hg2 & _ & H).
  apply field_block_sound in H
    as (a2 & b2 & g3 & s3 & -> & Ha2 & Hb2 & Hg3 & _ & H).
  apply field_block_sound in H
    as (a3 & b3 & g4 & s4 & -> & Ha3 & Hb3 & Hg4 & _ & H).
  apply field_block_sound in H
    as (a4 & b4 & g5 & s5 & -> & Ha4 & Hb4 & Hg5 & _ & H).
  apply field_block_sound in H
    as (a5 & b5 & g6 & s6 & -> & Ha5 & Hb5 & Hg6 & _ & H).
  apply field_block_sound in H
    as (a6 & b6 & g7 & s7 & -> & Ha6 & Hb6 & Hg7 & _ & H).
  apply (field_block_sound Text.is_dot 1 true [EndAnchor]) in H
    as (a7 & b7 & g8 & s8 & -> & Ha7 & Hb7 & Hg8 & _ & H).
  cbn [run] in H. destruct (at_end s8) eqn:Hend; [|discriminate].
  injection H as <-.
  assert (Hs8 : all_in Text.is_space s8).
  { destruct s8 as [|c [|c' s8]]; try discriminate; [reflexivity|].
    simpl in Hend. unfold Text.is_char in Hend.
    apply Ascii.eqb_eq in Hend. subst c. reflexivity. }
  exists ([c1; c2; c3; c4; c5] ++ a1), (b1 ++ g2 ++ a2), (b2 ++ g3 ++ a3),
    (b3 ++ g4 ++ a4), (b4 ++ g5 ++ a5), (b5 ++ g6 ++ a6),
    (b6 ++ g7 ++ a7), (b7 ++ g8 ++ s8),
    [c1; c2; c3; c4; c5], g2, g3, g4, g5, g6, g7, g8.
  split.
  { cbn [join]. repeat rewrite <- app_assoc. cbn [app]. reflexivity. }
  split; [reflexivity|].
  split.
  { rewrite pipes_app, (pipes_class _ a1 eq_refl Ha1).
    cbn [pipes].
    rewrite (class_not_pipe Text.is_upper c1), (class_not_pipe Text.is_upper c2),
      (class_not_pipe (Text.is_char "-") c3),
      (class_not_pipe Text.is_upper c4), (class_not_pipe Text.is_upper c5);
      auto. }
  split.
  { rewrite !pipes_app, (pipes_class _ b1 eq_refl Hb1),
      (pipes_class _ g2 eq_refl Hg2), (pipes_class _ a2 eq_refl Ha2).
    reflexivity. }
  repeat split; try (apply strip_padded; assumption).
  apply strip_padded_right. assumption.
Qed.

(** Any text of the expected layout matches: the separators take the
    blanks, the groups take the fields. *)
Lemma pattern_complete (c1 c2 l1 l2 : ascii)
    (w1 b code a seg3 seg4 seg5 seg6 seg7 seg8 : list ascii) :
  Text.is_upper c1 = true -> Text.is_upper c2 = true ->
  Text.is_upper l1 = true -> Text.is_upper l2 = true ->
  all_in Text.is_space w1 -> all_in Text.is_space b ->
  all_in Text.is_space a ->
  all_in Text.is_alnum code -> code <> [] ->
  all_in Text.is_dot seg3 -> seg3 <> [] ->
  all_in Text.is_dot seg4 -> seg4 <> [] ->
  all_in Text.is_dot seg5 -> seg5 <> [] ->
  all_in Text.is_dot seg6 -> seg6 <> [] ->
  all_in Text.is_dot seg7 -> seg7 <> [] ->
  all_in Text.is_dot seg8 -> seg8 <> [] ->
  is_Some
    (re_match AssetParser.pattern
       (join bar [c1 :: c2 :: "-"%char :: l1 :: l2 :: w1; b ++ code ++ a;
                  seg3; seg4; seg5; seg6; seg7; seg8])).
Proof.
  intros Hc1 Hc2 Hl1 Hl2 Hw1 Hb Ha Hcode Ncode H3 N3 H4 N4 H5 N5 H6 N6
    H7 N7 H8 N8.
  assert (Hlen : forall x : list ascii, x <> [] -> (1 <= length x)%nat).
  { intros [|c x] Hx; [contradiction|simpl; lia]. }
  unfold re_match, AssetParser.pattern, AssetParser.lazy_field.
  cbn [join app run]. rewrite Hc1, Hc2, Hl1, Hl2.
  change (Text.is_char "-" "-") with true. cbv iota.
  change (c1 :: c2 :: "-"%char :: l1 :: l2 :: ?x)
    with ([c1; c2; "-"%char; l1; l2] ++ x).
  rewrite captured.
  replace (w1 ++ bar :: (b ++ code ++ a) ++ bar :: seg3 ++ bar :: seg4
           ++ bar :: seg5 ++ bar :: seg6 ++ bar :: seg7 ++ bar :: seg8)
    with (w1 ++ bar :: b ++ code
          ++ (a ++ bar :: [] ++ seg3
          ++ ([] ++ bar :: [] ++ seg4
          ++ ([] ++ bar :: [] ++ seg5
          ++ ([] ++ bar :: [] ++ seg6
          ++ ([] ++ bar :: [] ++ seg7
          ++ ([] ++ bar :: [] ++ seg8 ++ [])))))))
    by (cbn [app]; rewrite app_nil_r, <- !app_assoc; reflexivity).
  apply field_block_complete; auto.
  apply field_block_complete; auto using all_in_nil.
  apply field_block_complete; auto using all_in_nil.
  apply field_block_complete; auto using all_in_nil.
  apply field_block_complete; auto using all_in_nil.
  apply field_block_complete; auto using all_in_nil.
  apply (field_block_complete Text.is_dot 1 true [EndAnchor]);
    auto using all_in_nil.
Qed.
End FilenamePattern.

Section Classes.
Import Text.

Lemma class_excludes (p : ascii -> bool) (ch c : ascii) :
  p ch = false -> p c = true -> is_char ch c = false.
Proof.
  intros Hp Hc. unfold is_char. destruct (Ascii.eqb c ch) eqn:E;
    [|reflexivity].
  apply Ascii.eqb_eq in E. subst c. congruence.
Qed.

Lemma contains_cons (ch c : ascii) (x : list ascii) :
  contains ch (c :: x) = is_char ch c || contains ch x.
Proof. reflexivity. Qed.

Lemma all_excludes (p : ascii -> bool) (ch : ascii) (x : list ascii) :
  p ch = false -> all_in p x -> contains ch x = false.
Proof.
  intros Hp. induction x as [|c x IH]; intros H; [reflexivity|].
  apply all_in_cons in H as [Hc H]. unfold contains. simpl.
  rewrite (class_excludes p ch c Hp Hc). apply IH, H.
Qed.

Lemma all_in_weaken (p q : ascii -> bool) (x : list ascii) :
  (forall c, p c = true -> q c = true) -> all_in p x -> all_in q x.
Proof.
  intros Hpq. induction x as [|c x IH]; intros H; [reflexivity|].
  apply all_in_cons in H as [Hc H]. apply all_in_cons. auto.
Qed.

Lemma plain_is_dot (c : ascii) : plain_char c = true -> is_dot c = true.
Proof. unfold plain_char. intros H. apply andb_true_iff in H. tauto. Qed.

Lemma upper_not_space (c : ascii) : is_upper c = true -> is_space c = false.
Proof.
  unfold is_upper, is_space. set (n := code c). clearbody n.
  rewrite andb_true_iff, !Nat.leb_le. intros [H1 H2].
  repeat (apply orb_false_iff; split);
    try (apply andb_false_iff; rewrite !Nat.leb_gt; lia);
    apply Nat.eqb_neq; lia.
Qed.

Lemma alnum_not_space (c : ascii) : is_alnum c = true -> is_space c = false.
Proof.
  unfold is_alnum, is_upper, is_lower, is_digit, is_space.
  set (n := code c). clearbody n.
  rewrite !orb_true_iff, !andb_true_iff, !Nat.leb_le. intros H.
  repeat (apply orb_false_iff; split);
    try (apply andb_false_iff; rewrite !Nat.leb_gt; lia);
    apply Nat.eqb_neq; lia.
Qed.

Lemma lstrip_solid (c : ascii) (x : list ascii) :
  is_space c = false -> lstrip (c :: x) = c :: x.
Proof. intros H. simpl. rewrite H. reflexivity. Qed.

(** A text that neither starts nor ends with a blank is its own strip. *)
Lemma strip_solid (p : ascii -> bool) (x : list ascii) :
  (forall c, p c = true -> is_space c = false) ->
  all_in p x -> strip x = x.
Proof.
  intros Hp Hx. unfold strip, rstrip.
  assert (Hl : forall y, all_in p y -> lstrip y = y).
  { intros [|c y] Hy; [reflexivity|].
    apply all_in_cons in Hy as [Hc _]. apply lstrip_solid, Hp, Hc. }
  rewrite (Hl x Hx), (Hl (rev x)); [apply rev_involutive|].
  apply all_in_rev, Hx.
Qed.

Lemma basename_without_slash (s : list ascii) :
  contains "/" s = false -> basename s = s.
Proof.
  destruct s as [|c s]; [reflexivity|]. intros H.
  cbn [basename]. rewrite H. reflexivity.
Qed.

Lemma pipes_bar (x : list ascii) : pipes ("|"%char :: x) = S (pipes x).
Proof. reflexivity. Qed.
End Classes.

(** C6 as stated fails: these filenames have the documented layout, with
    seven non-empty pipe-free fields after the country-language code, and
    are rejected, the first for a hyphen in the buyout code, the second for
    a slash in a field, the third for a line feed inside a field. *)
Lemma C6_rejected_fields_counterexample :
  AssetParser.parse_filename
    "US-EN | BUY-123 | Summer | Youth | Seller | Image | 30s | jpg" = None
  /\ AssetParser.parse_filename
       "US-EN | BUY123 | Summer/Fall | Youth | Seller | Image | 30s | jpg"
     = None
  /\ AssetParser.parse_filename
       (Text.to_string
          (Text.of_string "US-EN | BUY123 | Sum"
           ++ "010"%char
              :: Text.of_string "mer | Youth | Seller | Image | 30s | jpg"))
     = None
  /\ Forall (fun seg => seg <> [] /\ pipes seg = 0%nat)
       (Text.split "|"
          (Text.of_string
             "US-EN | BUY-123 | Summer | Youth | Seller | Image | 30s | jpg")).
Proof.
  split; [vm_compute; reflexivity|].
  split; [vm_compute; reflexivity|].
  split; [vm_compute; reflexivity|].
  vm_compute. repeat constructor; discriminate.
Qed.

(** C6, amended.  A filename made of a two-uppercase-letter country and
    language joined by a hyphen, followed by seven pipe-delimited fields,
    where the buyout code field holds one or more ASCII letters and digits
    (blanks around it allowed) and each of the other six fields is
    non-empty and free of pipes, slashes and line feeds, is parsed
    successfully, and every returned field is the text between the pipes
    trimmed of surrounding whitespace.  On every filename, the parser
    returns the no-match result exactly when the pattern does not match the
    base name; it has no other failure. *)
Theorem C6_parse_filename (c1 c2 l1 l2 : ascii)
    (w1 b code a seg3 seg4 seg5 seg6 seg7 seg8 : list ascii) :
  Text.is_upper c1 = true -> Text.is_upper c2 = true ->
  Text.is_upper l1 = true -> Text.is_upper l2 = true ->
  all_in Text.is_space w1 -> all_in Text.is_space b ->
  all_in Text.is_space a ->
  all_in Text.is_alnum code -> code <> [] ->
  plain_field seg3 -> plain_field seg4 -> plain_field seg5 ->
  plain_field seg6 -> plain_field seg7 -> plain_field seg8 ->
  let country_language := [c1; c2; "-"%char; l1; l2] in
  let filename :=
    Text.to_string
      (join "|" [country_language ++ w1; b ++ code ++ a;
                 seg3; seg4; seg5; seg6; seg7; seg8]) in
  (exists parsed,
     AssetParser.parse_filename filename = Some parsed
     /\ parsed !! "country_language" = Some (Text.to_string country_language)
     /\ parsed !! "buyout_code" = Some (Text.to_string code)
     /\ parsed !! "concept" = Some (Text.to_string (Text.strip seg3))
     /\ parsed !! "audience" = Some (Text.to_string (Text.strip seg4))
     /\ parsed !! "transaction_side" = Some (Text.to_string (Text.strip seg5))
     /\ parsed !! "asset_format" = Some (Text.to_string (Text.strip seg6))
     /\ parsed !! "duration" = Some (Text.to_string (Text.strip seg7))
     /\ parsed !! "file_format" = Some (Text.to_string (Text.strip seg8))
     /\ parsed !! "original_filename" = Some filename)
  /\ (forall name,
        AssetParser.parse_filename name = None
        <-> Re.re_match AssetParser.pattern
              (Text.basename (Text.of_string name)) = None).
Proof.
  intros Hc1 Hc2 Hl1 Hl2 Hw1 Hb Ha Hcode Ncode [N3 P3] [N4 P4] [N5 P5]
    [N6 P6] [N7 P7] [N8 P8] country_language filename.
  split.
  2:{ intros name. unfold AssetParser.parse_filename.
      destruct (Re.re_match _ _); split; intros H;
        try discriminate; reflexivity. }
  set (s := join "|" [country_language ++ w1; b ++ code ++ a;
                      seg3; seg4; seg5; seg6; seg7; seg8]).
  assert (Hdot : forall seg, all_in plain_char seg -> all_in Text.is_dot seg).
  { intros seg. apply all_in_weaken, plain_is_dot. }
  assert (Hpipe : forall seg, all_in plain_char seg -> pipes seg = 0%nat).
  { intros seg. apply pipes_class. reflexivity. }
  assert (Hslash : forall seg, all_in plain_char seg ->
                               Text.contains "/" seg = false).
  { intros seg. apply all_excludes. reflexivity. }
  (* the base name is the whole filename *)
  assert (Hbase : Text.basename s = s).
  { apply basename_without_slash. unfold s, country_language.
    cbn [join app].
    repeat (rewrite contains_app || rewrite contains_cons).
    rewrite (class_excludes Text.is_upper "/" c1),
      (class_excludes Text.is_upper "/" c2),
      (class_excludes Text.is_upper "/" l1),
      (class_excludes Text.is_upper "/" l2); auto.
    rewrite (all_excludes Text.is_space "/" w1),
      (all_excludes Text.is_space "/" b),
      (all_excludes Text.is_space "/" a),
      (all_excludes Text.is_alnum "/" code), !Hslash; auto. }
  unfold AssetParser.parse_filename. subst filename. fold s.
  rewrite of_to_string, Hbase.
  (* the pattern matches *)
  destruct (Re.re_match AssetParser.pattern s) as [m|] eqn:Hm.
  2:{ exfalso.
      destruct (pattern_complete c1 c2 l1 l2 w1 b code a seg3 seg4 seg5 seg6
                  seg7 seg8) as [m Hm']; auto.
      unfold s, country_language in Hm. cbn [app] in Hm. congruence. }
  (* every match has the same trimmed fields *)
  destruct (pattern_sound s m Hm)
    as (t1 & t2 & t3 & t4 & t5 & t6 & t7 & t8
        & g1 & g2 & g3 & g4 & g5 & g6 & g7 & g8
        & Hs & Hgroups & Ht1 & Ht2 & E1 & E2 & E3 & E4 & E5 & E6 & E7 & E8).
  assert (Zcl : pipes country_language = 0%nat).
  { unfold country_language. cbn [pipes].
    rewrite (class_not_pipe Text.is_upper c1), (class_not_pipe Text.is_upper c2),
      (class_not_pipe Text.is_upper l1), (class_not_pipe Text.is_upper l2);
      auto. }
  pose proof (pipes_class _ w1 eq_refl Hw1) as Zw.
  pose proof (pipes_class _ b eq_refl Hb) as Zb.
  pose proof (pipes_class _ code eq_refl Hcode) as Zc.
  pose proof (pipes_class _ a eq_refl Ha) as Za.
  pose proof (Hpipe _ P3) as Q3. pose proof (Hpipe _ P4) as Q4.
  pose proof (Hpipe _ P5) as Q5. pose proof (Hpipe _ P6) as Q6.
  pose proof (Hpipe _ P7) as Q7. pose proof (Hpipe _ P8) as Q8.
  assert (Hseg1 : pipes (country_language ++ w1) = 0%nat)
    by (rewrite pipes_app; lia).
  assert (Hseg2 : pipes (b ++ code ++ a) = 0%nat)
    by (rewrite !pipes_app; lia).
  unfold s in Hs. cbn [join] in Hs.
  assert (Hcount := f_equal pipes Hs).
  repeat (rewrite pipes_app in Hcount || rewrite pipes_bar in Hcount).
  assert (Hfree : pipes t3 = 0%nat /\ pipes t4 = 0%nat /\ pipes t5 = 0%nat
                  /\ pipes t6 = 0%nat /\ pipes t7 = 0%nat
                  /\ pipes t8 = 0%nat) by lia.
  destruct Hfree as (F3 & F4 & F5 & F6 & F7 & F8).
  apply first_pipe_unique in Hs as [<- Hs]; [|assumption..].
  apply first_pipe_unique in Hs as [<- Hs]; [|assumption..].
  apply first_pipe_unique in Hs as [<- Hs]; [|assumption..].
  apply first_pipe_unique in Hs as [<- Hs]; [|assumption..].
  apply first_pipe_unique in Hs as [<- Hs]; [|assumption..].
  apply first_pipe_unique in Hs as [<- Hs]; [|assumption..].
  apply first_pipe_unique in Hs as [<- <-]; [|assumption..].
  (* read the fields off the dictionary *)
  assert (G1 : Text.strip g1 = country_language).
  { rewrite <- E1, strip_padded_right by exact Hw1.
    apply (strip_solid (fun c => Text.is_upper c || Text.is_char "-" c)).
    - intros c Hc. apply orb_true_iff in Hc as [Hc|Hc].
      + apply upper_not_space, Hc.
      + unfold Text.is_char in Hc. apply Ascii.eqb_eq in Hc. subst c.
        reflexivity.
    - unfold country_language, all_in. simpl.
      rewrite Hc1, Hc2, Hl1, Hl2. reflexivity. }
  assert (G2 : Text.strip g2 = code).
  { rewrite <- E2, strip_padded by assumption.
    apply (strip_solid Text.is_alnum); [apply alnum_not_space|exact Hcode]. }
  eexists. split; [reflexivity|].
  unfold AssetParser.stripped, Re.group. rewrite Hgroups. cbn [nth].
  rewrite G1, G2, <- E3, <- E4, <- E5, <- E6, <- E7, <- E8.
  repeat split;
    repeat (rewrite lookup_insert_ne by discriminate);
    apply lookup_insert_eq.
Qed.

Lemma C6_parse_filename_witness :
  exists parsed,
    AssetParser.parse_filename
      "US-EN | BUY123 | Summer | Youth | Seller | Image | 30s | jpg"
    = Some parsed
    /\ parsed !! "country_language" = Some "US-EN"
    /\ parsed !! "buyout_code" = Some "BUY123"
    /\ parsed !! "concept" = Some "Summer"
    /\ parsed !! "audience" = Some "Youth"
    /\ parsed !! "transaction_side" = Some "Seller"
    /\ parsed !! "asset_format" = Some "Image"
    /\ parsed !! "duration" = Some "30s"
    /\ parsed !! "file_format" = Some "jpg"
    /\ parsed !! "original_filename"
       = Some "US-EN | BUY123 | Summer | Youth | Seller | Image | 30s | jpg".
Proof.
  destruct (C6_parse_filename "U" "S" "E" "N"
              (Text.of_string " ") (Text.of_string " ")
              (Text.of_string "BUY123") (Text.of_string " ")
              (Text.of_string " Summer ") (Text.of_string " Youth ")
              (Text.of_string " Seller ") (Text.of_string " Image ")
              (Text.of_string " 30s ") (Text.of_string " jpg"))
    as [(parsed & Hp & H1 & H2 & H3 & H4 & H5 & H6 & H7 & H8 & H9) _];
    try reflexivity; try discriminate;
    try (split; [discriminate | reflexivity]).
  exists parsed.
  split; [exact Hp|].
  split; [exact H1|]. split; [exact H2|]. split; [exact H3|].
  split; [exact H4|]. split; [exact H5|]. split; [exact H6|].
  split; [exact H7|]. split; [exact H8|]. exact H9.
Defined.

(** * Further properties *)

(** ** Folder hierarchy *)

Section Hierarchy.
Import HierarchySettings.

Lemma insert_level_perm (x : HierarchyLevel) (l : list HierarchyLevel) :
  insert_level x l ≡ₚ x :: l.
Proof.
  induction l as [|y l IH]; simpl; [reflexivity|].
  unfold lt. destruct (Z.ltb (position y) (position x)); [|reflexivity].
  rewrite IH. apply Permutation_swap.
Qed.

Lemma insert_level_ascending (x : HierarchyLevel) (l : list HierarchyLevel) :
  ascending l -> ascending (insert_level x l).
Proof.
  unfold ascending. induction l as [|y l IH]; intros Hs; simpl.
  - constructor; constructor.
  - apply StronglySorted_inv in Hs as [Hs Hy]. unfold lt.
    destruct (Z.ltb_spec (position y) (position x)) as [Hlt|Hge].
    + constructor; [apply IH, Hs|].
      rewrite insert_level_perm. constructor; [lia|exact Hy].
    + constructor; [constructor; assumption|].
      constructor; [exact Hge|].
      eapply Forall_impl; [exact Hy|]. simpl. intros z Hz. lia.
Qed.

Lemma insert_level_at_position (p : Z) (x : HierarchyLevel)
    (l : list HierarchyLevel) :
  at_position p (insert_level x l) = at_position p (x :: l).
Proof.
  unfold at_position. induction l as [|y l IH]; [reflexivity|].
  cbn [insert_level]. unfold lt.
  destruct (Z.ltb_spec (position y) (position x)) as [Hlt|Hge];
    [|reflexivity].
  cbn [List.filter] in *. rewrite IH.
  destruct (Z.eqb_spec (position x) p), (Z.eqb_spec (position y) p);
    try reflexivity.
  lia.
Qed.
End Hierarchy.

Lemma sorted_levels_perm (levels : list HierarchySettings.HierarchyLevel) :
  HierarchySettings.get_sorted_levels levels ≡ₚ levels.
Proof.
  unfold HierarchySettings.get_sorted_levels.
  induction levels as [|x l IH]; simpl; [reflexivity|].
  rewrite insert_level_perm, IH. reflexivity.
Qed.

(** X1. [get_sorted_levels] rearranges the configured levels without
    losing or adding one, and returns them in ascending order of
    position. *)
Theorem X1_sorted_levels_ascending
    (levels : list HierarchySettings.HierarchyLevel) :
  HierarchySettings.get_sorted_levels levels ≡ₚ levels
  /\ ascending (HierarchySettings.get_sorted_levels levels).
Proof.
  split; [apply sorted_levels_perm|].
  unfold HierarchySettings.get_sorted_levels.
  induction levels as [|x l IH]; simpl; [constructor|].
  apply insert_level_ascending, IH.
Qed.

(** X2. The sort is stable: the levels that share a position come out in
    the order in which they were configured. *)
Theorem X2_sorted_levels_stable
    (levels : list HierarchySettings.HierarchyLevel) (p : Z) :
  at_position p (HierarchySettings.get_sorted_levels levels)
  = at_position p levels.
Proof.
  unfold HierarchySettings.get_sorted_levels.
  induction levels as [|x l IH]; [reflexivity|].
  simpl. rewrite insert_level_at_position.
  unfold at_position in *. cbn [List.filter]. rewrite IH. reflexivity.
Qed.

Section Paths.
Import AssetPaths.

Lemma foldl_snoc_fmap {A B} (f : A -> B) (l : list A) (acc : list B) :
  foldl (fun path x => path ++ [f x]) acc l = acc ++ (f <$> l).
Proof.
  revert acc. induction l as [|x l IH]; intros acc; simpl.
  - rewrite app_nil_r. reflexivity.
  - rewrite IH, <- app_assoc. reflexivity.
Qed.

Lemma get_field_value_nonempty (a : Asset.t) (name : string) :
  get_field_value a name <> "".
Proof.
  unfold get_field_value.
  destruct (field_mapping !! name) as [accessor|]; [|discriminate].
  simpl. destruct (String.eqb_spec (accessor a) ""); [discriminate|].
  assumption.
Qed.
End Paths.

(** X3. The hierarchy path has one folder name per configured level, in
    ascending order of position; each name is the asset's value for the
    level's field, and no folder name is empty. *)
Theorem X3_hierarchy_path (asset : Asset.t)
    (levels : list HierarchySettings.HierarchyLevel) :
  AssetPaths.get_hierarchy_path asset levels
  = (fun level =>
       AssetPaths.get_field_value asset (HierarchySettings.field level))
    <$> HierarchySettings.get_sorted_levels levels
  /\ length (AssetPaths.get_hierarchy_path asset levels) = length levels
  /\ Forall (fun name => name <> "")
       (AssetPaths.get_hierarchy_path asset levels).
Proof.
  assert (Hmap : AssetPaths.get_hierarchy_path asset levels
            = (fun level => AssetPaths.get_field_value asset
                              (HierarchySettings.field level))
              <$> HierarchySettings.get_sorted_levels levels).
  { unfold AssetPaths.get_hierarchy_path.
    rewrite (foldl_snoc_fmap
               (fun level => AssetPaths.get_field_value asset
                               (HierarchySettings.field level))).
    reflexivity. }
  split; [exact Hmap|]. rewrite Hmap. split.
  - rewrite length_fmap.
    apply Permutation_length, sorted_levels_perm.
  - apply Forall_fmap, Forall_forall. intros level _.
    apply get_field_value_nonempty.
Qed.

Lemma known_fields_only (name : string) :
  name ∉ known_fields -> AssetPaths.field_mapping !! name = None.
Proof.
  intros Hname. unfold AssetPaths.field_mapping.
  repeat (rewrite lookup_insert_ne;
          [|intros <-; apply Hname; unfold known_fields;
            repeat (first [apply list_elem_of_here
                          |apply list_elem_of_further])]).
  apply lookup_empty.
Qed.

(** X4. A field name outside the ten known names resolves to the
    placeholder "Unset", whatever the asset. *)
Theorem X4_unknown_field_unset (asset : Asset.t) (name : string) :
  name ∉ known_fields -> AssetPaths.get_field_value asset name = "Unset".
Proof.
  intros Hname. unfold AssetPaths.get_field_value.
  rewrite (known_fields_only name Hname). reflexivity.
Qed.

Lemma X4_unknown_field_unset_witness :
  AssetPaths.get_field_value
    (Asset.make "f" "US" "EN" "BUY123" "c" "a" "t" "f" "d" "jpg")
    "file_format" = "Unset".
Proof.
  apply X4_unknown_field_unset. unfold known_fields.
  intros H. repeat (apply elem_of_cons in H as [H|H]; [discriminate|]).
  inversion H.
Defined.

Lemma contains_split (sep : ascii) (s : list ascii) :
  Text.contains sep s = true ->
  exists x rest, s = x ++ sep :: rest /\ Text.contains sep x = false.
Proof.
  induction s as [|c s IH]; [discriminate|].
  rewrite contains_cons. destruct (Text.is_char sep c) eqn:Hc.
  - intros _. exists [], s. split; [|reflexivity].
    unfold Text.is_char in Hc. apply Ascii.eqb_eq in Hc. subst c.
    reflexivity.
  - simpl. intros H. destruct (IH H) as (x & rest & -> & Hx).
    exists (c :: x), rest. split; [reflexivity|].
    rewrite contains_cons, Hc, Hx. reflexivity.
Qed.

(** X5. [extract_country] returns a hyphen free prefix of its argument: the
    text before the first hyphen, or the whole argument when there is no
    hyphen.  With a hyphen it agrees with the country of the asset built
    by [create_asset_from_parsed_data]; without one the two differ, the
    asset getting an empty country. *)
Theorem X5_extract_country (country_language filename : string) :
  let cl := Text.of_string country_language in
  let country := Text.of_string (AssetPaths.extract_country country_language) in
  let a := AssetParser.create_asset_from_parsed_data filename
             {[ "country_language" := country_language ]} in
  Text.contains "-" country = false
  /\ (exists rest, cl = country ++ rest)
  /\ (Text.contains "-" cl = true ->
      Asset.country a = AssetPaths.extract_country country_language)
  /\ (Text.contains "-" cl = false ->
      AssetPaths.extract_country country_language = country_language
      /\ Asset.country a = "").
Proof.
  intros cl country a. subst country a.
  unfold AssetPaths.extract_country,
    AssetParser.create_asset_from_parsed_data, AssetParser.hyphen_part,
    AssetParser.get.
  rewrite lookup_singleton_eq. simpl. fold cl.
  destruct (Text.contains "-" cl) eqn:Hcl.
  - destruct (contains_split _ _ Hcl) as (x & rest & Hsplit & Hx).
    rewrite Hsplit, (split_at_first _ _ _ Hx). simpl.
    rewrite of_to_string. repeat split.
    + exact Hx.
    + exists ("-"%char :: rest). reflexivity.
    + discriminate.
    + discriminate.
  - repeat split.
    + exact Hcl.
    + exists []. rewrite app_nil_r. reflexivity.
    + discriminate.
Qed.

Lemma X5_extract_country_witness :
  AssetPaths.extract_country "UK-EN" = "UK"
  /\ Asset.country
       (AssetParser.create_asset_from_parsed_data "f"
          {[ "country_language" := "UK-EN" ]}) = "UK".
Proof.
  destruct (X5_extract_country "UK-EN" "f") as (_ & _ & H & _).
  split; [reflexivity|]. rewrite H; reflexivity.
Defined.

(** ** The validation report *)

Lemma reasons_of_invalid (a : Asset.t) :
  Asset.is_valid a = false ->
  AssetValidator.get_validation_failure_reasons a <> [].
Proof.
  unfold Asset.is_valid, AssetValidator.get_validation_failure_reasons.
  destruct (Asset.is_valid_name a); [|discriminate].
  destruct (Asset.is_buyout_valid a); [|discriminate].
  simpl. intros H.
  destruct (Asset.is_privacy_compliant a) as [[|]|];
    [discriminate| |];
    destruct (Asset.quality_score a) as [q|];
    try destruct (Qle_bool q 5); discriminate.
Qed.

(** X6. An asset that is not valid always gets at least one failure
    reason. *)
Theorem X6_invalid_has_reason (a : Asset.t) :
  Asset.is_valid a = false ->
  AssetValidator.get_validation_failure_reasons a <> [].
Proof. apply reasons_of_invalid. Qed.

Lemma X6_invalid_has_reason_witness :
  AssetValidator.get_validation_failure_reasons
    (Asset.make "f" "US" "EN" "BUY123" "c" "a" "t" "f" "d" "jpg") <> [].
Proof. apply X6_invalid_has_reason. reflexivity. Defined.

Lemma poke_other (r r' : ref) (f : Asset.t -> Asset.t) (w : World) :
  r' <> r -> heap (poke r f w) r' = heap w r'.
Proof.
  intros H. unfold poke. simpl.
  destruct (Nat.eqb_spec r' r); [contradiction|reflexivity].
Qed.

Section ValidatorRun.
Variable env : Env.

(** The shape of every run of [validate_asset]. *)
Lemma validate_asset_run (r : ref) (image_path : string)
    (buyout_data : gmap string string) (w : World) (v : AssetValidator.t) :
  exists w' q p,
    let ok :=
      fst (AssetValidator.validate_buyout_code env (heap w r) buyout_data
             (w, v)) in
    let checked :=
      Asset.set_is_privacy_compliant p
        (Asset.set_quality_score q
           (Asset.set_is_buyout_valid ok
              (Asset.set_is_valid_name
                 (AssetValidator.validate_asset_name (heap w r))
                 (heap w r)))) in
    AssetValidator.validate_asset env r image_path buyout_data (w, v)
    = (r, (w', reported (heap w' r) v))
    /\ heap w' r = (if ok then checked else Asset.set_budget 0 checked)
    /\ (forall r', r' <> r -> heap w' r' = heap w r')
    /\ (ok = true -> ads_calls w' = ads_calls w).
Proof.
  unfold AssetValidator.validate_asset.
  unfold bind at 1. rewrite load_run.
  unfold bind at 1. rewrite assign_run.
  set (w1 := poke r _ w).
  unfold bind at 1. rewrite load_run.
  destruct (validate_buyout_code_run env (heap w1 r) buyout_data w1 v)
    as (w2 & Hrun2 & Hheap2).
  rewrite (validate_buyout_code_verdict env (heap w1 r) (heap w r)
             buyout_data w1 w v v) in Hrun2;
    [|unfold w1; rewrite poke_same; reflexivity | reflexivity].
  set (ok := fst (AssetValidator.validate_buyout_code env (heap w r)
                    buyout_data (w, v))) in *.
  assert (Hcalls2 : ads_calls w2 = ads_calls w).
  { revert Hrun2. unfold AssetValidator.validate_buyout_code.
    destruct (String.eqb _ ""); [intros H; injection H as _ <-; reflexivity|].
    destruct (buyout_data !! _) as [s|];
      [|intros H; injection H as _ <-; reflexivity].
    destruct (String.eqb s ""); [intros H; injection H as _ <-; reflexivity|].
    destruct (AssetValidator.parse_expiration _ s);
      [|intros H; injection H as _ <-; reflexivity].
    unfold bind. cbn [now].
    destruct (datetime_gtb _ _); intros H; injection H as _ <-; reflexivity. }
  unfold bind at 1. rewrite Hrun2.
  unfold bind at 1. rewrite assign_run.
  set (w3 := poke r _ w2).
  destruct (validate_image_quality_run env image_path 3 w3 v)
    as ([q p] & w4 & Hrun4 & Hheap4 & Hcalls4 & _).
  unfold bind at 1. rewrite Hrun4.
  unfold bind at 1. rewrite assign_run.
  unfold bind at 1. rewrite assign_run.
  set (w6 := poke r _ (poke r _ w4)).
  assert (Hr6 : heap w6 r
                = Asset.set_is_privacy_compliant p
                    (Asset.set_quality_score q
                       (Asset.set_is_buyout_valid ok
                          (Asset.set_is_valid_name
                             (AssetValidator.validate_asset_name (heap w r))
                             (heap w r))))).
  { unfold w6. rewrite !poke_same. cbn [fst snd]. rewrite Hheap4.
    unfold w3. rewrite poke_same, Hheap2. unfold w1. rewrite poke_same.
    reflexivity. }
  assert (Hother6 : forall r', r' <> r -> heap w6 r' = heap w r').
  { intros r' Hr'. unfold w6. rewrite !poke_other by exact Hr'.
    rewrite Hheap4. unfold w3. rewrite poke_other by exact Hr'.
    rewrite Hheap2. unfold w1. rewrite poke_other by exact Hr'.
    reflexivity. }
  assert (Hcalls6 : ads_calls w6 = ads_calls w).
  { unfold w6. simpl. rewrite Hcalls4. unfold w3. simpl. exact Hcalls2. }
  unfold bind at 1. rewrite load_run.
  assert (Hok6 : Asset.is_buyout_valid (heap w6 r) = ok)
    by (rewrite Hr6; reflexivity).
  rewrite Hok6.
  destruct ok eqn:Eok; cbn [negb].
  - unfold bind at 1. cbn [ret].
    unfold bind at 1. rewrite load_run.
    unfold bind at 1. cbn [get_self]. unfold bind at 1.
    exists w6, q, p. cbn zeta. split; [|auto].
    unfold reported. destruct (Asset.is_valid (heap w6 r)); reflexivity.
  - destruct (update_asset_budget_run env r true w6 v)
      as (pushed & w7 & Hrun7 & Hheap7).
    unfold bind at 1. unfold bind at 1. rewrite Hrun7, assign_run.
    set (w8 := poke r _ w7).
    unfold bind at 1. rewrite load_run.
    unfold bind at 1. cbn [get_self]. unfold bind at 1.
    exists w8, q, p. cbn zeta. split; [|split; [|split]].
    + unfold reported. destruct (Asset.is_valid (heap w8 r)); reflexivity.
    + unfold w8. rewrite poke_same, Hheap7, Hr6. reflexivity.
    + intros r' Hr'. unfold w8. rewrite poke_other by exact Hr'.
      rewrite Hheap7. apply Hother6, Hr'.
    + discriminate.
Qed.
End ValidatorRun.

(** X7. Each call of [validate_asset] returns the asset it was given and
    adds exactly one entry to the validation report: the filename goes to
    the valid list when the validated asset is valid, and otherwise to the
    invalid list together with a non-empty list of reasons.  The error list
    is never written. *)
Theorem X7_validate_asset_reports_once (env : Env) (r : ref)
    (image_path : string) (buyout_data : gmap string string) (w : World)
    (v : AssetValidator.t) :
  exists w' v',
    AssetValidator.validate_asset env r image_path buyout_data (w, v)
    = (r, (w', v'))
    /\ ValidationReport.total_assets (ValidationReport.get_validation_report v')
       = S (ValidationReport.total_assets
              (ValidationReport.get_validation_report v))
    /\ ValidationReport.error_details (ValidationReport.get_validation_report v')
       = ValidationReport.error_details
           (ValidationReport.get_validation_report v)
    /\ (Asset.is_valid (heap w' r) = true ->
        AssetValidator.valid v'
        = AssetValidator.valid v ++ [Asset.filename (heap w r)]
        /\ AssetValidator.invalid v' = AssetValidator.invalid v)
    /\ (Asset.is_valid (heap w' r) = false ->
        AssetValidator.valid v' = AssetValidator.valid v
        /\ exists reasons,
             reasons <> []
             /\ AssetValidator.invalid v'
                = AssetValidator.invalid v
                  ++ [(Asset.filename (heap w r), reasons)]).
Proof.
  destruct (validate_asset_run env r image_path buyout_data w v)
    as (w' & q & p & Hrun & Hr & _).
  cbn zeta in Hrun, Hr.
  assert (Hname : Asset.filename (heap w' r) = Asset.filename (heap w r)).
  { rewrite Hr. destruct (fst _); reflexivity. }
  exists w', (reported (heap w' r) v). split; [exact Hrun|].
  unfold reported, ValidationReport.get_validation_report.
  destruct (Asset.is_valid (heap w' r)) eqn:Hvalid; cbn;
    rewrite ?length_app, ?Hname; cbn.
  - repeat split; try discriminate; lia.
  - repeat split; try discriminate; try lia.
    eexists. split; [|reflexivity]. apply reasons_of_invalid, Hvalid.
Qed.


Lemma X7_validate_asset_reports_once_witness :
  exists w' v',
    AssetValidator.validate_asset
      (example_env AdsRaises
         (AnalyzerText (Some (JsonObject (Some 8%Q) (Some (Some true))))))
      0%nat "image.jpg" {[ "BUY123" := "31/12/2099" ]}
      (example_world, AssetValidator.init)
    = (0%nat, (w', v'))
    /\ AssetValidator.valid v' = [Asset.filename example_asset]
    /\ AssetValidator.invalid v' = [].
Proof.
  destruct (X7_validate_asset_reports_once
              (example_env AdsRaises
                 (AnalyzerText
                    (Some (JsonObject (Some 8%Q) (Some (Some true))))))
              0%nat "image.jpg" {[ "BUY123" := "31/12/2099" ]}
              example_world AssetValidator.init)
    as (w' & v' & Hrun & _ & _ & Hvalid & _).
  exists w', v'. split; [exact Hrun|].
  apply Hvalid.
  assert (Hw : w' = fst (snd (AssetValidator.validate_asset
      (example_env AdsRaises
         (AnalyzerText (Some (JsonObject (Some 8%Q) (Some (Some true))))))
      0%nat "image.jpg" {[ "BUY123" := "31/12/2099" ]}
      (example_world, AssetValidator.init))))
    by (rewrite Hrun; reflexivity).
  rewrite Hw. vm_compute. reflexivity.
Defined.


(** ** Image analysis *)

Section ImageQuality.
Variable env : Env.

(** The loop makes at most [remaining] analyzer calls. *)
Lemma analyze_loop_calls (max_retries : nat) (bytes : list ascii)
    (v : AssetValidator.t) :
  forall remaining attempt w qp w' v',
    AssetValidator.analyze_loop env max_retries remaining attempt bytes
      (w, v) = (qp, (w', v')) ->
    (analyzer_calls w <= analyzer_calls w' <= analyzer_calls w + remaining)%nat.
Proof.
  induction remaining as [|n IH]; intros attempt w qp w' v' H.
  - injection H as _ <- _. lia.
  - cbn [AssetValidator.analyze_loop] in H. unfold bind at 1 in H.
    cbn [call_analyzer] in H.
    destruct (analyze_image env (analyzer_calls w) bytes)
      as [|[[q p|]|]| |];
      try (apply IH in H; simpl in H; lia);
      try (injection H as _ <- _; simpl; lia).
    destruct (Nat.eqb attempt (max_retries - 1)).
    + injection H as _ <- _. simpl. lia.
    + apply IH in H. simpl in H. lia.
Qed.

(** The first usable answer decides, when only retryable answers come
    before it. *)
Lemma analyze_loop_first_object (max_retries : nat) (bytes : list ascii)
    (v : AssetValidator.t) (q : option Q) (p : option (option bool)) :
  forall k remaining attempt w,
    (k < remaining)%nat -> (attempt + remaining <= max_retries)%nat ->
    (forall j, (j < k)%nat ->
               retryable (analyze_image env (analyzer_calls w + j) bytes)) ->
    analyze_image env (analyzer_calls w + k) bytes
    = AnalyzerText (Some (JsonObject q p)) ->
    AssetValidator.analyze_loop env max_retries remaining attempt bytes (w, v)
    = ((q, default (Some false) p),
       (mkWorld (heap w) (ads_calls w) (clock_reads w)
          (analyzer_calls w + S k), v)).
Proof.
  induction k as [|k IH]; intros remaining attempt w Hk Hmax Hretry Hobj;
    (destruct remaining as [|n]; [lia|]).
  - rewrite Nat.add_0_r in Hobj.
    cbn [AssetValidator.analyze_loop]. unfold bind at 1.
    cbn [call_analyzer]. rewrite Hobj. cbn [ret].
    rewrite Nat.add_1_r. reflexivity.
  - assert (H0 := Hretry 0%nat ltac:(lia)). rewrite Nat.add_0_r in H0.
    set (w1 := mkWorld (heap w) (ads_calls w) (clock_reads w)
                 (S (analyzer_calls w))).
    assert (Hrec :
      AssetValidator.analyze_loop env max_retries n (S attempt) bytes (w1, v)
      = ((q, default (Some false) p),
         (mkWorld (heap w) (ads_calls w) (clock_reads w)
            (analyzer_calls w + S (S k)), v))).
    { rewrite (IH n (S attempt) w1); try lia.
      - unfold w1. simpl. do 3 f_equal. lia.
      - intros j Hj. unfold w1. simpl.
        replace (S (analyzer_calls w + j)) with (analyzer_calls w + S j)%nat
          by lia.
        apply Hretry. lia.
      - unfold w1. simpl.
        replace (S (analyzer_calls w + k)) with (analyzer_calls w + S k)%nat
          by lia.
        exact Hobj. }
    cbn [AssetValidator.analyze_loop]. unfold bind at 1.
    cbn [call_analyzer]. fold w1.
    destruct (analyze_image env (analyzer_calls w) bytes)
      as [|[[q' p'|]|]| |]; try contradiction; try exact Hrec.
    replace (Nat.eqb attempt (max_retries - 1)) with false
      by (symmetry; apply Nat.eqb_neq; lia).
    exact Hrec.
Qed.
End ImageQuality.

(** X9. [validate_image_quality] calls the analyzer at most [max_retries]
    times and touches nothing but the analyzer; when the image file does
    not exist or cannot be read it makes no call at all and reports
    [(None, None)]. *)
Theorem X9_image_quality_bounded (env : Env) (image_path : string)
    (max_retries : nat) (w : World) (v : AssetValidator.t) :
  exists qp w',
    AssetValidator.validate_image_quality env image_path max_retries (w, v)
    = (qp, (w', v))
    /\ heap w' = heap w /\ ads_calls w' = ads_calls w
    /\ clock_reads w' = clock_reads w
    /\ (analyzer_calls w <= analyzer_calls w'
        <= analyzer_calls w + max_retries)%nat
    /\ (path_exists env image_path = false
        \/ read_file env image_path = None ->
        qp = (None, None) /\ analyzer_calls w' = analyzer_calls w).
Proof.
  destruct (validate_image_quality_run env image_path max_retries w v)
    as (qp & w' & Hrun & Hheap & Hads & Hclock).
  exists qp, w'. repeat split; try assumption.
  - revert Hrun. unfold AssetValidator.validate_image_quality.
    destruct (negb _); [intros H; injection H as _ <-; lia|].
    destruct (read_file env image_path);
      [|intros H; injection H as _ <-; lia].
    intros H. apply analyze_loop_calls in H. lia.
  - revert Hrun. unfold AssetValidator.validate_image_quality.
    destruct (negb _); [intros H; injection H as _ <-; lia|].
    destruct (read_file env image_path);
      [|intros H; injection H as _ <-; lia].
    intros H. apply analyze_loop_calls in H. lia.
  - revert Hrun. unfold AssetValidator.validate_image_quality.
    destruct H as [H|H]; rewrite H; simpl.
    + intros E. injection E as <- _. reflexivity.
    + destruct (negb _); intros E; injection E as <- _; reflexivity.
  - revert Hrun. unfold AssetValidator.validate_image_quality.
    destruct H as [H|H]; rewrite H; simpl.
    + intros E. injection E as _ <-. reflexivity.
    + destruct (negb _); intros E; injection E as _ <-; reflexivity.
Qed.

Lemma X9_image_quality_bounded_witness :
  exists w',
    AssetValidator.validate_image_quality
      (mkEnv (fun _ _ _ _ => AdsRaises)
         (fun _ => mkDatetime 2026 11 4 0 0 0 0)
         (fun _ _ => AnalyzerOpenAiError) (fun _ => false) (fun _ => None))
      "missing.jpg" 3 (example_world, AssetValidator.init)
    = ((None, None), (w', AssetValidator.init))
    /\ analyzer_calls w' = 0%nat.
Proof.
  destruct (X9_image_quality_bounded
              (mkEnv (fun _ _ _ _ => AdsRaises)
                 (fun _ => mkDatetime 2026 11 4 0 0 0 0)
                 (fun _ _ => AnalyzerOpenAiError) (fun _ => false)
                 (fun _ => None))
              "missing.jpg" 3 example_world AssetValidator.init)
    as (qp & w' & Hrun & _ & _ & _ & _ & H).
  destruct H as [-> Hcalls]; [left; reflexivity|].
  exists w'. split; [exact Hrun|exact Hcalls].
Defined.

(** X10. When the image can be read and, among the first [max_retries]
    answers of the analyzer, the first one that is not an empty result,
    malformed text or a transient analyzer error is a JSON object, the
    validation returns that object's quality and privacy (privacy false
    when the object has no such key) and stops calling. *)
Theorem X10_first_usable_answer (env : Env) (image_path : string)
    (max_retries k : nat) (bytes : list ascii) (q : option Q)
    (p : option (option bool)) (w : World) (v : AssetValidator.t) :
  path_exists env image_path = true ->
  read_file env image_path = Some bytes ->
  (k < max_retries)%nat ->
  (forall j, (j < k)%nat ->
             retryable (analyze_image env (analyzer_calls w + j) bytes)) ->
  analyze_image env (analyzer_calls w + k) bytes
  = AnalyzerText (Some (JsonObject q p)) ->
  AssetValidator.validate_image_quality env image_path max_retries (w, v)
  = ((q, default (Some false) p),
     (mkWorld (heap w) (ads_calls w) (clock_reads w)
        (analyzer_calls w + S k), v)).
Proof.
  intros Hexists Hread Hk Hretry Hobj.
  unfold AssetValidator.validate_image_quality.
  rewrite Hexists, Hread. cbn [negb].
  apply analyze_loop_first_object; auto.
Qed.

Lemma X10_first_usable_answer_witness :
  fst (AssetValidator.validate_image_quality
         (mkEnv (fun _ _ _ _ => AdsRaises)
            (fun _ => mkDatetime 2026 11 4 0 0 0 0)
            (fun n _ => match n with
                        | 0%nat => AnalyzerOpenAiError
                        | 1%nat => AnalyzerText None
                        | _ => AnalyzerText
                                 (Some (JsonObject (Some (17 # 2)) None))
                        end)
            (fun _ => true) (fun _ => Some []))
         "image.jpg" 3 (example_world, AssetValidator.init))
  = (Some (17 # 2), Some false).
Proof.
  rewrite (X10_first_usable_answer _ "image.jpg" 3 2 [] (Some (17 # 2)) None
             example_world AssetValidator.init);
    try reflexivity.
  - lia.
  - intros [|[|j]] Hj; simpl; try exact I. lia.
Defined.

(** ** Budget pushes *)

Lemma failed_or_succeeded (resp : AdsResponse) :
  ads_failed resp \/ ads_succeeded resp.
Proof.
  destruct resp as [payload|]; simpl; [|left; exact I].
  destruct (has_error payload); auto.
Qed.

Lemma failed_not_succeeded (resp : AdsResponse) :
  ads_failed resp -> ads_succeeded resp -> False.
Proof. destruct resp; simpl; [congruence|auto]. Qed.

(** Either some attempt among the first [n] is the first success, or all
    of them fail. *)
Lemma success_or_exhaustion (env : Env) (r : ref) (new_budget : Z)
    (w : World) (n : nat) :
  (exists k, (k < n)%nat /\ first_success env r new_budget w k)
  \/ (forall k, (k < n)%nat -> ads_failed (answer env r new_budget w k)).
Proof.
  induction n as [|n [(k & Hk & Hs)|Hall]].
  - right. intros k Hk. lia.
  - left. exists k. split; [lia|exact Hs].
  - destruct (failed_or_succeeded (answer env r new_budget w n)) as [Hf|Hs].
    + right. intros k Hk. destruct (Nat.eq_dec k n) as [->|Hne]; [exact Hf|].
      apply Hall. lia.
    + left. exists n. split; [lia|]. split; [|exact Hs].
      intros j Hj. apply Hall, Hj.
Qed.

Section PushLoop.
Variable env : Env.
Variables (r : ref) (new_budget : Z) (v : AssetValidator.t).

Lemma push_loop_calls (max_retries : nat) :
  forall remaining attempt w ok w' v',
    AssetValidator.push_loop env max_retries remaining attempt r new_budget
      (w, v) = (ok, (w', v')) ->
    (ads_calls w <= ads_calls w' <= ads_calls w + remaining)%nat.
Proof.
  induction remaining as [|n IH]; intros attempt w ok w' v' H.
  - injection H as _ <- _. lia.
  - cbn [AssetValidator.push_loop] in H. unfold bind at 1 in H.
    rewrite load_run in H. unfold bind at 1 in H. cbn [call_ads] in H.
    destruct (ads_api env (ads_calls w) _ _ new_budget) as [payload|].
    + destruct (has_error payload).
      * destruct (Nat.eqb attempt (max_retries - 1)).
        -- injection H as _ <- _. simpl. lia.
        -- apply IH in H. simpl in H. lia.
      * injection H as _ <- _. simpl. lia.
    + destruct (Nat.eqb attempt (max_retries - 1)).
      * injection H as _ <- _. simpl. lia.
      * apply IH in H. simpl in H. lia.
Qed.

Lemma push_loop_all_fail (max_retries : nat) :
  forall remaining attempt w,
    (forall k, (k < remaining)%nat ->
               ads_failed (answer env r new_budget w k)) ->
    fst (AssetValidator.push_loop env max_retries remaining attempt r
           new_budget (w, v)) = false.
Proof.
  induction remaining as [|n IH]; intros attempt w Hfail; [reflexivity|].
  assert (H0 := Hfail 0%nat ltac:(lia)).
  unfold answer in H0. rewrite Nat.add_0_r in H0.
  set (w1 := mkWorld (heap w) (S (ads_calls w)) (clock_reads w)
               (analyzer_calls w)).
  assert (Hrec := IH (S attempt) w1).
  cbn [AssetValidator.push_loop]. unfold bind at 1. rewrite load_run.
  unfold bind at 1. cbn [call_ads]. fold w1.
  assert (Hshift : forall k, (k < n)%nat ->
                     ads_failed (answer env r new_budget w1 k)).
  { intros k Hk. unfold w1. rewrite answer_shift. apply Hfail. lia. }
  destruct (ads_api env (ads_calls w) _ _ new_budget) as [payload|].
  - simpl in H0. rewrite H0.
    destruct (Nat.eqb attempt (max_retries - 1)); [reflexivity|].
    apply Hrec, Hshift.
  - destruct (Nat.eqb attempt (max_retries - 1)); [reflexivity|].
    apply Hrec, Hshift.
Qed.

Lemma push_loop_first_success (max_retries : nat) :
  forall k remaining attempt w,
    (k < remaining)%nat -> (attempt + remaining <= max_retries)%nat ->
    first_success env r new_budget w k ->
    AssetValidator.push_loop env max_retries remaining attempt r new_budget
      (w, v)
    = (true, (mkWorld (heap w) (ads_calls w + S k) (clock_reads w)
                (analyzer_calls w), v)).
Proof.
  induction k as [|k IH]; intros remaining attempt w Hk Hmax [Hfail Hok];
    (destruct remaining as [|n]; [lia|]).
  - unfold answer in Hok. rewrite Nat.add_0_r in Hok.
    cbn [AssetValidator.push_loop]. unfold bind at 1. rewrite load_run.
    unfold bind at 1. cbn [call_ads].
    destruct (ads_api env (ads_calls w) _ _ new_budget) as [payload|];
      [|contradiction].
    simpl in Hok. rewrite Hok. cbn [ret]. rewrite Nat.add_1_r. reflexivity.
  - assert (H0 := Hfail 0%nat ltac:(lia)).
    unfold answer in H0. rewrite Nat.add_0_r in H0.
    set (w1 := mkWorld (heap w) (S (ads_calls w)) (clock_reads w)
                 (analyzer_calls w)).
    assert (Hrec :
      AssetValidator.push_loop env max_retries n (S attempt) r new_budget
        (w1, v)
      = (true, (mkWorld (heap w) (ads_calls w + S (S k)) (clock_reads w)
                  (analyzer_calls w), v))).
    { rewrite (IH n (S attempt) w1); try lia.
      - unfold w1. simpl. do 3 f_equal. lia.
      - split.
        + intros j Hj. unfold w1. rewrite answer_shift. apply Hfail. lia.
        + unfold w1. rewrite answer_shift. exact Hok. }
    assert (Hstep : Nat.eqb attempt (max_retries - 1) = false)
      by (apply Nat.eqb_neq; lia).
    cbn [AssetValidator.push_loop]. unfold bind at 1. rewrite load_run.
    unfold bind at 1. cbn [call_ads]. fold w1. rewrite Hstep.
    destruct (ads_api env (ads_calls w) _ _ new_budget) as [payload|].
    + simpl in H0. rewrite H0. exact Hrec.
    + exact Hrec.
Qed.
End PushLoop.

(** X11. The validator's budget push makes no call when the asset lacks
    [ad_id] or [file_id], and at most three calls otherwise; it returns
    [True] exactly when both identifiers are present and one of the three
    attempts succeeds, stopping at the first success; it never changes an
    asset.  With [set_to_zero] the budget sent is 0, otherwise the asset's
    budget. *)
Theorem X11_validator_push (env : Env) (r : ref) (set_to_zero : bool)
    (w : World) (v : AssetValidator.t) :
  let a := heap w r in
  let new_budget := if set_to_zero then 0 else Asset.budget a in
  let present :=
    truthy_str (Asset.ad_id a) = true /\ truthy_str (Asset.file_id a) = true in
  exists ok w',
    AssetValidator.update_asset_budget env r set_to_zero (w, v)
    = (ok, (w', v))
    /\ heap w' = heap w
    /\ (ads_calls w <= ads_calls w' <= ads_calls w + 3)%nat
    /\ (~ present -> ok = false /\ ads_calls w' = ads_calls w)
    /\ (ok = true <->
        present
        /\ exists k, (k < 3)%nat /\ first_success env r new_budget w k)
    /\ (forall k, present -> (k < 3)%nat ->
                  first_success env r new_budget w k ->
                  ads_calls w' = (ads_calls w + S k)%nat).
Proof.
  intros a new_budget present.
  unfold AssetValidator.update_asset_budget, bind at 1.
  rewrite load_run. fold a. subst present.
  destruct (truthy_str (Asset.ad_id a)) eqn:Had; cbn [negb].
  2:{ exists false, w. split; [reflexivity|]. split; [reflexivity|].
      split; [lia|]. split; [intros _; split; reflexivity|].
      split; [split; [discriminate | intros [[H1 H2] _]; congruence]|].
      intros k [H1 H2]. congruence. }
  destruct (truthy_str (Asset.file_id a)) eqn:Hfile; cbn [negb].
  2:{ exists false, w. split; [reflexivity|]. split; [reflexivity|].
      split; [lia|]. split; [intros _; split; reflexivity|].
      split; [split; [discriminate | intros [[H1 H2] _]; congruence]|].
      intros k [H1 H2]. congruence. }
  fold new_budget.
  destruct (success_or_exhaustion env r new_budget w 3)
    as [(k & Hk & Hs)|Hall].
  - rewrite (push_loop_first_success env r new_budget v 3 k 3 0 w Hk
               ltac:(lia) Hs).
    do 2 eexists. split; [reflexivity|]. simpl.
    repeat split; try lia; try tauto.
    + exists k. auto.
    + intros k' _ Hk' [Hf' Hs'].
      destruct Hs as [Hf Hs0].
      destruct (Nat.lt_trichotomy k k') as [Hlt|[->|Hgt]]; [|reflexivity|].
      * exfalso. apply (failed_not_succeeded _ (Hf' k Hlt) Hs0).
      * exfalso. apply (failed_not_succeeded _ (Hf k' Hgt) Hs').
  - destruct (push_loop_run env 3 r new_budget v 3 0 w)
      as (ok & w' & Hrun & Hheap).
    pose proof (push_loop_all_fail env r new_budget v 3 3 0 w Hall) as Hfalse.
    pose proof (push_loop_calls env r new_budget v 3 3 0 w _ _ _ Hrun)
      as Hcalls.
    rewrite Hrun in Hfalse. simpl in Hfalse. subst ok.
    exists false, w'. split; [exact Hrun|].
    repeat split; try assumption; try lia; try tauto; try discriminate.
    + intros [_ (k & Hk & _ & Hs)]. exfalso.
      apply (failed_not_succeeded _ (Hall k Hk) Hs).
    + intros k _ Hk [_ Hs]. exfalso.
      apply (failed_not_succeeded _ (Hall k Hk) Hs).
Qed.

Lemma X11_validator_push_witness :
  exists w',
    AssetValidator.update_asset_budget
      (mkEnv (fun n _ _ _ => match n with
                             | 0%nat => AdsRaises
                             | _ => AdsReply {[ "status" := "SUCCESS" ]}
                             end)
         (fun _ => mkDatetime 2026 11 4 0 0 0 0) (fun _ _ => AnalyzerEmpty)
         (fun _ => true) (fun _ => Some []))
      0%nat true (example_world, AssetValidator.init)
    = (true, (w', AssetValidator.init))
    /\ ads_calls w' = 2%nat.
Proof.
  destruct (X11_validator_push
      (mkEnv (fun n _ _ _ => match n with
                             | 0%nat => AdsRaises
                             | _ => AdsReply {[ "status" := "SUCCESS" ]}
                             end)
         (fun _ => mkDatetime 2026 11 4 0 0 0 0) (fun _ _ => AnalyzerEmpty)
         (fun _ => true) (fun _ => Some []))
      0%nat true example_world AssetValidator.init)
    as (ok & w' & Hrun & _ & _ & _ & Hok & Hcalls).
  assert (Hfirst : first_success
      (mkEnv (fun n _ _ _ => match n with
                             | 0%nat => AdsRaises
                             | _ => AdsReply {[ "status" := "SUCCESS" ]}
                             end)
         (fun _ => mkDatetime 2026 11 4 0 0 0 0) (fun _ _ => AnalyzerEmpty)
         (fun _ => true) (fun _ => Some []))
      0%nat 0 example_world 1).
  { split; [|reflexivity]. intros [|j] Hj; [exact I|lia]. }
  assert (Hpresent :
    truthy_str (Asset.ad_id (heap example_world 0%nat)) = true
    /\ truthy_str (Asset.file_id (heap example_world 0%nat)) = true)
    by (split; reflexivity).
  assert (ok = true) as ->.
  { apply Hok. split; [exact Hpresent|]. exists 1%nat. split; [lia|].
    exact Hfirst. }
  exists w'. split; [exact Hrun|].
  apply (Hcalls 1%nat Hpresent ltac:(lia) Hfirst).
Defined.

(** ** Grouping by ad *)

Section Grouping.
Import BudgetManager.

Lemma find_group_insert (k key : string) (r : ref)
    (groups : list (string * list ref)) :
  find_group k (group_insert key r groups)
  = if String.eqb key k
    then Some (default [] (find_group key groups) ++ [r])
    else find_group k groups.
Proof.
  induction groups as [|[k0 g0] gs IH]; simpl.
  - destruct (String.eqb key k); reflexivity.
  - destruct (String.eqb_spec k0 key) as [->|Hk0]; simpl.
    + destruct (String.eqb key k); reflexivity.
    + rewrite IH. destruct (String.eqb_spec k0 k) as [->|Hk0k].
      * destruct (String.eqb_spec key k) as [->|_]; [contradiction|].
        reflexivity.
      * reflexivity.
Qed.

Lemma find_group_elem (k : string) (g : list ref)
    (groups : list (string * list ref)) :
  find_group k groups = Some g -> (k, g) ∈ groups.
Proof.
  induction groups as [|[k0 g0] gs IH]; simpl; [discriminate|].
  destruct (String.eqb_spec k0 k) as [->|_].
  - intros H. injection H as ->. left.
  - intros H. right. apply IH, H.
Qed.

Lemma find_group_none (k : string) (groups : list (string * list ref)) :
  find_group k groups = None <-> k ∉ groups.*1.
Proof.
  induction groups as [|[k0 g0] gs IH]; simpl.
  - split; [intros _ H; inversion H|reflexivity].
  - rewrite not_elem_of_cons.
    destruct (String.eqb_spec k0 k) as [->|Hne].
    + split; [discriminate|]. intros [H _]. contradiction.
    + rewrite IH. split; [intros H; split; [congruence|exact H]|].
      intros [_ H]. exact H.
Qed.

Lemma elem_find_group (k : string) (g : list ref)
    (groups : list (string * list ref)) :
  NoDup groups.*1 -> (k, g) ∈ groups -> find_group k groups = Some g.
Proof.
  induction groups as [|[k0 g0] gs IH]; simpl; intros Hnd Hin.
  - inversion Hin.
  - apply NoDup_cons in Hnd as [Hk0 Hnd].
    apply elem_of_cons in Hin as [Heq|Hin].
    + injection Heq as -> ->. rewrite String.eqb_refl. reflexivity.
    + destruct (String.eqb_spec k0 k) as [->|_]; [|apply IH; assumption].
      exfalso. apply Hk0. apply list_elem_of_fmap. exists (k, g). auto.
Qed.

Lemma group_insert_keys (key : string) (r : ref)
    (groups : list (string * list ref)) :
  (group_insert key r groups).*1
  = match find_group key groups with
    | Some _ => groups.*1
    | None => groups.*1 ++ [key]
    end.
Proof.
  induction groups as [|[k0 g0] gs IH]; [reflexivity|].
  cbn [group_insert find_group]. destruct (String.eqb k0 key).
  - reflexivity.
  - rewrite !fmap_cons, IH. destruct (find_group key gs); reflexivity.
Qed.

Lemma group_insert_keys_nodup (key : string) (r : ref)
    (groups : list (string * list ref)) :
  NoDup groups.*1 -> NoDup (group_insert key r groups).*1.
Proof.
  intros Hnd. rewrite group_insert_keys.
  destruct (find_group key groups) eqn:E; [exact Hnd|].
  apply NoDup_app. split; [exact Hnd|]. split; [|apply NoDup_singleton].
  intros x Hx Hx'. apply list_elem_of_singleton in Hx'. subst x.
  apply find_group_none in E. contradiction.
Qed.

Lemma members_of_snoc (h : ref -> Asset.t) (k : string) (seen : list ref)
    (r : ref) :
  members_of h k (seen ++ [r])
  = members_of h k seen ++ (if has_ad h k r then [r] else []).
Proof. unfold members_of. rewrite List.filter_app. reflexivity. Qed.

Lemma nonempty_snoc {A} (l : list A) (x : A) :
  nonempty (l ++ [x]) = Some (default [] (nonempty l) ++ [x]).
Proof. destruct l; reflexivity. Qed.

(** The dictionary built so far holds, under each key, the assets of that
    ad seen so far. *)
Lemma group_fold_find (h : ref -> Asset.t) :
  forall rest seen groups,
    NoDup groups.*1 ->
    (forall k, find_group k groups = nonempty (members_of h k seen)) ->
    let result :=
      fold_left
        (fun ad_assets r =>
           match Asset.ad_id (h r) with
           | Some key =>
               if truthy_str (Some key)
               then group_insert key r ad_assets
               else ad_assets
           | None => ad_assets
           end) rest groups in
    NoDup result.*1
    /\ forall k, find_group k result = nonempty (members_of h k (seen ++ rest)).
Proof.
  induction rest as [|r rest IH]; intros seen groups Hnd Hfind.
  - cbn zeta. simpl. rewrite app_nil_r. auto.
  - cbn zeta. cbn [fold_left].
    replace (seen ++ r :: rest) with ((seen ++ [r]) ++ rest)
      by (rewrite <- app_assoc; reflexivity).
    apply IH.
    + destruct (Asset.ad_id (h r)) as [key|]; [|exact Hnd].
      destruct (truthy_str (Some key)); [|exact Hnd].
      apply group_insert_keys_nodup, Hnd.
    + intros k. rewrite members_of_snoc. unfold has_ad.
      destruct (Asset.ad_id (h r)) as [key|] eqn:Ead.
      2:{ rewrite app_nil_r. apply Hfind. }
      unfold truthy_str.
      destruct (String.eqb_spec key "") as [->|Hkey]; cbn [negb].
      * destruct (String.eqb_spec "" k) as [<-|Hk]; simpl;
          rewrite app_nil_r; apply Hfind.
      * rewrite find_group_insert.
        destruct (String.eqb_spec key k) as [->|Hk]; simpl.
        -- destruct (String.eqb_spec k "") as [->|_]; [contradiction|].
           simpl. rewrite nonempty_snoc, Hfind. reflexivity.
        -- rewrite app_nil_r. apply Hfind.
Qed.
End Grouping.

(** X12. [group_assets_by_ad] builds one group per non-empty ad id: the
    keys are pairwise distinct, and a pair [(key, group)] is in the result
    exactly when [group] is the non-empty list of all the assets carrying
    that ad id, in the order of the input.  So no group is empty, assets
    without an ad id are in no group, and every asset with an ad id is in
    the group of its ad. *)
Theorem X12_groups_partition (h : ref -> Asset.t) (assets : list ref) :
  let groups := BudgetManager.group_assets_by_ad h assets in
  NoDup groups.*1
  /\ (forall key group,
        (key, group) ∈ groups
        <-> group <> [] /\ group = members_of h key assets)
  /\ (forall r key,
        r ∈ assets -> Asset.ad_id (h r) = Some key -> key <> "" ->
        exists group, (key, group) ∈ groups /\ r ∈ group).
Proof.
  cbn zeta. unfold BudgetManager.group_assets_by_ad.
  destruct (group_fold_find h assets [] []) as [Hnd Hfind].
  { constructor. }
  { intros k. reflexivity. }
  cbn zeta in Hnd, Hfind. simpl in Hfind.
  split; [exact Hnd|].
  assert (Hiff : forall key group,
    (key, group) ∈ fold_left
        (fun ad_assets r =>
           match Asset.ad_id (h r) with
           | Some key =>
               if truthy_str (Some key)
               then BudgetManager.group_insert key r ad_assets
               else ad_assets
           | None => ad_assets
           end) assets []
    <-> group <> [] /\ group = members_of h key assets).
  { intros key group. split.
    - intros Hin. apply (elem_find_group _ _ _ Hnd) in Hin.
      rewrite Hfind in Hin.
      destruct (members_of h key assets) as [|x l]; [discriminate|].
      injection Hin as <-. split; [discriminate|reflexivity].
    - intros [Hne ->]. apply find_group_elem. rewrite Hfind.
      destruct (members_of h key assets); [contradiction|reflexivity]. }
  split; [exact Hiff|].
  intros r key Hr Had Hkey.
  assert (Hmem : r ∈ members_of h key assets).
  { unfold members_of. apply list_elem_of_In, List.filter_In.
    split; [apply list_elem_of_In, Hr|].
    unfold has_ad. rewrite Had, String.eqb_refl.
    destruct (String.eqb_spec key ""); [contradiction|reflexivity]. }
  exists (members_of h key assets). split; [|exact Hmem].
  apply Hiff. split; [|reflexivity].
  intros E. rewrite E in Hmem. inversion Hmem.
Qed.

Lemma X12_groups_partition_witness :
  let h := fun r : ref =>
             Asset.set_ids (if Nat.even r then Some "ad1" else Some "ad2")
               (Some "file") example_asset in
  exists group,
    (("ad2" : string), group)
    ∈ BudgetManager.group_assets_by_ad h [0; 1; 2; 3]%nat
    /\ 3%nat ∈ group.
Proof.
  intros h.
  apply (proj2 (proj2 (X12_groups_partition h [0; 1; 2; 3]%nat))).
  - repeat constructor.
  - reflexivity.
  - discriminate.
Defined.

(** ** Ranking *)

Section RankingMore.
Import BudgetManager.

Lemma insert_desc_ranked (x : ref * Q) (l : list (ref * Q)) :
  ranked l -> ranked (insert_desc x l).
Proof.
  unfold ranked. induction l as [|y l IH]; intros Hs; simpl.
  - constructor; constructor.
  - apply StronglySorted_inv in Hs as [Hs Hy].
    destruct (Qlt_le_dec (snd x) (snd y)) as [Hlt|Hge].
    + constructor; [apply IH, Hs|].
      rewrite insert_desc_perm. constructor; [|exact Hy].
      apply Qlt_le_weak, Hlt.
    + constructor; [constructor; assumption|].
      constructor; [exact Hge|].
      eapply Forall_impl; [exact Hy|]. simpl. intros z Hz.
      eapply Qle_trans; [exact Hz|exact Hge].
Qed.

Lemma sort_desc_ranked (l : list (ref * Q)) : ranked (sort_desc l).
Proof.
  unfold sort_desc. induction l as [|x l IH]; simpl; [constructor|].
  apply insert_desc_ranked, IH.
Qed.

(** In a ranked list an earlier entry scores at least as much as a later
    one. *)
Lemma ranked_lookup (l : list (ref * Q)) (i j : nat) (x y : ref * Q) :
  ranked l -> (i <= j)%nat -> l !! i = Some x -> l !! j = Some y ->
  (snd y <= snd x)%Q.
Proof.
  unfold ranked. intros Hs. revert i j.
  induction Hs as [|z l Hs IH Hz]; intros i j Hij Hi Hj.
  - rewrite lookup_nil in Hi. discriminate.
  - destruct i as [|i], j as [|j]; simpl in Hi, Hj.
    + injection Hi as <-. injection Hj as <-. apply Qle_refl.
    + injection Hi as <-. rewrite Forall_forall in Hz.
      apply Hz. apply list_elem_of_lookup. eauto.
    + lia.
    + apply (IH i j); [lia|assumption..].
Qed.

Lemma scored_all (h : ref -> Asset.t) (group : list ref) :
  Forall (fun x => Asset.performance_score (h (fst x)) = Some (snd x))
    (omap (fun r => match Asset.performance_score (h r) with
                    | Some score => Some (r, score)
                    | None => None
                    end) group).
Proof.
  induction group as [|r l IH]; [constructor|].
  match goal with |- Forall _ (omap ?g _) => set (f := g) in * end.
  change (omap f (r :: l)) with
    (match f r with Some y => y :: omap f l | None => omap f l end).
  unfold f at 1. unfold Asset.performance_score at 1.
  constructor; [reflexivity|exact IH].
Qed.

Lemma quartile_within (n : nat) :
  (1 <= n)%nat -> (Nat.max 1 (n / 4) <= n)%nat.
Proof.
  intros Hn.
  assert (H4 : (4 * (n / 4) <= n)%nat) by (apply Nat.Div0.mul_div_le).
  lia.
Qed.

(** The outliers are the two ends of the ranking of the whole group. *)
Lemma outliers_are_ends (h : ref -> Asset.t) (group : list ref) :
  group <> [] ->
  exists sorted,
    let k := Nat.max 1 (length group / 4) in
    identify_performance_outliers h group
    = (fst <$> take k sorted, fst <$> drop (length group - k) sorted)
    /\ ranked sorted
    /\ fst <$> sorted ≡ₚ group
    /\ Forall (fun x => Asset.performance_score (h (fst x)) = Some (snd x))
         sorted.
Proof.
  intros Hne. unfold identify_performance_outliers.
  destruct group as [|r0 group0] eqn:Hgroup; [contradiction|].
  rewrite <- Hgroup in *. clear Hgroup r0 group0.
  pose proof (scored_refs h group) as Hrefs.
  pose proof (scored_all h group) as Hall.
  set (scored := omap _ group) in *.
  assert (Hlen : length scored = length group)
    by (rewrite <- (length_fmap fst scored), Hrefs; reflexivity).
  destruct scored as [|p scored0] eqn:Hscored.
  { destruct group; [contradiction|discriminate]. }
  rewrite <- Hscored in *. clear Hscored p scored0.
  assert (Hslen : length (sort_desc scored) = length group)
    by (rewrite sort_desc_perm; exact Hlen).
  exists (sort_desc scored). cbn zeta. unfold last_n. rewrite Hslen.
  split; [reflexivity|]. split; [apply sort_desc_ranked|].
  split; [rewrite sort_desc_perm, Hrefs; reflexivity|].
  rewrite sort_desc_perm. exact Hall.
Qed.
End RankingMore.

(** X13. On a non-empty list [identify_performance_outliers] returns
    [max(1, n // 4)] top performers and as many low performers, all taken
    from the list; on the empty list it returns two empty lists. *)
Theorem X13_outlier_counts (h : ref -> Asset.t) (assets : list ref) :
  let top := fst (BudgetManager.identify_performance_outliers h assets) in
  let low := snd (BudgetManager.identify_performance_outliers h assets) in
  (assets = [] -> top = [] /\ low = [])
  /\ (assets <> [] ->
      length top = Nat.max 1 (length assets / 4)
      /\ length low = Nat.max 1 (length assets / 4)
      /\ top ⊆ assets /\ low ⊆ assets).
Proof.
  cbn zeta. split; [intros ->; split; reflexivity|].
  intros Hne.
  destruct (outliers_are_ends h assets Hne)
    as (sorted & Hout & _ & Hperm & _).
  cbn zeta in Hout. rewrite Hout. cbn [fst snd].
  assert (Hlen : length sorted = length assets)
    by (rewrite <- Hperm, length_fmap; reflexivity).
  assert (Hk : (Nat.max 1 (length assets / 4) <= length assets)%nat).
  { apply quartile_within. destruct assets; [contradiction|simpl; lia]. }
  rewrite !length_fmap, length_take, length_drop, Hlen.
  split; [lia|]. split; [lia|].
  split; intros x Hx; rewrite <- Hperm.
  - rewrite <- fmap_take in Hx || idtac.
    apply list_elem_of_fmap in Hx as (y & -> & Hy).
    apply list_elem_of_fmap. exists y. split; [reflexivity|].
    apply (subseteq_take _ _ _ Hy).
  - apply list_elem_of_fmap in Hx as (y & -> & Hy).
    apply list_elem_of_fmap. exists y. split; [reflexivity|].
    apply (subseteq_drop _ _ _ Hy).
Qed.

Lemma X13_outlier_counts_witness :
  let h := fun r : ref =>
             Asset.set_metrics (Some (Z.of_nat (10 + r))) (Some 1000)
               (Some 1) example_asset in
  length (fst (BudgetManager.identify_performance_outliers h
                 [0; 1; 2; 3; 4; 5; 6; 7; 8]%nat)) = 2%nat
  /\ length (snd (BudgetManager.identify_performance_outliers h
                    [0; 1; 2; 3; 4; 5; 6; 7; 8]%nat)) = 2%nat.
Proof.
  intros h.
  destruct (proj2 (X13_outlier_counts h [0; 1; 2; 3; 4; 5; 6; 7; 8]%nat))
    as (Htop & Hlow & _); [discriminate|].
  split; [exact Htop|exact Hlow].
Defined.

(** X14. Every top performer scores at least as much as every low
    performer of the same list. *)
Theorem X14_top_outranks_low (h : ref -> Asset.t) (assets : list ref)
    (t l : ref) (score_t score_l : Q) :
  t ∈ fst (BudgetManager.identify_performance_outliers h assets) ->
  l ∈ snd (BudgetManager.identify_performance_outliers h assets) ->
  Asset.performance_score (h t) = Some score_t ->
  Asset.performance_score (h l) = Some score_l ->
  (score_l <= score_t)%Q.
Proof.
  destruct assets as [|r0 rest] eqn:Hassets.
  { intros H. inversion H. }
  rewrite <- Hassets. assert (Hne : assets <> []) by (subst; discriminate).
  clear Hassets r0 rest.
  destruct (outliers_are_ends h assets Hne)
    as (sorted & Hout & Hranked & Hperm & Hall).
  cbn zeta in Hout. rewrite Hout. cbn [fst snd].
  assert (Hlen : length sorted = length assets)
    by (rewrite <- Hperm, length_fmap; reflexivity).
  set (k := Nat.max 1 (length assets / 4)) in *.
  intros Ht Hl Hst Hsl.
  apply list_elem_of_fmap in Ht as ([t' st'] & Et & Ht).
  apply list_elem_of_fmap in Hl as ([l' sl'] & El & Hl).
  simpl in Et, El. subst t' l'.
  apply elem_of_take in Ht as (i & Hi & Hik).
  apply list_elem_of_lookup in Hl as (j0 & Hj).
  rewrite lookup_drop in Hj.
  rewrite Forall_forall in Hall.
  assert (Hst' : Asset.performance_score (h t) = Some st').
  { apply (Hall (t, st')). apply list_elem_of_lookup. eauto. }
  assert (Hsl' : Asset.performance_score (h l) = Some sl').
  { apply (Hall (l, sl')). apply list_elem_of_lookup. eauto. }
  assert (st' = score_t) as <- by congruence.
  assert (sl' = score_l) as <- by congruence.
  assert (Hn : (1 <= length assets)%nat)
    by (destruct assets; [contradiction|simpl; lia]).
  assert (Hij : (i <= length assets - k + j0)%nat).
  { destruct (Nat.le_gt_cases 2 (length assets)) as [H2|H1].
    - pose proof (quartile_fits (length assets) H2). fold k in H. lia.
    - assert (length assets = 1%nat) as E by lia.
      unfold k in Hik. rewrite E in Hik. simpl in Hik. lia. }
  apply (ranked_lookup sorted i (length assets - k + j0) (t, st') (l, sl')
           Hranked Hij Hi Hj).
Qed.

Lemma X14_top_outranks_low_witness :
  let h := fun r : ref =>
             Asset.set_metrics (Some (Z.of_nat (10 + r))) (Some 1000)
               (Some 1) example_asset in
  (64840 # 1100000 <= 64000 # 1000000)%Q.
Proof.
  intros h.
  apply (X14_top_outranks_low h [0; 1]%nat 0%nat 1%nat).
  - vm_compute. left.
  - vm_compute. left.
  - vm_compute. reflexivity.
  - vm_compute. reflexivity.
Defined.

(** ** Every outcome of a budget update *)

Section ManagerUpdate.
Variable env : Env.
Variables (r : ref) (factor : Q) (reason : string).

(** The loop makes at most as many calls as it has attempts left. *)
Lemma update_loop_calls (new_budget : Z) :
  forall remaining attempt w self ok w' self',
    BudgetManager.update_loop env remaining attempt r new_budget factor
      reason (w, self) = (ok, (w', self')) ->
    (ads_calls w <= ads_calls w' <= ads_calls w + remaining)%nat.
Proof.
  induction remaining as [|n IH]; intros attempt w self ok w' self' H.
  - injection H as _ <- _. lia.
  - cbn [BudgetManager.update_loop] in H. unfold bind at 1 in H.
    rewrite load_run in H. unfold bind at 1 in H. cbn [call_ads] in H.
    unfold bind at 1 in H. cbn [get_self] in H.
    destruct (ads_api env (ads_calls w) _ _ new_budget) as [payload|].
    + destruct (has_error payload).
      * destruct (Nat.eqb attempt _).
        -- injection H as _ <- _. simpl. lia.
        -- apply IH in H. simpl in H. lia.
      * cbn in H. injection H as _ <- _. simpl. lia.
    + destruct (Nat.eqb attempt _).
      * injection H as _ <- _. simpl. lia.
      * apply IH in H. simpl in H. lia.
Qed.

(** An update fails, leaving everything but the call counter as it was,
    or succeeds at its first successful attempt, or raises before any
    attempt because the scaled budget overflows. *)
Lemma manager_update_outcome (st : BudgetManager.St) :
  let scaled := scaled_budget factor (fst st) r in
  let limit := BudgetManager.max_retries (snd st) in
  (exists calls,
     BudgetManager.update_asset_budget env r factor reason st
     = (Returned false, called calls st)
     /\ (ads_calls (fst st) <= calls <= ads_calls (fst st) + limit)%nat
     /\ (~ ids_present (heap (fst st) r) -> calls = ads_calls (fst st))
     /\ (ids_present (heap (fst st) r) ->
         exists new_budget,
           scaled = Some new_budget
           /\ forall k, (k < limit)%nat ->
                        ads_failed (answer env r new_budget (fst st) k)))
  \/ (exists new_budget k,
        BudgetManager.update_asset_budget env r factor reason st
        = (Returned true, updated env r new_budget factor reason k st)
        /\ ids_present (heap (fst st) r)
        /\ scaled = Some new_budget
        /\ (k < limit)%nat
        /\ first_success env r new_budget (fst st) k)
  \/ (BudgetManager.update_asset_budget env r factor reason st
      = (Raised OverflowError, st)
      /\ ids_present (heap (fst st) r)
      /\ scaled = None).
Proof.
  destruct st as [w self]. cbn [fst snd]. cbn zeta.
  rewrite !manager_update_unfold. unfold ids_present, scaled_budget.
  destruct (truthy_str (Asset.ad_id (heap w r))) eqn:Had; cbn [negb orb].
  2:{ left. exists (ads_calls w). unfold called. cbn [fst snd].
      split; [destruct w; reflexivity|]. split; [lia|].
      split; [reflexivity|]. intros [H _]. discriminate. }
  destruct (truthy_str (Asset.file_id (heap w r))) eqn:Hfile; cbn [negb].
  2:{ left. exists (ads_calls w). unfold called. cbn [fst snd].
      split; [destruct w; reflexivity|]. split; [lia|].
      split; [reflexivity|]. intros [_ H]. discriminate. }
  destruct (Float64.scale (Asset.budget (heap w r)) factor)
    as [new_budget|] eqn:Hscale.
  2:{ right. right. split; [reflexivity|]. split; [split|]; reflexivity. }
  destruct (success_or_exhaustion env r new_budget w
              (BudgetManager.max_retries self)) as [(k & Hk & Hs)|Hall].
  - right. left. exists new_budget, k. destruct Hs as [Hf Hs].
    rewrite (update_loop_first_success env r new_budget factor reason self
               k (BudgetManager.max_retries self) 0%nat w Hk
               (Nat.le_refl _) Hf Hs).
    split; [reflexivity|]. split; [split; reflexivity|].
    split; [reflexivity|]. split; [exact Hk|]. split; assumption.
  - left.
    destruct (update_loop_all_fail env r new_budget factor reason self
                (BudgetManager.max_retries self) 0%nat w Hall)
      as [calls Hrun].
    pose proof (update_loop_calls new_budget _ _ _ _ _ _ _ Hrun) as Hcalls.
    exists calls. rewrite Hrun. split; [reflexivity|]. simpl in Hcalls.
    split; [exact Hcalls|]. split; [intros H; exfalso; apply H; auto|].
    intros _. exists new_budget. split; [reflexivity|exact Hall].
Qed.
End ManagerUpdate.

(** X15. [BudgetManager.update_asset_budget] for any factor.  It makes at
    most [max_retries] calls, and none without both identifiers.  It
    raises [OverflowError], before any call, exactly when both identifiers
    are present and [int(budget * factor)] overflows.  It returns [True]
    exactly when both identifiers are present, the new budget is computed
    and some attempt within [max_retries] is the first to succeed; then
    the asset's budget is the new budget, its previous budget the old one,
    the reason is stored, and one change record carrying these values is
    appended.  In every other case no asset and no list of the manager
    changes; no other asset ever changes. *)
Theorem X15_manager_update (env : Env) (r : ref) (factor : Q)
    (reason : string) (w : World) (self : BudgetManager.t) :
  let a := heap w r in
  let scaled := Float64.scale (Asset.budget a) factor in
  exists out w' self',
    BudgetManager.update_asset_budget env r factor reason (w, self)
    = (out, (w', self'))
    /\ (ads_calls w <= ads_calls w'
        <= ads_calls w + BudgetManager.max_retries self)%nat
    /\ (~ ids_present a -> out = Returned false /\ ads_calls w' = ads_calls w)
    /\ (out = Raised OverflowError <-> ids_present a /\ scaled = None)
    /\ (out = Raised OverflowError -> ads_calls w' = ads_calls w)
    /\ (out = Returned true <->
        ids_present a
        /\ exists new_budget k,
             scaled = Some new_budget
             /\ (k < BudgetManager.max_retries self)%nat
             /\ first_success env r new_budget w k)
    /\ (forall r', r' <> r -> heap w' r' = heap w r')
    /\ descriptive (heap w' r) = descriptive a
    /\ (out = Returned true ->
        exists new_budget c,
          scaled = Some new_budget
          /\ Asset.budget (heap w' r) = new_budget
          /\ Asset.previous_budget (heap w' r) = Some (Asset.budget a)
          /\ Asset.budget_update_reason (heap w' r) = Some reason
          /\ BudgetManager.budget_changes self'
             = BudgetManager.budget_changes self ++ [c]
          /\ BudgetManager.skipped_assets self'
             = BudgetManager.skipped_assets self
          /\ BudgetManager.unchanged_assets self'
             = BudgetManager.unchanged_assets self
          /\ BudgetManager.ch_filename c = Asset.filename a
          /\ BudgetManager.ch_ad_id c = Asset.ad_id a
          /\ BudgetManager.ch_previous_budget c = Some (Asset.budget a)
          /\ BudgetManager.ch_new_budget c = new_budget
          /\ BudgetManager.ch_adjustment_factor c = factor
          /\ BudgetManager.ch_reason c = reason)
    /\ (out <> Returned true -> heap w' = heap w /\ self' = self).
Proof.
  intros a scaled. subst scaled a.
  destruct (manager_update_outcome env r factor reason (w, self))
    as [(calls & Hrun & Hcalls & Hnone & Hall)
       |[(new_budget & k & Hrun & Hids & Hscale & Hk & Hs)
        |(Hrun & Hids & Hscale)]];
    cbn [fst snd] in *; unfold scaled_budget in *;
    rewrite Hrun; unfold called, updated; cbn [fst snd].
  - exists (Returned false). do 2 eexists. split; [reflexivity|].
    cbn [heap ads_calls].
    split; [exact Hcalls|].
    split; [intros H; split; [reflexivity|exact (Hnone H)]|].
    split.
    { split; [discriminate|]. intros [Hids Hnone'].
      destruct (Hall Hids) as (nb & Hnb & _). congruence. }
    split; [discriminate|].
    split.
    { split; [discriminate|].
      intros [Hids (nb & k & Hnb & Hk & _ & Hs)]. exfalso.
      destruct (Hall Hids) as (nb' & Hnb' & Hfail). assert (nb' = nb) as -> by congruence.
      apply (failed_not_succeeded _ (Hfail k Hk) Hs). }
    split; [reflexivity|]. split; [reflexivity|].
    split; [discriminate|]. intros _. split; reflexivity.
  - exists (Returned true). do 2 eexists. split; [reflexivity|].
    cbn [heap ads_calls BudgetManager.budget_changes
         BudgetManager.skipped_assets BudgetManager.unchanged_assets].
    split; [lia|]. split; [intros H; contradiction|].
    split.
    { split; [discriminate|]. intros [_ Hnone]. congruence. }
    split; [discriminate|].
    split.
    { split; [|reflexivity]. intros _. split; [exact Hids|].
      exists new_budget, k. auto. }
    unfold updated_heap.
    split.
    { intros r' Hr'. apply Nat.eqb_neq in Hr'. rewrite Hr'. reflexivity. }
    rewrite Nat.eqb_refl.
    split; [reflexivity|].
    split; [|intros H; contradiction].
    intros _. exists new_budget. eexists.
    split; [exact Hscale|]. repeat split; reflexivity.
  - exists (Raised OverflowError), w, self. split; [reflexivity|].
    split; [lia|]. split; [intros H; contradiction|].
    split; [split; [intros _; split; assumption|reflexivity]|].
    split; [reflexivity|].
    split.
    { split; [discriminate|]. intros [_ (nb & k & Hnb & _)].
      congruence. }
    split; [reflexivity|]. split; [reflexivity|].
    split; [discriminate|]. intros _. split; reflexivity.
Qed.

Lemma X15_manager_update_witness :
  exists w' self' c,
    BudgetManager.update_asset_budget
      (example_env (AdsReply {[ "status" := "SUCCESS" ]}) AnalyzerEmpty)
      0%nat (Float64.literal (12 # 10)) "Top performer"
      (example_world, BudgetManager.init)
    = (Returned true, (w', self'))
    /\ Asset.budget (heap w' 0%nat) = 120
    /\ BudgetManager.budget_changes self' = [c]
    /\ BudgetManager.ch_previous_budget c = Some 100.
Proof.
  destruct (X15_manager_update
              (example_env (AdsReply {[ "status" := "SUCCESS" ]})
                 AnalyzerEmpty)
              0%nat (Float64.literal (12 # 10)) "Top performer"
              example_world BudgetManager.init)
    as (out & w' & self' & Hrun & _ & _ & _ & _ & Hok & _ & _ & Htrue & _).
  assert (Hscale : Float64.scale (Asset.budget (heap example_world 0%nat))
                     (Float64.literal (12 # 10)) = Some 120)
    by (vm_compute; reflexivity).
  assert (out = Returned true) as ->.
  { apply Hok. split; [split; reflexivity|]. exists 120, 0%nat.
    split; [exact Hscale|]. split; [simpl; lia|].
    split; [intros j Hj; lia|reflexivity]. }
  destruct (Htrue eq_refl)
    as (nb & c & Hnb & Hb & _ & _ & Hc & _ & _ & _ & _ & Hp & _).
  exists w', self', c. split; [exact Hrun|].
  split; [rewrite Hb; congruence|].
  split; [exact Hc|exact Hp].
Defined.

(** ** What a whole adjustment run preserves *)

Section GroupMembers.
Import BudgetManager.

Lemma groups_are_members (h : ref -> Asset.t) (assets : list ref)
    (key : string) (group : list ref) :
  (key, group) ∈ group_assets_by_ad h assets ->
  group = members_of h key assets /\ group <> [].
Proof.
  unfold group_assets_by_ad.
  destruct (group_fold_find h assets [] []) as [Hnd Hfind].
  { constructor. }
  { intros k. reflexivity. }
  cbn zeta in Hnd, Hfind. simpl in Hfind.
  intros Hin. apply (elem_find_group _ _ _ Hnd) in Hin.
  rewrite Hfind in Hin.
  destruct (members_of h key assets) as [|x l]; [discriminate|].
  injection Hin as <-. split; [reflexivity|discriminate].
Qed.

Lemma members_subset (h : ref -> Asset.t) (key : string)
    (assets : list ref) (r : ref) :
  r ∈ members_of h key assets -> r ∈ assets.
Proof.
  unfold members_of. intros H. apply list_elem_of_In in H.
  apply List.filter_In in H as [H _]. apply list_elem_of_In, H.
Qed.

Lemma outliers_subset (h : ref -> Asset.t) (group : list ref) (r : ref) :
  r ∈ fst (identify_performance_outliers h group)
  \/ r ∈ snd (identify_performance_outliers h group) ->
  r ∈ group.
Proof.
  destruct group as [|r0 rest] eqn:Hgroup.
  { simpl. intros [H|H]; inversion H. }
  rewrite <- Hgroup. assert (Hne : group <> []) by (subst; discriminate).
  clear Hgroup r0 rest.
  destruct (outliers_are_ends h group Hne) as (sorted & Hout & _ & Hperm & _).
  cbn zeta in Hout. rewrite Hout. cbn [fst snd]. rewrite <- Hperm.
  intros [H|H]; apply list_elem_of_fmap in H as (y & -> & Hy);
    apply list_elem_of_fmap; exists y; (split; [reflexivity|]).
  - apply (subseteq_take _ _ _ Hy).
  - apply (subseteq_drop _ _ _ Hy).
Qed.

(** The filter keeps the assets with an ad id, in order, and changes no
    asset. *)
Lemma filter_assets_run :
  forall assets valid_assets w self,
  exists dropped,
    filter_assets assets valid_assets (w, self)
    = (valid_assets
       ++ List.filter (fun r => truthy_str (Asset.ad_id (heap w r))) assets,
       (w, mk (max_retries self) (budget_changes self)
             (skipped_assets self ++ dropped) (unchanged_assets self)))
    /\ (length (List.filter
                  (fun r => truthy_str (Asset.ad_id (heap w r))) assets)
        + length dropped = length assets)%nat
    /\ Forall (fun s => exists r,
                 r ∈ assets
                 /\ truthy_str (Asset.ad_id (heap w r)) = false
                 /\ sk_filename s = Asset.filename (heap w r)
                 /\ sk_reason s = "Missing ad_id") dropped.
Proof.
  induction assets as [|r l IH]; intros valid_assets w self.
  - exists []. simpl. rewrite !app_nil_r. destruct self.
    split; [reflexivity|]. split; [reflexivity|constructor].
  - cbn [filter_assets]. unfold bind at 1. rewrite load_run.
    unfold bind at 1. cbn [get_self]. cbn [List.filter].
    destruct (truthy_str (Asset.ad_id (heap w r))) eqn:Had; cbn [negb].
    + unfold Asset.performance_score at 1.
      destruct (IH (valid_assets ++ [r]) w self) as (dropped & Hrun & Hlen & Hall).
      exists dropped. rewrite Hrun, <- app_assoc.
      split; [reflexivity|]. split; [simpl; lia|].
      eapply Forall_impl; [exact Hall|].
      intros s (r' & Hr' & H). exists r'. split; [right; exact Hr'|exact H].
    + unfold bind at 1. cbn [set_self].
      destruct (IH valid_assets w
                  (mk (max_retries self) (budget_changes self)
                     (skipped_assets self
                      ++ [mkSkipped (Asset.filename (heap w r))
                            "Missing ad_id" (Asset.file_id (heap w r))
                            None])
                     (unchanged_assets self)))
        as (dropped & Hrun & Hlen & Hall).
      eexists (_ :: dropped). rewrite Hrun. cbn [max_retries budget_changes
        skipped_assets unchanged_assets]. rewrite <- app_assoc.
      split; [reflexivity|]. split; [simpl; lia|].
      constructor.
      * exists r. split; [left|]. auto.
      * eapply Forall_impl; [exact Hall|].
        intros s (r' & Hr' & H). exists r'. split; [right; exact Hr'|exact H].
Qed.
End GroupMembers.

Section Adjustment.
Import BudgetManager.
Variable env : Env.

(** The assets a run may update, and a relation between the states before
    and after that every step of a run respects. *)
Variable touched : ref -> Prop.
Variable R : St -> St -> Prop.
Hypothesis R_refl : forall st, R st st.
Hypothesis R_trans : forall st1 st2 st3, R st1 st2 -> R st2 st3 -> R st1 st3.
Hypothesis R_called : forall calls st, R st (called calls st).
Hypothesis R_updated :
  forall r new_budget factor reason k st,
    touched r -> ids_present (heap (fst st) r) -> adjustment_factor factor ->
    scaled_budget factor (fst st) r = Some new_budget ->
    R st (updated env r new_budget factor reason k st).
Hypothesis R_unchanged : forall u st, R st (with_unchanged u st).
Hypothesis R_skipped : forall s st, R st (with_skipped s st).

Lemma update_keeps (r : ref) (factor : Q) (reason : string) (st : St)
    (out : Outcome bool) (st' : St) :
  touched r -> adjustment_factor factor ->
  update_asset_budget env r factor reason st = (out, st') -> R st st'.
Proof.
  intros Hr Hf Hrun.
  destruct (manager_update_outcome env r factor reason st)
    as [(calls & Hfail & _)
       |[(new_budget & k & Hok & Hids & Hscale & _)|(Hraise & _)]].
  - rewrite Hfail in Hrun. injection Hrun as _ <-. apply R_called.
  - rewrite Hok in Hrun. injection Hrun as _ <-.
    apply R_updated; assumption.
  - rewrite Hraise in Hrun. injection Hrun as _ <-. apply R_refl.
Qed.

Lemma update_each_keeps (factor : Q) (reason : string) :
  adjustment_factor factor ->
  forall performers count st out st',
    (forall r, r ∈ performers -> touched r) ->
    update_each env performers factor reason count st = (out, st') ->
    R st st'.
Proof.
  intros Hf. induction performers as [|r l IH];
    intros count st out st' Hin H.
  - injection H as _ <-. apply R_refl.
  - cbn [update_each] in H. unfold bind_raise at 1 in H.
    destruct (update_asset_budget env r factor reason st)
      as [[ok|e] st1] eqn:Hupd;
      (apply update_keeps in Hupd; [|apply Hin; left|exact Hf]).
    + apply IH in H; [|intros r' Hr'; apply Hin; right; exact Hr'].
      eapply R_trans; eassumption.
    + injection H as _ <-. exact Hupd.
Qed.

Lemma record_unchanged_keeps (r : ref) (reason : string) (st : St)
    (u : unit) (st' : St) :
  record_unchanged r reason st = (u, st') -> R st st'.
Proof.
  destruct st as [w self]. intros H. injection H as _ <-.
  apply (R_unchanged _ (w, self)).
Qed.

Lemma record_middle_keeps :
  forall middle st u st', record_middle middle st = (u, st') -> R st st'.
Proof.
  induction middle as [|r l IH]; intros st u st' H.
  - injection H as _ <-. apply R_refl.
  - cbn [record_middle] in H. unfold bind at 1 in H.
    destruct (record_unchanged r _ st) as [u1 st1] eqn:H1.
    apply record_unchanged_keeps in H1. apply IH in H.
    eapply R_trans; eassumption.
Qed.

Lemma filter_assets_keeps :
  forall assets valid_assets st valid st',
    filter_assets assets valid_assets st = (valid, st') -> R st st'.
Proof.
  induction assets as [|r l IH]; intros valid_assets [w self] valid st' H.
  - injection H as _ <-. apply R_refl.
  - cbn [filter_assets] in H. unfold bind at 1 in H.
    rewrite load_run in H. unfold bind at 1 in H. cbn [get_self] in H.
    destruct (negb (truthy_str (Asset.ad_id (heap w r)))).
    + unfold bind at 1 in H. cbn [set_self] in H. apply IH in H.
      eapply R_trans; [|exact H]. apply (R_skipped _ (w, self)).
    + destruct (Asset.performance_score (heap w r)).
      * apply IH in H. exact H.
      * unfold bind at 1 in H. cbn [set_self] in H. apply IH in H.
        eapply R_trans; [|exact H]. apply (R_skipped _ (w, self)).
Qed.

Lemma process_single_keeps (r : ref) (counts : Counts) (st : St)
    (out : Outcome Counts) (st' : St) :
  touched r ->
  process_single env r counts st = (out, st') -> R st st'.
Proof.
  intros Hr. destruct counts as [[inc dec] unch].
  unfold process_single. unfold bind at 1.
  destruct st as [w self]. rewrite load_run.
  destruct (Asset.performance_score (heap w r)) as [score|].
  - destruct (Qlt_le_dec (7 # 10) score).
    + unfold bind_raise at 1.
      destruct (update_asset_budget env r _ _ _) as [[ok|e] st1] eqn:Hupd;
        (apply update_keeps in Hupd; [|exact Hr|left; reflexivity]);
        intros H; injection H as _ <-; exact Hupd.
    + destruct (Qlt_le_dec score (3 # 10)).
      * unfold bind_raise at 1.
        destruct (update_asset_budget env r _ _ _) as [[ok|e] st1] eqn:Hupd;
          (apply update_keeps in Hupd; [|exact Hr|right; reflexivity]);
          intros H; injection H as _ <-; exact Hupd.
      * unfold bind at 1.
        destruct (record_unchanged r _ (w, self)) as [u st1] eqn:Hrec.
        apply record_unchanged_keeps in Hrec.
        intros H. injection H as _ <-. exact Hrec.
  - intros H. injection H as _ <-. apply R_refl.
Qed.

Lemma process_multi_keeps (group : list ref) (counts : Counts) (st : St)
    (out : Outcome Counts) (st' : St) :
  (forall r, r ∈ group -> touched r) ->
  process_multi env group counts st = (out, st') -> R st st'.
Proof.
  intros Hin. destruct counts as [[inc dec] unch].
  unfold process_multi.
  pose proof (outliers_subset (heap (fst st)) group) as Hsub.
  destruct (identify_performance_outliers _ group) as [top low].
  cbn [fst snd] in Hsub.
  unfold bind_raise at 1.
  destruct (update_each env top _ _ inc st) as [[inc'|e] st1] eqn:Htop;
    (apply update_each_keeps in Htop;
     [|left; reflexivity|intros r Hr; apply Hin, Hsub; left; exact Hr]).
  2:{ intros H. injection H as _ <-. exact Htop. }
  unfold bind_raise at 1.
  destruct (update_each env low _ _ dec st1) as [[dec'|e] st2] eqn:Hlow;
    (apply update_each_keeps in Hlow;
     [|right; reflexivity|intros r Hr; apply Hin, Hsub; right; exact Hr]).
  2:{ intros H. injection H as _ <-. eapply R_trans; eassumption. }
  unfold bind at 1.
  destruct (record_middle _ st2) as [u st3] eqn:Hmid.
  apply record_middle_keeps in Hmid.
  intros H. injection H as _ <-.
  eapply R_trans; [exact Htop|]. eapply R_trans; eassumption.
Qed.

Lemma process_ads_keeps :
  forall ad_assets counts st out st',
    (forall key group r, (key, group) ∈ ad_assets -> r ∈ group -> touched r) ->
    process_ads env ad_assets counts st = (out, st') -> R st st'.
Proof.
  induction ad_assets as [|[ad_id group] l IH];
    intros counts st out st' Hin H.
  - injection H as _ <-. apply R_refl.
  - cbn [process_ads] in H. unfold bind_raise at 1 in H.
    assert (Hgr : forall r, r ∈ group -> touched r).
    { intros r Hr. apply (Hin ad_id group r); [left|exact Hr]. }
    destruct (match group with
              | [asset] => process_single env asset counts
              | _ => process_multi env group counts
              end st) as [out1 st1] eqn:Hgroup.
    assert (Hstep : R st st1).
    { destruct group as [|r [|r' g]].
      - apply (process_multi_keeps _ _ _ _ _ Hgr Hgroup).
      - apply (process_single_keeps _ _ _ _ _ (Hgr r ltac:(left)) Hgroup).
      - apply (process_multi_keeps _ _ _ _ _ Hgr Hgroup). }
    destruct out1 as [counts1|e].
    + apply IH in H;
        [|intros key g r Hg Hr; apply (Hin key g r);
          [right; exact Hg|exact Hr]].
      eapply R_trans; eassumption.
    + injection H as _ <-. exact Hstep.
Qed.

(** A run starts from the cleared manager and only makes steps that
    respect the relation, whether it returns or raises. *)
Lemma adjustment_keeps (assets : list ref) (st : St)
    (out : Outcome Summary) (st' : St) :
  (forall r, r ∈ assets -> touched r) ->
  adjust_budgets_by_performance env assets st = (out, st') ->
  R (cleared st) st'.
Proof.
  intros Hin H. destruct st as [w self].
  unfold adjust_budgets_by_performance in H.
  unfold bind at 1 in H. cbn [get_self] in H.
  unfold bind at 1 in H. cbn [set_self] in H.
  unfold bind at 1 in H.
  destruct (filter_assets_run assets [] w (mk (max_retries self) [] [] []))
    as (dropped & Hrun & _).
  destruct (filter_assets assets [] _) as [valid st1] eqn:Hfilter.
  pose proof (filter_assets_keeps _ _ _ _ _ Hfilter) as Hf.
  injection Hrun as Hvalid _. simpl in Hvalid.
  unfold bind at 1 in H. unfold bind_raise at 1 in H.
  destruct (process_ads env _ (0, 0, 0)%nat st1)
    as [out1 [w2 self2]] eqn:Hads.
  apply process_ads_keeps in Hads.
  - assert (Hst : st' = (w2, self2)).
    { destruct out1 as [[[inc dec] unch]|e].
      - unfold bind at 1 in H. cbn [get_self ret] in H.
        injection H as _ <-. reflexivity.
      - injection H as _ <-. reflexivity. }
    rewrite Hst. unfold cleared. cbn [fst snd].
    eapply R_trans; eassumption.
  - intros key group r Hg Hr. apply groups_are_members in Hg as [-> _].
    apply members_subset in Hr. apply Hin. rewrite Hvalid in Hr.
    apply list_elem_of_In, List.filter_In in Hr as [Hr _].
    apply list_elem_of_In, Hr.
Qed.
End Adjustment.

(** ** Consequences for a whole run *)

Lemma descriptive_ids (a b : Asset.t) :
  descriptive a = descriptive b -> ids_present a -> ids_present b.
Proof.
  unfold descriptive, ids_present. intros H [Had Hfile].
  injection H as _ _ _ _ _ _ _ _ _ _ Hf _ _ _ _ _ Ha _ _ _.
  rewrite <- Hf, <- Ha. split; assumption.
Qed.

(** X16. When no asset has a negative budget before
    [adjust_budgets_by_performance], none has one after it, whether the
    run returns or raises. *)
Theorem X16_budgets_stay_nonnegative (env : Env) (assets : list ref)
    (st : BudgetManager.St) :
  (forall r, 0 <= Asset.budget (heap (fst st) r)) ->
  forall r,
    0 <= Asset.budget
           (heap (fst (snd (BudgetManager.adjust_budgets_by_performance env
                              assets st))) r).
Proof.
  destruct (BudgetManager.adjust_budgets_by_performance env assets st)
    as [out st'] eqn:Hrun.
  cbn [snd].
  set (R := fun st1 st2 : BudgetManager.St =>
              (forall r, 0 <= Asset.budget (heap (fst st1) r)) ->
              forall r, 0 <= Asset.budget (heap (fst st2) r)).
  change (R (cleared st) st').
  apply (adjustment_keeps env (fun _ => True) R) with (assets := assets)
    (out := out); subst R; cbn beta.
  - auto.
  - auto.
  - intros calls st1 H r. apply H.
  - intros r new_budget factor reason k [w self] _ _ Hf Hscale H r'.
    cbn [updated fst snd heap]. unfold updated_heap.
    destruct (Nat.eqb r' r); [|apply H].
    cbn [Asset.update_budget Asset.budget].
    unfold scaled_budget in Hscale. cbn [fst] in Hscale.
    apply (scale_nonneg _ _ _ (H r) (literal_factors_nonneg _ Hf) Hscale).
  - intros u st1 H r. apply H.
  - intros s st1 H r. apply H.
  - auto.
  - exact Hrun.
Qed.

Lemma X16_budgets_stay_nonnegative_witness :
  0 <= Asset.budget
         (heap (fst (snd (BudgetManager.adjust_budgets_by_performance
                            (example_env
                               (AdsReply {[ "status" := "SUCCESS" ]})
                               AnalyzerEmpty)
                            [0%nat; 1%nat]
                            (example_world, BudgetManager.init)))) 0%nat).
Proof.
  apply (X16_budgets_stay_nonnegative
           (example_env (AdsReply {[ "status" := "SUCCESS" ]}) AnalyzerEmpty)
           [0%nat; 1%nat] (example_world, BudgetManager.init)).
  intros r. simpl. lia.
Defined.

(** X17. [adjust_budgets_by_performance] changes nothing about an asset
    but its budget fields: name, attributes, identifiers, metrics and
    validation results stay.  An asset that is not in the list passed in,
    or lacks [ad_id] or [file_id], is not changed at all.  The analyzer is
    never called and [max_retries] stays.  All this holds whether the run
    returns or raises. *)
Theorem X17_adjustment_frame (env : Env) (assets : list ref)
    (st : BudgetManager.St) (r : ref) :
  let st' := snd (BudgetManager.adjust_budgets_by_performance env assets st) in
  descriptive (heap (fst st') r) = descriptive (heap (fst st) r)
  /\ validation (heap (fst st') r) = validation (heap (fst st) r)
  /\ (r ∉ assets \/ ~ ids_present (heap (fst st) r) ->
      heap (fst st') r = heap (fst st) r)
  /\ analyzer_calls (fst st') = analyzer_calls (fst st)
  /\ BudgetManager.max_retries (snd st')
     = BudgetManager.max_retries (snd st).
Proof.
  cbn zeta.
  destruct (BudgetManager.adjust_budgets_by_performance env assets st)
    as [out st'] eqn:Hrun.
  cbn [snd].
  set (R := fun st1 st2 : BudgetManager.St =>
              (forall r,
                 descriptive (heap (fst st2) r) = descriptive (heap (fst st1) r)
                 /\ validation (heap (fst st2) r)
                    = validation (heap (fst st1) r)
                 /\ (r ∉ assets \/ ~ ids_present (heap (fst st1) r) ->
                     heap (fst st2) r = heap (fst st1) r))
              /\ analyzer_calls (fst st2) = analyzer_calls (fst st1)
              /\ BudgetManager.max_retries (snd st2)
                 = BudgetManager.max_retries (snd st1)).
  assert (Hkeep : R (cleared st) st').
  2:{ destruct Hkeep as (Hr & Ha & Hm). destruct (Hr r) as (H1 & H2 & H3).
      auto. }
  apply (adjustment_keeps env (fun r => r ∈ assets) R) with (assets := assets)
    (out := out); subst R; cbn beta.
  - intros st1. split; [|split; reflexivity]. intros r1. auto.
  - intros st1 st2 st3 (H12 & Ha12 & Hm12) (H23 & Ha23 & Hm23).
    split; [|split; congruence]. intros r1.
    destruct (H12 r1) as (D12 & V12 & F12).
    destruct (H23 r1) as (D23 & V23 & F23).
    split; [congruence|]. split; [congruence|].
    intros Hcase. rewrite F23, F12; [reflexivity|exact Hcase|].
    destruct Hcase as [Hout|Hids]; [left; exact Hout|right].
    intros H. apply Hids. apply (descriptive_ids _ _ D12 H).
  - intros calls st1. split; [|split; reflexivity]. intros r1. auto.
  - intros r1 new_budget factor reason k [w self] Hin Hids _ _.
    split; [|split; reflexivity]. intros r2.
    cbn [updated fst snd heap]. unfold updated_heap.
    destruct (Nat.eqb_spec r2 r1) as [->|Hne]; [|auto].
    split; [reflexivity|]. split; [reflexivity|].
    intros [Hout|Hno]; contradiction.
  - intros u st1. split; [|split; reflexivity]. intros r1. auto.
  - intros s st1. split; [|split; reflexivity]. intros r1. auto.
  - auto.
  - exact Hrun.
Qed.


(** ** Counting unchanged and skipped assets *)

Section Unchanged.
Import BudgetManager.
Variable env : Env.

Lemma update_unchanged (r : ref) (factor : Q) (reason : string) (st : St)
    (out : Outcome bool) (st' : St) :
  update_asset_budget env r factor reason st = (out, st') ->
  n_unchanged st' = n_unchanged st.
Proof.
  intros Hrun.
  destruct (manager_update_outcome env r factor reason st)
    as [(calls & Hfail & _)|[(nb & k & Hok & _)|(Hraise & _)]].
  - rewrite Hfail in Hrun. injection Hrun as _ <-. reflexivity.
  - rewrite Hok in Hrun. injection Hrun as _ <-. reflexivity.
  - rewrite Hraise in Hrun. injection Hrun as _ <-. reflexivity.
Qed.

Lemma update_each_unchanged (factor : Q) (reason : string) :
  forall performers count st out st',
    update_each env performers factor reason count st = (out, st') ->
    n_unchanged st' = n_unchanged st.
Proof.
  induction performers as [|r l IH]; intros count st out st' H.
  - injection H as _ <-. reflexivity.
  - cbn [update_each] in H. unfold bind_raise at 1 in H.
    destruct (update_asset_budget env r factor reason st)
      as [[ok|e] st1] eqn:Hupd; apply update_unchanged in Hupd.
    + apply IH in H. congruence.
    + injection H as _ <-. exact Hupd.
Qed.

Lemma record_unchanged_one (r : ref) (reason : string) (st : St)
    (u : unit) (st' : St) :
  record_unchanged r reason st = (u, st') ->
  n_unchanged st' = S (n_unchanged st).
Proof.
  destruct st as [w self]. intros H. injection H as _ <-.
  unfold n_unchanged. cbn. rewrite length_app. simpl. lia.
Qed.

Lemma record_middle_all :
  forall middle st u st',
    record_middle middle st = (u, st') ->
    n_unchanged st' = (n_unchanged st + length middle)%nat.
Proof.
  induction middle as [|r l IH]; intros st u st' H.
  - injection H as _ <-. simpl. lia.
  - cbn [record_middle] in H. unfold bind at 1 in H.
    destruct (record_unchanged r _ st) as [u1 st1] eqn:H1.
    apply record_unchanged_one in H1. apply IH in H. simpl. lia.
Qed.

Lemma process_single_unchanged (r : ref) (counts : Counts) (st : St)
    (counts' : Counts) (st' : St) :
  process_single env r counts st = (Returned counts', st') ->
  (n_kept counts' + n_unchanged st = n_kept counts + n_unchanged st')%nat.
Proof.
  destruct counts as [[inc dec] unch].
  unfold process_single. unfold bind at 1.
  destruct st as [w self]. rewrite load_run.
  destruct (Asset.performance_score (heap w r)) as [score|].
  - destruct (Qlt_le_dec (7 # 10) score).
    + unfold bind_raise at 1.
      destruct (update_asset_budget env r _ _ _) as [[ok|e] st1] eqn:Hupd;
        [|discriminate].
      apply update_unchanged in Hupd.
      intros H. injection H as <- <-. destruct ok; simpl; lia.
    + destruct (Qlt_le_dec score (3 # 10)).
      * unfold bind_raise at 1.
        destruct (update_asset_budget env r _ _ _) as [[ok|e] st1] eqn:Hupd;
          [|discriminate].
        apply update_unchanged in Hupd.
        intros H. injection H as <- <-. destruct ok; simpl; lia.
      * unfold bind at 1.
        destruct (record_unchanged r _ (w, self)) as [u st1] eqn:Hrec.
        apply record_unchanged_one in Hrec.
        intros H. injection H as <- <-. simpl. lia.
  - intros H. injection H as <- <-. reflexivity.
Qed.

Lemma process_multi_unchanged (group : list ref) (counts : Counts)
    (st : St) (counts' : Counts) (st' : St) :
  process_multi env group counts st = (Returned counts', st') ->
  (n_kept counts' + n_unchanged st = n_kept counts + n_unchanged st')%nat.
Proof.
  destruct counts as [[inc dec] unch].
  unfold process_multi.
  destruct (identify_performance_outliers _ group) as [top low].
  unfold bind_raise at 1.
  destruct (update_each env top _ _ inc st) as [[inc'|e] st1] eqn:Htop;
    [|discriminate].
  apply update_each_unchanged in Htop.
  unfold bind_raise at 1.
  destruct (update_each env low _ _ dec st1) as [[dec'|e] st2] eqn:Hlow;
    [|discriminate].
  apply update_each_unchanged in Hlow.
  unfold bind at 1.
  destruct (record_middle _ st2) as [u st3] eqn:Hmid.
  apply record_middle_all in Hmid.
  intros H. injection H as <- <-. simpl. lia.
Qed.

Lemma process_ads_unchanged :
  forall ad_assets counts st counts' st',
    process_ads env ad_assets counts st = (Returned counts', st') ->
    (n_kept counts' + n_unchanged st = n_kept counts + n_unchanged st')%nat.
Proof.
  induction ad_assets as [|[ad_id group] l IH];
    intros counts st counts' st' H.
  - injection H as <- <-. reflexivity.
  - cbn [process_ads] in H. unfold bind_raise at 1 in H.
    destruct (match group with
              | [asset] => process_single env asset counts
              | _ => process_multi env group counts
              end st) as [[counts1|e] st1] eqn:Hgroup; [|discriminate].
    apply IH in H.
    assert (n_kept counts1 + n_unchanged st
            = n_kept counts + n_unchanged st1)%nat; [|lia].
    destruct group as [|r [|r' g]].
    + apply (process_multi_unchanged _ _ _ _ _ Hgroup).
    + apply (process_single_unchanged _ _ _ _ _ Hgroup).
    + apply (process_multi_unchanged _ _ _ _ _ Hgroup).
Qed.
End Unchanged.

(** X18. The summary [adjust_budgets_by_performance] returns:
    [total_assets] is the length of the input; [valid_assets] counts the
    assets with a non-empty ad id; every other asset, and no more, is in
    [skipped_assets], with reason "Missing ad_id" (the second reason of
    the code, missing metrics, never occurs); and [budgets_unchanged] is
    the length of [unchanged_assets]. *)
Theorem X18_summary_accounting (env : Env) (assets : list ref)
    (st : BudgetManager.St) (summary : BudgetManager.Summary) :
  fst (BudgetManager.adjust_budgets_by_performance env assets st)
  = Returned summary ->
  BudgetManager.total_assets summary = length assets
  /\ BudgetManager.valid_assets summary
     = length (with_ad (heap (fst st)) assets)
  /\ (BudgetManager.valid_assets summary
      + length (BudgetManager.sum_skipped_assets summary)
      = BudgetManager.total_assets summary)%nat
  /\ Forall (fun s => BudgetManager.sk_reason s = "Missing ad_id")
       (BudgetManager.sum_skipped_assets summary)
  /\ BudgetManager.budgets_unchanged summary
     = length (BudgetManager.sum_unchanged_assets summary).
Proof.
  destruct (BudgetManager.adjust_budgets_by_performance env assets st)
    as [out st'] eqn:H.
  cbn [fst]. intros ->.
  destruct st as [w self].
  unfold BudgetManager.adjust_budgets_by_performance in H.
  unfold bind at 1 in H. cbn [get_self] in H.
  unfold bind at 1 in H. cbn [set_self] in H.
  unfold bind at 1 in H.
  destruct (filter_assets_run assets [] w
              (BudgetManager.mk (BudgetManager.max_retries self) [] [] []))
    as (dropped & Hrun & Hlen & Hall).
  rewrite Hrun in H. clear Hrun. cbn [app] in H.
  unfold bind at 1 in H. unfold bind_raise at 1 in H.
  cbn [fst heap] in H.
  destruct (BudgetManager.process_ads env _ (0, 0, 0)%nat _)
    as [[[[inc dec] unch]|e] [w2 self2]] eqn:Hads; [|discriminate].
  pose proof (process_ads_unchanged env _ _ _ _ _ Hads) as Hunch.
  set (keep := fun st1 st2 : BudgetManager.St =>
                 BudgetManager.skipped_assets (snd st2)
                 = BudgetManager.skipped_assets (snd st1)).
  assert (Hskip : keep (w, BudgetManager.mk (BudgetManager.max_retries self)
                             [] dropped []) (w2, self2)).
  { apply (process_ads_keeps env (fun _ => True) keep) in Hads;
      subst keep; cbn beta; auto; try congruence. }
  unfold keep in Hskip. cbn in Hskip.
  unfold bind at 1 in H. cbn [get_self ret] in H.
  injection H as <- _. cbn [fst BudgetManager.total_assets
    BudgetManager.valid_assets BudgetManager.sum_skipped_assets
    BudgetManager.budgets_unchanged BudgetManager.sum_unchanged_assets].
  unfold with_ad. rewrite Hskip.
  unfold n_unchanged, n_kept in Hunch. cbn in Hunch.
  split; [reflexivity|]. split; [reflexivity|]. split; [exact Hlen|].
  split; [|lia].
  eapply Forall_impl; [exact Hall|].
  intros s (r & _ & _ & _ & Hreason). exact Hreason.
Qed.

Lemma X18_summary_accounting_witness :
  let h := fun r : ref =>
             if Nat.eqb r 2 then Asset.set_ids None None example_asset
             else example_asset in
  exists summary,
    fst (BudgetManager.adjust_budgets_by_performance
           (example_env (AdsReply {[ "status" := "SUCCESS" ]}) AnalyzerEmpty)
           [0; 1; 2]%nat (mkWorld h 0 0 0, BudgetManager.init))
    = Returned summary
    /\ BudgetManager.total_assets summary = 3%nat
    /\ (BudgetManager.valid_assets summary
        + length (BudgetManager.sum_skipped_assets summary)
        = BudgetManager.total_assets summary)%nat.
Proof.
  intros h.
  destruct (fst (BudgetManager.adjust_budgets_by_performance
                   (example_env (AdsReply {[ "status" := "SUCCESS" ]})
                      AnalyzerEmpty)
                   [0; 1; 2]%nat (mkWorld h 0 0 0, BudgetManager.init)))
    as [summary|e] eqn:Hrun; [|vm_compute in Hrun; discriminate].
  exists summary. split; [reflexivity|].
  destruct (X18_summary_accounting _ _ _ _ Hrun) as (Ht & _ & Hs & _).
  split; [exact Ht|exact Hs].
Defined.

(** ** No asset is counted twice *)

Section CountedOnce.
Import BudgetManager.

Lemma filter_none {A} (P : A -> Prop) `{forall x, Decision (P x)}
    (l : list A) :
  (forall x, x ∈ l -> ~ P x) -> filter P l = [].
Proof.
  induction l as [|x l IH]; intros Hall; [reflexivity|].
  rewrite filter_cons_False; [|apply Hall; left].
  apply IH. intros y Hy. apply Hall. right. exact Hy.
Qed.

Lemma asset_in_self (h : ref -> Asset.t) (r : ref) (l : list ref) :
  r ∈ l -> asset_in h r l = true.
Proof.
  intros Hin. unfold asset_in. apply existsb_exists. exists r.
  split; [apply list_elem_of_In, Hin|]. rewrite Nat.eqb_refl. reflexivity.
Qed.

(** The top performers, the low performers and the middle performers of
    two or more assets are together no more than the assets. *)
Lemma middle_bound (h : ref -> Asset.t) (group : list ref) :
  (2 <= length group)%nat ->
  let top := fst (identify_performance_outliers h group) in
  let low := snd (identify_performance_outliers h group) in
  (length top + length low
   + length (filter (fun r => negb (asset_in h r top)
                              && negb (asset_in h r low)) group)
   <= length group)%nat.
Proof.
  intros Hlen.
  assert (Hne : group <> []) by (destruct group; [simpl in Hlen; lia|discriminate]).
  destruct (outliers_are_ends h group Hne) as (sorted & Hout & _ & Hperm & _).
  cbn zeta in *. rewrite Hout. cbn [fst snd].
  set (k := Nat.max 1 (length group / 4)) in *.
  assert (Hk : (k <= length group - k)%nat) by (apply quartile_fits, Hlen).
  assert (Hn : length sorted = length group)
    by (rewrite <- Hperm, length_fmap; reflexivity).
  set (top := fst <$> take k sorted).
  set (low := fst <$> drop (length group - k) sorted).
  set (mid := fst <$> take (length group - k - k) (drop k sorted)).
  assert (Hsplit : fst <$> sorted = top ++ mid ++ low).
  { unfold top, mid, low. rewrite <- !fmap_app. f_equal.
    rewrite <- (take_drop k sorted) at 1. f_equal.
    rewrite <- (take_drop (length group - k - k) (drop k sorted)) at 1.
    f_equal. rewrite drop_drop. f_equal. lia. }
  set (Q := fun r => negb (asset_in h r top) && negb (asset_in h r low)).
  change (length top + length low + length (filter Q group)
          <= length group)%nat.
  assert (Hf : length (filter Q group) = length (filter Q (fst <$> sorted)))
    by (rewrite Hperm; reflexivity).
  assert (Hg : length group = length (fst <$> sorted))
    by (rewrite Hperm; reflexivity).
  rewrite Hf, Hg, Hsplit, !filter_app, !length_app.
  rewrite (filter_none Q top), (filter_none Q low).
  - pose proof (length_filter Q mid) as Hmid. simpl. lia.
  - intros r Hr Hq. apply (asset_in_self h) in Hr. unfold Q in Hq.
    rewrite Hr in Hq. rewrite andb_false_r in Hq. exact Hq.
  - intros r Hr Hq. apply (asset_in_self h) in Hr. unfold Q in Hq.
    rewrite Hr in Hq. exact Hq.
Qed.

Variable env : Env.

Lemma update_each_bound (factor : Q) (reason : string) :
  forall performers count st count' st',
    update_each env performers factor reason count st
    = (Returned count', st') ->
    (count' <= count + length performers)%nat.
Proof.
  induction performers as [|r l IH]; intros count st count' st' H.
  - injection H as <- _. simpl. lia.
  - cbn [update_each] in H. unfold bind_raise at 1 in H.
    destruct (update_asset_budget env r factor reason st)
      as [[ok|e] st1]; [|discriminate].
    apply IH in H. destruct ok; simpl; lia.
Qed.

Lemma process_single_bound (r : ref) (counts : Counts) (st : St)
    (counts' : Counts) (st' : St) :
  process_single env r counts st = (Returned counts', st') ->
  (n_counted counts' <= n_counted counts + 1)%nat.
Proof.
  destruct counts as [[inc dec] unch].
  unfold process_single. unfold bind at 1.
  destruct st as [w self]. rewrite load_run.
  destruct (Asset.performance_score (heap w r)) as [score|].
  - destruct (Qlt_le_dec (7 # 10) score).
    + unfold bind_raise at 1.
      destruct (update_asset_budget env r _ _ _) as [[ok|e] st1];
        [|discriminate].
      intros H. injection H as <- _. destruct ok; simpl; lia.
    + destruct (Qlt_le_dec score (3 # 10)).
      * unfold bind_raise at 1.
        destruct (update_asset_budget env r _ _ _) as [[ok|e] st1];
          [|discriminate].
        intros H. injection H as <- _. destruct ok; simpl; lia.
      * unfold bind at 1.
        destruct (record_unchanged r _ (w, self)) as [u st1].
        intros H. injection H as <- _. simpl. lia.
  - intros H. injection H as <- _. simpl. lia.
Qed.

Lemma process_multi_bound (group : list ref) (counts : Counts) (st : St)
    (counts' : Counts) (st' : St) :
  length group <> 1%nat ->
  process_multi env group counts st = (Returned counts', st') ->
  (n_counted counts' <= n_counted counts + length group)%nat.
Proof.
  intros Hlen. destruct counts as [[inc dec] unch].
  unfold process_multi.
  assert (Hbound :
    let top := fst (identify_performance_outliers (heap (fst st)) group) in
    let low := snd (identify_performance_outliers (heap (fst st)) group) in
    (length top + length low
     + length (filter (fun r => negb (asset_in (heap (fst st)) r top)
                                && negb (asset_in (heap (fst st)) r low))
                 group)
     <= length group)%nat).
  { destruct group as [|r [|r' g]].
    - simpl. lia.
    - contradiction.
    - apply middle_bound. simpl. lia. }
  cbn zeta in Hbound.
  destruct (identify_performance_outliers _ group) as [top low].
  cbn [fst snd] in Hbound.
  unfold bind_raise at 1.
  destruct (update_each env top _ _ inc st) as [[inc'|e] st1] eqn:Htop;
    [|discriminate].
  apply update_each_bound in Htop.
  unfold bind_raise at 1.
  destruct (update_each env low _ _ dec st1) as [[dec'|e] st2] eqn:Hlow;
    [|discriminate].
  apply update_each_bound in Hlow.
  unfold bind at 1.
  destruct (record_middle _ st2) as [u st3].
  intros H. injection H as <- _. simpl. lia.
Qed.

Lemma process_ads_bound :
  forall ad_assets counts st counts' st',
    process_ads env ad_assets counts st = (Returned counts', st') ->
    (n_counted counts' <= n_counted counts + group_sizes ad_assets)%nat.
Proof.
  induction ad_assets as [|[ad_id group] l IH];
    intros counts st counts' st' H.
  - injection H as <- _. simpl. lia.
  - cbn [process_ads] in H. unfold bind_raise at 1 in H.
    destruct (match group with
              | [asset] => process_single env asset counts
              | _ => process_multi env group counts
              end st) as [[counts1|e] st1] eqn:Hgroup; [|discriminate].
    apply IH in H. unfold group_sizes in *. cbn [sum_list_with snd].
    assert (n_counted counts1 <= n_counted counts + length group)%nat; [|lia].
    destruct group as [|r [|r' g]].
    + eapply process_multi_bound; [|exact Hgroup]. simpl. lia.
    + apply (process_single_bound _ _ _ _ _ Hgroup).
    + eapply process_multi_bound; [|exact Hgroup]. simpl. lia.
Qed.

Lemma group_insert_size (key : string) (r : ref)
    (groups : list (string * list ref)) :
  group_sizes (group_insert key r groups) = S (group_sizes groups).
Proof.
  unfold group_sizes. induction groups as [|[k members] l IH].
  - reflexivity.
  - cbn [group_insert]. destruct (String.eqb k key).
    + cbn [sum_list_with snd]. rewrite length_app. simpl. lia.
    + cbn [sum_list_with snd]. rewrite IH. lia.
Qed.

Lemma group_fold_size (h : ref -> Asset.t) :
  forall assets groups,
    group_sizes
      (fold_left
         (fun ad_assets r =>
            match Asset.ad_id (h r) with
            | Some key =>
                if truthy_str (Some key)
                then group_insert key r ad_assets
                else ad_assets
            | None => ad_assets
            end) assets groups)
    = (group_sizes groups + length (with_ad h assets))%nat.
Proof.
  induction assets as [|r l IH]; intros groups.
  - simpl. lia.
  - cbn [fold_left]. rewrite IH. unfold with_ad. cbn [List.filter].
    destruct (Asset.ad_id (h r)) as [key|]; [|reflexivity].
    destruct (truthy_str (Some key)); [|reflexivity].
    rewrite group_insert_size. simpl. lia.
Qed.

Lemma groups_count (groups : list (string * list ref)) :
  (forall key group, (key, group) ∈ groups -> group <> []) ->
  (length groups <= group_sizes groups)%nat.
Proof.
  unfold group_sizes. induction groups as [|[k members] l IH]; intros Hne.
  - simpl. lia.
  - cbn [sum_list_with snd length].
    assert (Hm : members <> []) by (apply (Hne k); left).
    assert (length l <= sum_list_with (fun g => length g.2) l)%nat.
    { apply IH. intros key group Hin. apply (Hne key). right. exact Hin. }
    destruct members; [contradiction|]. simpl. lia.
Qed.

Lemma with_ad_idem (h : ref -> Asset.t) (assets : list ref) :
  with_ad h (with_ad h assets) = with_ad h assets.
Proof.
  unfold with_ad. induction assets as [|r l IH]; [reflexivity|].
  cbn [List.filter].
  destruct (truthy_str (Asset.ad_id (h r))) eqn:E; [|exact IH].
  cbn [List.filter]. rewrite E, IH. reflexivity.
Qed.
End CountedOnce.

(** X20. In the summary [adjust_budgets_by_performance] returns, the
    three counters [budgets_increased], [budgets_decreased] and
    [budgets_unchanged] together never exceed [valid_assets], and
    [total_ads] never exceeds it either: every group has an asset, and a
    position of the list is counted at most once. *)
Theorem X20_counters_bounded (env : Env) (assets : list ref)
    (st : BudgetManager.St) (summary : BudgetManager.Summary) :
  fst (BudgetManager.adjust_budgets_by_performance env assets st)
  = Returned summary ->
  (BudgetManager.budgets_increased summary
   + BudgetManager.budgets_decreased summary
   + BudgetManager.budgets_unchanged summary
   <= BudgetManager.valid_assets summary)%nat
  /\ (BudgetManager.total_ads summary
      <= BudgetManager.valid_assets summary)%nat
  /\ (BudgetManager.valid_assets summary
      <= BudgetManager.total_assets summary)%nat.
Proof.
  destruct (BudgetManager.adjust_budgets_by_performance env assets st)
    as [out st'] eqn:H.
  cbn [fst]. intros ->.
  destruct st as [w self].
  unfold BudgetManager.adjust_budgets_by_performance in H.
  unfold bind at 1 in H. cbn [get_self] in H.
  unfold bind at 1 in H. cbn [set_self] in H.
  unfold bind at 1 in H.
  destruct (filter_assets_run assets [] w
              (BudgetManager.mk (BudgetManager.max_retries self) [] [] []))
    as (dropped & Hrun & Hlen & _).
  rewrite Hrun in H. clear Hrun. cbn [app] in H.
  unfold bind at 1 in H. unfold bind_raise at 1 in H.
  cbn [fst heap] in H.
  fold (with_ad (heap w) assets) in H, Hlen.
  set (valid := with_ad (heap w) assets) in *.
  destruct (BudgetManager.process_ads env _ (0, 0, 0)%nat _)
    as [[[[inc dec] unch]|e] [w2 self2]] eqn:Hads; [|discriminate].
  apply process_ads_bound in Hads.
  unfold bind at 1 in H. cbn [get_self ret] in H.
  injection H as <- _. cbn [fst BudgetManager.total_assets
    BudgetManager.valid_assets BudgetManager.total_ads
    BudgetManager.budgets_increased BudgetManager.budgets_decreased
    BudgetManager.budgets_unchanged].
  assert (Hsizes :
    group_sizes (BudgetManager.group_assets_by_ad (heap w) valid)
    = length valid).
  { unfold BudgetManager.group_assets_by_ad. rewrite group_fold_size.
    unfold valid. rewrite with_ad_idem. reflexivity. }
  rewrite Hsizes in Hads. simpl in Hads.
  split; [exact Hads|]. split; [|lia].
  rewrite <- Hsizes. apply groups_count.
  intros key group Hin. apply groups_are_members in Hin as [_ Hne].
  exact Hne.
Qed.

Lemma X20_counters_bounded_witness :
  exists summary,
    fst (BudgetManager.adjust_budgets_by_performance
           (example_env (AdsReply {[ "status" := "SUCCESS" ]}) AnalyzerEmpty)
           [0; 1; 2]%nat (example_world, BudgetManager.init))
    = Returned summary
    /\ (BudgetManager.budgets_increased summary
        + BudgetManager.budgets_decreased summary
        + BudgetManager.budgets_unchanged summary
        <= BudgetManager.valid_assets summary)%nat.
Proof.
  destruct (fst (BudgetManager.adjust_budgets_by_performance
                   (example_env (AdsReply {[ "status" := "SUCCESS" ]})
                      AnalyzerEmpty)
                   [0; 1; 2]%nat (example_world, BudgetManager.init)))
    as [summary|e] eqn:Hrun; [|vm_compute in Hrun; discriminate].
  exists summary. split; [reflexivity|].
  apply (X20_counters_bounded _ _ _ _ Hrun).
Defined.

(** ** Tables read from a sheet *)

Section Sheets.
Import GoogleSheets.

Lemma add_buyout_row_lookup (m : gmap string string) (row : list string)
    (code : string) :
  add_buyout_row m row !! code
  = match buyout_entry code row with
    | Some d => Some d
    | None => m !! code
    end.
Proof.
  destruct row as [|c [|d rest]]; try reflexivity.
  cbn [add_buyout_row buyout_entry].
  destruct (String.eqb_spec c code) as [->|Hne].
  - apply lookup_insert_eq.
  - apply lookup_insert_ne, Hne.
Qed.

Lemma buyout_fold_skip (code : string) :
  forall rows m,
    Forall (fun row => buyout_entry code row = None) rows ->
    foldl add_buyout_row m rows !! code = m !! code.
Proof.
  induction rows as [|row rows IH]; intros m Hall; [reflexivity|].
  apply Forall_cons in Hall as [Hrow Hall]. cbn [foldl].
  rewrite (IH _ Hall), add_buyout_row_lookup, Hrow. reflexivity.
Qed.

Lemma buyout_fold_origin (code d : string) :
  forall rows m,
    foldl add_buyout_row m rows !! code = Some d ->
    m !! code = Some d
    \/ exists row, row ∈ rows /\ buyout_entry code row = Some d.
Proof.
  induction rows as [|row rows IH]; intros m H; [left; exact H|].
  cbn [foldl] in H. apply IH in H as [H|(row' & Hin & Hrow)].
  - rewrite add_buyout_row_lookup in H.
    destruct (buyout_entry code row) as [d'|] eqn:E; [|left; exact H].
    right. exists row. split; [left|]. congruence.
  - right. exists row'. split; [right; exact Hin|exact Hrow].
Qed.

Lemma buyout_fold_last (code d : string) (before after : sheet)
    (row : list string) (m : gmap string string) :
  buyout_entry code row = Some d ->
  Forall (fun r => buyout_entry code r = None) after ->
  foldl add_buyout_row m (before ++ row :: after) !! code = Some d.
Proof.
  intros Hrow Hafter. rewrite foldl_app. cbn [foldl].
  rewrite (buyout_fold_skip code _ _ Hafter), add_buyout_row_lookup, Hrow.
  reflexivity.
Qed.

Lemma buyout_table_last (data : sheet) (code d : string)
    (header : list string) (before after : sheet) (row : list string) :
  data = header :: before ++ row :: after ->
  buyout_entry code row = Some d ->
  Forall (fun r => buyout_entry code r = None) after ->
  get_buyout_data data !! code = Some d.
Proof.
  intros -> Hrow Hafter. unfold get_buyout_data, too_short.
  replace (length (header :: before ++ row :: after) <? 2)%nat with false.
  - cbn [drop]. apply buyout_fold_last; assumption.
  - symmetry. apply Nat.ltb_ge. cbn [length]. rewrite length_app. simpl. lia.
Qed.

Lemma buyout_table_none (data : sheet) (code : string) :
  (forall row, row ∈ drop 1 data -> buyout_entry code row = None) ->
  get_buyout_data data !! code = None.
Proof.
  intros Hnone. unfold get_buyout_data.
  destruct (too_short data); [apply lookup_empty|].
  rewrite buyout_fold_skip; [apply lookup_empty|].
  apply Forall_forall. exact Hnone.
Qed.

Lemma put_fold_skip (key : string) :
  forall pairs m,
    (forall kv, kv ∈ pairs -> fst kv <> key) ->
    foldl put m pairs !! key = m !! key.
Proof.
  induction pairs as [|[k v] pairs IH]; intros m Hall; [reflexivity|].
  cbn [foldl]. rewrite IH.
  - cbn [put]. apply lookup_insert_ne. apply (Hall (k, v)). left.
  - intros kv Hin. apply Hall. right. exact Hin.
Qed.

Lemma put_fold_last (key v : string) :
  forall pairs m j,
    pairs !! j = Some (key, v) ->
    (forall j' kv, (j < j')%nat -> pairs !! j' = Some kv -> fst kv <> key) ->
    foldl put m pairs !! key = Some v.
Proof.
  induction pairs as [|p pairs IH]; intros m j Hj Hlast.
  - rewrite lookup_nil in Hj. discriminate.
  - destruct j as [|j]; cbn [foldl].
    + injection Hj as ->. rewrite put_fold_skip.
      * cbn [put]. apply lookup_insert_eq.
      * intros kv Hin. apply list_elem_of_lookup in Hin as [i Hi].
        apply (Hlast (S i) kv); [lia|exact Hi].
    + apply (IH _ j); [exact Hj|].
      intros j' kv Hlt Hkv. apply (Hlast (S j') kv); [lia|exact Hkv].
Qed.

Lemma put_fold_keys (key : string) :
  forall pairs m,
    is_Some (foldl put m pairs !! key)
    <-> is_Some (m !! key) \/ key ∈ pairs.*1.
Proof.
  induction pairs as [|[k v] pairs IH]; intros m.
  - simpl. split; [auto|]. intros [H|H]; [exact H|inversion H].
  - cbn [foldl]. rewrite IH. cbn [put]. rewrite fmap_cons. cbn [fst].
    rewrite elem_of_cons. destruct (decide (k = key)) as [->|Hne].
    + rewrite lookup_insert_eq. split; [auto|]. intros _. left. eauto.
    + rewrite lookup_insert_ne by exact Hne. split.
      * intros [H|H]; auto.
      * intros [H|[H|H]]; auto. congruence.
Qed.

Lemma pad_row_lookup (headers row : list string) (j : nat) :
  (j < length headers)%nat ->
  pad_row headers row !! j = Some (default "" (row !! j)).
Proof.
  intros Hj. unfold pad_row.
  destruct (Nat.ltb_spec (length row) (length headers)) as [Hshort|Hlong].
  - destruct (Nat.lt_ge_cases j (length row)) as [Hin|Hout].
    + rewrite lookup_app_l by exact Hin.
      destruct (lookup_lt_is_Some_2 row j Hin) as [x Hx].
      rewrite Hx. reflexivity.
    + rewrite lookup_app_r by exact Hout.
      rewrite (lookup_ge_None_2 row j Hout). cbn [default].
      apply lookup_replicate_2. lia.
  - destruct (lookup_lt_is_Some_2 row j ltac:(lia)) as [x Hx].
    rewrite Hx. reflexivity.
Qed.

Lemma pad_row_length (headers row : list string) :
  (length headers <= length (pad_row headers row))%nat.
Proof.
  unfold pad_row.
  destruct (Nat.ltb_spec (length row) (length headers)) as [Hshort|Hlong].
  - rewrite length_app, length_replicate. lia.
  - exact Hlong.
Qed.

Lemma row_dict_fold (headers row : list string) :
  row_dict headers row = foldl put ∅ (zip headers (pad_row headers row)).
Proof. reflexivity. Qed.

(** The dictionary of a row has the headers as its keys; each key maps to
    the cell under the last column of that name, or to the empty text when
    the row ends before it. *)
Lemma row_dict_spec (headers row : list string) :
  (forall key, is_Some (row_dict headers row !! key) <-> key ∈ headers)
  /\ (forall key j,
        last_column headers key j ->
        row_dict headers row !! key = Some (default "" (row !! j))).
Proof.
  rewrite row_dict_fold. split.
  - intros key. rewrite put_fold_keys, lookup_empty.
    rewrite fst_zip by apply pad_row_length.
    split; [intros [[x Hx]|H]; [discriminate|exact H]|auto].
  - intros key j [Hj Hlast].
    apply (put_fold_last _ _ _ _ j).
    + apply lookup_zip_with_Some. exists key, (default "" (row !! j)).
      split; [reflexivity|]. split; [exact Hj|].
      apply pad_row_lookup. apply lookup_lt_is_Some. eauto.
    + intros j' [k v] Hlt Hkv.
      apply lookup_zip_with_Some in Hkv as (k' & v' & E & Hk & _).
      injection E as -> ->. cbn [fst]. intros ->.
      apply (Hlast j' Hlt Hk).
Qed.
End Sheets.

(** X21. [get_buyout_data] on the rows of the sheet: with fewer than two
    rows the table is empty; the header row is never an entry; a code is
    in the table only through a data row of two cells or more whose first
    cell is the code, and its date is the second cell of the last such
    row; rows with fewer than two cells are ignored. *)
Theorem X21_buyout_table (data : GoogleSheets.sheet) (code : string) :
  let table := GoogleSheets.get_buyout_data data in
  ((length data < 2)%nat -> table = ∅)
  /\ (forall d,
        table !! code = Some d ->
        exists row, row ∈ drop 1 data /\ buyout_entry code row = Some d)
  /\ (forall header before row after d,
        data = header :: before ++ row :: after ->
        buyout_entry code row = Some d ->
        Forall (fun r => buyout_entry code r = None) after ->
        table !! code = Some d)
  /\ ((forall row, row ∈ drop 1 data -> buyout_entry code row = None) ->
      table !! code = None).
Proof.
  cbn zeta. split; [|split; [|split]].
  - intros Hlen. unfold GoogleSheets.get_buyout_data, GoogleSheets.too_short.
    apply Nat.ltb_lt in Hlen. rewrite Hlen. reflexivity.
  - intros d. unfold GoogleSheets.get_buyout_data.
    destruct (GoogleSheets.too_short data);
      [rewrite lookup_empty; discriminate|].
    intros H. apply buyout_fold_origin in H as [H|H]; [|exact H].
    rewrite lookup_empty in H. discriminate.
  - intros header before row after d. apply buyout_table_last.
  - apply buyout_table_none.
Qed.

(** X22. [get_asset_data] and [get_ads_data] on the rows of the sheet:
    with fewer than two rows the result is empty; otherwise there is one
    dictionary per data row, in order, whose keys are exactly the cells of
    the header row; a key maps to the row's cell in the last column of
    that name, and to the empty text when the row is too short to have
    that cell.  Cells beyond the header row are dropped. *)
Theorem X22_sheet_rows (data : GoogleSheets.sheet) :
  let dicts := GoogleSheets.get_asset_data data in
  GoogleSheets.get_ads_data data = dicts
  /\ ((length data < 2)%nat -> dicts = [])
  /\ (forall headers body,
        data = headers :: body -> body <> [] ->
        length dicts = length body
        /\ forall i row,
             body !! i = Some row ->
             exists d,
               dicts !! i = Some d
               /\ (forall key, is_Some (d !! key) <-> key ∈ headers)
               /\ (forall key j,
                     last_column headers key j ->
                     d !! key = Some (default "" (row !! j)))).
Proof.
  cbn zeta. split; [reflexivity|]. split.
  - intros Hlen. unfold GoogleSheets.get_asset_data, GoogleSheets.too_short.
    apply Nat.ltb_lt in Hlen. rewrite Hlen. reflexivity.
  - intros headers body -> Hbody.
    unfold GoogleSheets.get_asset_data, GoogleSheets.too_short.
    replace (length (headers :: body) <? 2)%nat with false.
    2:{ symmetry. apply Nat.ltb_ge. destruct body; [contradiction|].
        simpl. lia. }
    split; [apply length_fmap|].
    intros i row Hrow. exists (GoogleSheets.row_dict headers row).
    split; [rewrite list_lookup_fmap, Hrow; reflexivity|].
    apply row_dict_spec.
Qed.

(** X23. Buyout validation against the table read from a sheet: an asset
    whose code heads no data row of two cells or more fails, whatever the
    header row says; otherwise the last such row decides, as if the table
    held that row alone. *)
Theorem X23_buyout_from_sheet (env : Env) (a : Asset.t)
    (data : GoogleSheets.sheet) (st : AssetValidator.St) :
  let code := Asset.buyout_code a in
  ((forall row, row ∈ drop 1 data -> buyout_entry code row = None) ->
   AssetValidator.validate_buyout_code env a
     (GoogleSheets.get_buyout_data data) st = (false, st))
  /\ (forall header before row after d,
        data = header :: before ++ row :: after ->
        buyout_entry code row = Some d ->
        Forall (fun r => buyout_entry code r = None) after ->
        AssetValidator.validate_buyout_code env a
          (GoogleSheets.get_buyout_data data) st
        = AssetValidator.validate_buyout_code env a {[ code := d ]} st).
Proof.
  cbn zeta. split.
  - intros Hnone. unfold AssetValidator.validate_buyout_code.
    rewrite (buyout_table_none _ _ Hnone).
    destruct (String.eqb (Asset.buyout_code a) ""); reflexivity.
  - intros header before row after d Hdata Hrow Hafter.
    unfold AssetValidator.validate_buyout_code.
    rewrite (buyout_table_last _ _ _ _ _ _ _ Hdata Hrow Hafter).
    rewrite lookup_singleton_eq. reflexivity.
Qed.

Lemma X23_buyout_from_sheet_witness :
  AssetValidator.validate_buyout_code
    (example_env AdsRaises AnalyzerEmpty) example_asset
    (GoogleSheets.get_buyout_data
       [["BUY123"; "31/12/2099"]; ["BUY999"; "31/12/2099"]; ["BUY123"]])
    (example_world, AssetValidator.init)
  = (false, (example_world, AssetValidator.init)).
Proof.
  apply (proj1 (X23_buyout_from_sheet (example_env AdsRaises AnalyzerEmpty)
                  example_asset
                  [["BUY123"; "31/12/2099"]; ["BUY999"; "31/12/2099"];
                   ["BUY123"]]
                  (example_world, AssetValidator.init))).
  intros row Hrow. cbn [drop] in Hrow.
  apply elem_of_cons in Hrow as [->|Hrow]; [reflexivity|].
  apply elem_of_cons in Hrow as [->|Hrow]; [reflexivity|].
  inversion Hrow.
Defined.

(** ** What a parsed filename guarantees *)

Section ParsedName.
Import Re.

Local Abbreviation bar := ("|"%char).

(** A match of the filename pattern starts with the two codes and has an
    alphanumeric second group; the text has seven pipes or more. *)
Lemma pattern_head (s : list ascii) (m : found) :
  re_match AssetParser.pattern s = Some m ->
  exists country language g2 g3 g4 g5 g6 g7 g8,
    fst m = [country ++ "-"%char :: language; g2; g3; g4; g5; g6; g7; g8]
    /\ upper_code country /\ upper_code language
    /\ all_in Text.is_alnum g2 /\ g2 <> []
    /\ (7 <= pipes s)%nat.
Proof.
  unfold re_match, AssetParser.pattern, AssetParser.lazy_field.
  intros H. cbn [app run] in H.
  destruct s as [|c1 [|c2 [|c3 [|c4 [|c5 s0]]]]];
    cbn [app run] in H; try discriminate;
    repeat match type of H with
           | (if ?b then _ else _) = _ =>
               let E := fresh "U" in
               destruct b eqn:E; [|discriminate]
           end; try discriminate.
  assert (c3 = "-"%char) as ->
    by (apply Ascii.eqb_eq; assumption).
  change (c1 :: c2 :: "-"%char :: c4 :: c5 :: s0)
    with ([c1; c2; "-"%char; c4; c5] ++ s0) in H.
  rewrite captured in H.
  apply field_block_sound in H
    as (a1 & b1 & g2 & s2 & -> & Ha1 & Hb1 & Hg2 & Hlen2 & H).
  apply field_block_sound in H
    as (a2 & b2 & g3 & s3 & -> & Ha2 & Hb2 & Hg3 & _ & H).
  apply field_block_sound in H
    as (a3 & b3 & g4 & s4 & -> & Ha3 & Hb3 & Hg4 & _ & H).
  apply field_block_sound in H
    as (a4 & b4 & g5 & s5 & -> & Ha4 & Hb4 & Hg5 & _ & H).
  apply field_block_sound in H
    as (a5 & b5 & g6 & s6 & -> & Ha5 & Hb5 & Hg6 & _ & H).
  apply field_block_sound in H
    as (a6 & b6 & g7 & s7 & -> & Ha6 & Hb6 & Hg7 & _ & H).
  apply (field_block_sound Text.is_dot 1 true [EndAnchor]) in H
    as (a7 & b7 & g8 & s8 & -> & Ha7 & Hb7 & Hg8 & _ & H).
  cbn [run] in H. destruct (at_end s8); [|discriminate].
  injection H as <-.
  exists [c1; c2], [c4; c5], g2, g3, g4, g5, g6, g7, g8.
  split; [reflexivity|].
  split; [exists c1, c2; auto|]. split; [exists c4, c5; auto|].
  split; [exact Hg2|].
  split; [destruct g2; [simpl in Hlen2; lia|discriminate]|].
  repeat (rewrite ?pipes_app, ?pipes_bar; cbn [pipes app]).
  lia.
Qed.

Lemma upper_code_solid (country language : list ascii) :
  upper_code country -> upper_code language ->
  Text.strip (country ++ "-"%char :: language)
  = country ++ "-"%char :: language.
Proof.
  intros (c1 & c2 & -> & U1 & U2) (l1 & l2 & -> & V1 & V2).
  apply (strip_solid (fun c => negb (Text.is_space c))).
  - intros c Hc. apply negb_true_iff, Hc.
  - unfold all_in. cbn [app forallb].
    rewrite (upper_not_space _ U1), (upper_not_space _ U2),
      (upper_not_space _ V1), (upper_not_space _ V2).
    reflexivity.
Qed.

Lemma upper_code_no_hyphen (code : list ascii) :
  upper_code code -> Text.contains "-" code = false.
Proof.
  intros (c1 & c2 & -> & U1 & U2).
  apply (all_excludes Text.is_upper); [reflexivity|].
  unfold all_in. cbn [forallb]. rewrite U1, U2. reflexivity.
Qed.

Lemma hyphen_parts (country language : list ascii) :
  upper_code country -> upper_code language ->
  let text := Text.to_string (country ++ "-"%char :: language) in
  AssetParser.hyphen_part 0 text = Text.to_string country
  /\ AssetParser.hyphen_part 1 text = Text.to_string language.
Proof.
  intros Hc Hl. cbn zeta. unfold AssetParser.hyphen_part.
  rewrite of_to_string, contains_at.
  rewrite (split_at_first _ _ _ (upper_code_no_hyphen _ Hc)).
  rewrite (split_without _ _ (upper_code_no_hyphen _ Hl)).
  split; reflexivity.
Qed.
End ParsedName.

(** X24. Whenever [parse_filename] succeeds, the dictionary has exactly
    its nine keys; [country_language] is two upper case letters, a hyphen
    and two upper case letters; [buyout_code] is a non-empty run of ASCII
    letters and digits; the base name has seven pipes or more; and the
    asset created from the dictionary has these two letter codes as
    country and language, that buyout code, and a valid name. *)
Theorem X24_parsed_name (filename : string) (parsed : gmap string string) :
  AssetParser.parse_filename filename = Some parsed ->
  exists country language code,
    upper_code country /\ upper_code language
    /\ all_in Text.is_alnum code /\ code <> []
    /\ parsed !! "country_language"
       = Some (Text.to_string (country ++ "-"%char :: language))
    /\ parsed !! "buyout_code" = Some (Text.to_string code)
    /\ (forall key, is_Some (parsed !! key) <-> key ∈ parsed_keys)
    /\ (7 <= pipes (Text.basename (Text.of_string filename)))%nat
    /\ let a := AssetParser.create_asset_from_parsed_data filename parsed in
       Asset.country a = Text.to_string country
       /\ Asset.language a = Text.to_string language
       /\ Asset.buyout_code a = Text.to_string code
       /\ Asset.filename a = filename
       /\ Asset.is_valid_name a = true.
Proof.
  unfold AssetParser.parse_filename.
  destruct (Re.re_match AssetParser.pattern _) as [m|] eqn:Hm;
    [|discriminate].
  intros H. injection H as <-.
  apply pattern_head in Hm
    as (country & language & g2 & g3 & g4 & g5 & g6 & g7 & g8 & Hgroups
        & Hc & Hl & Hg2 & Ng2 & Hpipes).
  exists country, language, g2.
  assert (H0 : AssetParser.stripped 0 m
               = Text.to_string (country ++ "-"%char :: language)).
  { unfold AssetParser.stripped, Re.group. rewrite Hgroups. cbn [nth].
    rewrite (upper_code_solid _ _ Hc Hl). reflexivity. }
  assert (H1 : AssetParser.stripped 1 m = Text.to_string g2).
  { unfold AssetParser.stripped, Re.group. rewrite Hgroups. cbn [nth].
    rewrite (strip_solid Text.is_alnum g2 alnum_not_space Hg2).
    reflexivity. }
  split; [exact Hc|]. split; [exact Hl|]. split; [exact Hg2|].
  split; [exact Ng2|].
  split; [rewrite lookup_insert_eq; exact (f_equal Some H0)|].
  split.
  { rewrite lookup_insert_ne by discriminate.
    rewrite lookup_insert_eq. exact (f_equal Some H1). }
  split.
  { intros key. rewrite !lookup_insert_is_Some', lookup_empty.
    unfold parsed_keys. rewrite !elem_of_cons, elem_of_nil.
    split.
    - intros H. repeat (destruct H as [H|H]; [subst key; tauto|]).
      destruct H as [x Hx]. discriminate.
    - intros H. repeat (destruct H as [H|H]; [subst key; tauto|]).
      contradiction. }
  split; [exact Hpipes|].
  cbn zeta. unfold AssetParser.create_asset_from_parsed_data.
  cbn [Asset.country Asset.language Asset.buyout_code Asset.filename
       Asset.is_valid_name Asset.set_is_valid_name Asset.make].
  unfold AssetParser.get.
  rewrite lookup_insert_eq.
  rewrite (lookup_insert_ne _ "country_language" "buyout_code")
    by discriminate.
  rewrite lookup_insert_eq. cbn [default]. rewrite H0, H1.
  destruct (hyphen_parts _ _ Hc Hl) as [Hp0 Hp1]. cbn zeta in Hp0, Hp1.
  unfold id. rewrite Hp0, Hp1. repeat split; reflexivity.
Qed.

Lemma X24_parsed_name_witness :
  let filename :=
    "US-EN | BUY123 | Summer | Youth | Seller | Image | 30s | jpg" in
  let parsed := default ∅ (AssetParser.parse_filename filename) in
  exists country language code,
    upper_code country /\ upper_code language
    /\ all_in Text.is_alnum code
    /\ parsed !! "country_language"
       = Some (Text.to_string (country ++ "-"%char :: language))
    /\ parsed !! "buyout_code" = Some (Text.to_string code).
Proof.
  intros filename parsed.
  destruct (X24_parsed_name filename parsed)
    as (country & language & code & Hc & Hl & Ha & _ & Hcl & Hcode & _).
  - vm_compute. reflexivity.
  - exists country, language, code. auto.
Defined.

(** ** Matching a file against the rows of the asset sheet *)

Section Matching.
Import GoogleSheets.

Lemma starts_with_spec (p s : list ascii) :
  starts_with p s = true <-> exists b, s = p ++ b.
Proof.
  revert s. induction p as [|c p IH]; intros s.
  - simpl. split; [intros _; exists s; reflexivity|reflexivity].
  - destruct s as [|d s]; simpl.
    + split; [discriminate|]. intros [b Hb]. discriminate.
    + rewrite andb_true_iff, IH. split.
      * intros [Hc [b ->]]. apply Ascii.eqb_eq in Hc as ->.
        exists b. reflexivity.
      * intros [b Hb]. injection Hb as -> ->.
        split; [apply Ascii.eqb_refl|]. exists b. reflexivity.
Qed.

Lemma occurs_in_spec (p s : list ascii) :
  occurs_in p s = true <-> contains_text p s.
Proof.
  unfold contains_text. induction s as [|d s IH].
  - cbn [occurs_in]. rewrite orb_false_r, starts_with_spec. split.
    + intros [b Hb]. exists [], b. exact Hb.
    + intros (a & b & H). destruct a; [|discriminate]. exists b. exact H.
  - cbn [occurs_in]. rewrite orb_true_iff, starts_with_spec, IH. split.
    + intros [[b Hb]|(a & b & ->)].
      * exists [], b. exact Hb.
      * exists (d :: a), b. reflexivity.
    + intros (a & b & H). destruct a as [|x a].
      * left. exists b. exact H.
      * injection H as -> ->. right. exists a, b. reflexivity.
Qed.

Lemma is_exact_match_spec (filename : string) (asset : gmap string string) :
  is_exact_match filename asset = true <-> named filename asset.
Proof.
  unfold is_exact_match, named.
  destruct (asset !! "asset_name") as [n|]; [|split; discriminate].
  rewrite String.eqb_eq. split; congruence.
Qed.

Lemma find_first {A} (f : A -> bool) (before after : list A) (x : A) :
  f x = true -> (forall y, y ∈ before -> f y = false) ->
  List.find f (before ++ x :: after) = Some x.
Proof.
  intros Hx. induction before as [|y before IH]; intros Hnone.
  - simpl. rewrite Hx. reflexivity.
  - simpl. rewrite (Hnone y) by left.
    apply IH. intros z Hz. apply Hnone. right. exact Hz.
Qed.

Lemma find_nothing {A} (f : A -> bool) (l : list A) :
  (forall y, y ∈ l -> f y = false) -> List.find f l = None.
Proof.
  induction l as [|y l IH]; intros Hnone; [reflexivity|].
  simpl. rewrite (Hnone y) by left.
  apply IH. intros z Hz. apply Hnone. right. exact Hz.
Qed.

Lemma split_nonempty (sep : ascii) (s : list ascii) : Text.split sep s <> [].
Proof.
  destruct s as [|c s]; simpl; [discriminate|].
  destruct (Text.is_char sep c); [discriminate|].
  destruct (Text.split sep s); discriminate.
Qed.

(** Cutting at the pipes gives one segment more than there are pipes. *)
Lemma split_pipes (s : list ascii) :
  length (Text.split "|" s) = S (pipes s).
Proof.
  induction s as [|c s IH]; [reflexivity|].
  cbn [Text.split pipes]. unfold Text.is_pipe.
  destruct (Text.is_char "|" c).
  - cbn [length]. rewrite IH. reflexivity.
  - destruct (Text.split "|" s) as [|piece pieces] eqn:E.
    + exfalso. apply (split_nonempty _ _ E).
    + cbn [length] in *. lia.
Qed.

(** With no exactly named row, the search is the partial one. *)
Lemma find_matching_partial (all_assets : list (gmap string string))
    (filename : string) :
  (forall x, x ∈ all_assets -> ~ named filename x) ->
  find_matching_asset_in_sheets all_assets filename
  = if (2 <=? pipes (Text.of_string filename))%nat
    then default ∅
           (List.find
              (is_partial_match (part 0 filename) (part 2 filename)
                 (part 3 filename)) all_assets)
    else ∅.
Proof.
  intros Hnone. unfold find_matching_asset_in_sheets.
  rewrite find_nothing.
  2:{ intros y Hy. destruct (is_exact_match filename y) eqn:E;
        [|reflexivity].
      apply is_exact_match_spec in E. destruct (Hnone y Hy E). }
  cbv zeta. rewrite split_pipes.
  change (3 <=? S (pipes (Text.of_string filename)))%nat
    with (2 <=? pipes (Text.of_string filename))%nat.
  destruct (2 <=? pipes (Text.of_string filename))%nat; [|reflexivity].
  fold (part 0 filename). fold (part 2 filename).
  assert (Haud :
    (if (3 <? S (pipes (Text.of_string filename)))%nat
     then Text.strip
            (nth 3 (Text.split "|" (Text.of_string filename)) [])
     else []) = part 3 filename).
  { destruct (Nat.ltb_spec 3 (S (pipes (Text.of_string filename))))
      as [Hlong|Hshort]; [reflexivity|].
    unfold part. rewrite nth_overflow; [reflexivity|].
    rewrite split_pipes. lia. }
  rewrite Haud.
  destruct (List.find _ all_assets); reflexivity.
Qed.

Lemma is_partial_match_spec (filename : string)
    (asset : gmap string string) :
  is_partial_match (part 0 filename) (part 2 filename) (part 3 filename)
    asset = true
  <-> resembles filename asset.
Proof.
  unfold is_partial_match, resembles. fold (name_of asset).
  rewrite !andb_true_iff, !occurs_in_spec. tauto.
Qed.
End Matching.

(** X25. [find_matching_asset_in_sheets] returns one of the rows or the
    empty dictionary.  The first row whose [asset_name] equals the filename
    wins over every partial match.  Without such a row, a filename with
    fewer than two pipes matches nothing; otherwise the result is the first
    row whose name contains the trimmed first, third and fourth segment of
    the filename (the fourth counting as empty when there is none), and
    the empty dictionary when no row does. *)
Theorem X25_find_matching (all_assets : list (gmap string string))
    (filename : string) :
  let result :=
    GoogleSheets.find_matching_asset_in_sheets all_assets filename in
  (result = ∅ \/ result ∈ all_assets)
  /\ (forall before asset after,
        all_assets = before ++ asset :: after ->
        named filename asset ->
        (forall x, x ∈ before -> ~ named filename x) ->
        result = asset)
  /\ ((forall x, x ∈ all_assets -> ~ named filename x) ->
      ((pipes (Text.of_string filename) < 2)%nat -> result = ∅)
      /\ ((forall x, x ∈ all_assets -> ~ resembles filename x) ->
          result = ∅)
      /\ (forall before asset after,
            (2 <= pipes (Text.of_string filename))%nat ->
            all_assets = before ++ asset :: after ->
            resembles filename asset ->
            (forall x, x ∈ before -> ~ resembles filename x) ->
            result = asset)).
Proof.
  cbn zeta. split; [|split].
  - unfold GoogleSheets.find_matching_asset_in_sheets.
    destruct (List.find (GoogleSheets.is_exact_match filename) all_assets)
      as [asset|] eqn:Hexact.
    { right. apply List.find_some in Hexact as [Hin _].
      apply list_elem_of_In, Hin. }
    cbv zeta.
    destruct (3 <=? _)%nat; [|left; reflexivity].
    destruct (List.find (GoogleSheets.is_partial_match _ _ _) all_assets)
      as [asset|] eqn:Hpartial; [|left; reflexivity].
    right. apply List.find_some in Hpartial as [Hin _].
    apply list_elem_of_In, Hin.
  - intros before asset after -> Hnamed Hbefore.
    unfold GoogleSheets.find_matching_asset_in_sheets.
    rewrite (find_first _ before after asset); [reflexivity| |].
    + apply is_exact_match_spec, Hnamed.
    + intros y Hy.
      destruct (GoogleSheets.is_exact_match filename y) eqn:E;
        [|reflexivity].
      apply is_exact_match_spec in E. destruct (Hbefore y Hy E).
  - intros Hnone. rewrite (find_matching_partial _ _ Hnone).
    split; [|split].
    + intros Hfew.
      destruct (Nat.leb_spec 2 (pipes (Text.of_string filename)));
        [lia|reflexivity].
    + intros Hno. destruct (2 <=? _)%nat; [|reflexivity].
      rewrite find_nothing; [reflexivity|].
      intros y Hy.
      destruct (GoogleSheets.is_partial_match _ _ _ y) eqn:E;
        [|reflexivity].
      apply is_partial_match_spec in E. destruct (Hno y Hy E).
    + intros before asset after Hpipes -> Hres Hbefore.
      apply Nat.leb_le in Hpipes. rewrite Hpipes.
      rewrite (find_first _ before after asset); [reflexivity| |].
      * apply is_partial_match_spec, Hres.
      * intros y Hy.
        destruct (GoogleSheets.is_partial_match _ _ _ y) eqn:E;
          [|reflexivity].
        apply is_partial_match_spec in E. destruct (Hbefore y Hy E).
Qed.

(** ** Runs that cannot overflow *)

Section Bounds.
Import Float64.









End Bounds.

Section Returns.
Import BudgetManager.
Variable env : Env.
Variable assets : list ref.









End Returns.


